(** * openglobus: terrain streaming, tile indexing and picking state

    A shallow embedding of
    - [EarthQuadTreeStrategy.getTileXY] (quadTree/EarthQuadTreeStrategy.ts),
    - [GlobusTerrain] (terrain/GlobusTerrain.js): the three height-mode
      closures, [_getGroundHeight], [loadTerrain], [_applyElevationsData],
    - [RendererEvents.entityPickingEvents] (renderer/RendererEvents.ts).

    JavaScript numbers are embedded as exact rationals [Q], extended with
    the two infinities and [NaN] where the program can produce them
    ([JS.num]); rounding error of IEEE doubles is outside the model.
    Objects that the program updates in place (the two caches, the
    promises, the segments, the module variables of RendererEvents.ts) are
    components of an explicit state. *)

From Stdlib Require Import ZArith QArith Qround Lia Lqa List.
From stdpp Require Import gmap.

Local Open Scope Q_scope.

(** ** JavaScript number primitives *)

Module JS.

(** [ToInt32]: wrap an integer to the signed 32-bit range. *)
Definition int32 (n : Z) : Z := ((n + 2 ^ 31) mod 2 ^ 32 - 2 ^ 31)%Z.

(** [1 << z]: the shift count is taken modulo 32 and the result is a
    signed 32-bit integer. *)
Definition shl1 (z : Z) : Z := int32 (Z.shiftl 1 (z mod 32)).

(** [Math.floor], [Math.ceil] and [Math.round] (half-way cases go up). *)
Definition floor (x : Q) : Z := Qfloor x.
Definition ceil (x : Q) : Z := Qceiling x.
Definition round (x : Q) : Z := Qfloor (x + (1 # 2)).

(** A JavaScript number: a finite value, an infinity or [NaN].  Signed
    zeros are not told apart: a zero divisor acts as [+0].  [undefined]
    becomes [NaN] as soon as it meets an arithmetic operator, and is
    embedded as [NaN]. *)
Inductive num : Type := Fin (q : Q) | PInf | NInf | NaN.

Definition ltb (a b : Q) : bool := negb (Qle_bool b a).
Definition is0 (a : Q) : bool := Qeq_bool a 0.

Definition neg (a : num) : num :=
  match a with
  | Fin x => Fin (- x)
  | PInf => NInf
  | NInf => PInf
  | NaN => NaN
  end.

Definition add (a b : num) : num :=
  match a, b with
  | NaN, _ | _, NaN => NaN
  | Fin x, Fin y => Fin (x + y)
  | PInf, NInf | NInf, PInf => NaN
  | PInf, _ | _, PInf => PInf
  | NInf, _ | _, NInf => NInf
  end.

Definition sub (a b : num) : num := add a (neg b).

(** The infinity of the sign of [x], [NaN] when [x] is zero. *)
Definition signedInf (x : Q) (positive : bool) : num :=
  if is0 x then NaN
  else if Bool.eqb (ltb 0 x) positive then PInf else NInf.

Definition mul (a b : num) : num :=
  match a, b with
  | NaN, _ | _, NaN => NaN
  | Fin x, Fin y => Fin (x * y)
  | Fin x, PInf | PInf, Fin x => signedInf x true
  | Fin x, NInf | NInf, Fin x => signedInf x false
  | PInf, PInf | NInf, NInf => PInf
  | PInf, NInf | NInf, PInf => NaN
  end.

Definition div (a b : num) : num :=
  match a, b with
  | NaN, _ | _, NaN => NaN
  | Fin x, Fin y => if is0 y then signedInf x true else Fin (x / y)
  | Fin _, _ => Fin 0
  | PInf, Fin y => if ltb y 0 then NInf else PInf
  | NInf, Fin y => if ltb y 0 then PInf else NInf
  | _, _ => NaN
  end.

Definition floorN (a : num) : num :=
  match a with Fin x => Fin (inject_Z (floor x)) | _ => a end.

Definition ceilN (a : num) : num :=
  match a with Fin x => Fin (inject_Z (ceil x)) | _ => a end.

(** [a <= b]; every comparison with [NaN] is false. *)
Definition leb (a b : num) : bool :=
  match a, b with
  | NaN, _ | _, NaN => false
  | Fin x, Fin y => Qle_bool x y
  | NInf, _ | _, PInf => true
  | _, _ => false
  end.

(** [Math.sqrt] of an array length.  The root of a length that is not a
    perfect square is irrational and has no value in [Q]; it is embedded as
    [NaN] (every height read through such a side is [undefined], so the
    value computed from it is [NaN] in the program as well). *)
Definition sqrtLength (n : nat) : num :=
  let r := Z.sqrt (Z.of_nat n) in
  if (r * r =? Z.of_nat n)%Z then Fin (inject_Z r) else NaN.

(** [a[i]] of an array of numbers: [undefined] (here [NaN]) unless [i] is
    an integer within the bounds. *)
Definition index (a : list Q) (i : num) : num :=
  match i with
  | Fin q =>
      let k := floor q in
      if Qeq_bool q (inject_Z k) && (0 <=? k)%Z
      then match nth_error a (Z.to_nat k) with Some h => Fin h | None => NaN end
      else NaN
  | _ => NaN
  end.

(** Two program values are the same number. *)
Definition same (a b : num) : Prop :=
  match a, b with
  | Fin x, Fin y => x == y
  | PInf, PInf | NInf, NInf | NaN, NaN => True
  | _, _ => False
  end.

End JS.

(** ** Geometry: LonLat and Extent *)

Record LonLat : Type := mkLonLat { lon : Q; lat : Q }.

Record Extent : Type := mkExtent { southWest : LonLat; northEast : LonLat }.

(** Modelled from the spec: [Extent.getWidth] and [Extent.getHeight]
    (Extent.js is not among the sources), the sides of the extent. *)
Definition getWidth (e : Extent) : Q := lon (northEast e) - lon (southWest e).
Definition getHeight (e : Extent) : Q := lat (northEast e) - lat (southWest e).

(** Modelled from the spec: [Extent.isInside] (Extent.js is not among the
    sources) is the containment test of the spec's "extent contains the
    point": the point lies between the two corners, borders included. *)
Definition isInside (e : Extent) (p : LonLat) : Prop :=
  lon (southWest e) <= lon p /\ lon p <= lon (northEast e) /\
  lat (southWest e) <= lat p /\ lat p <= lat (northEast e).

(** ** The mercator module

    mercator.js is not among the sources.  Its constants and functions are
    the members of this interface: parameters of everything below.  What a
    theorem needs of them is among its hypotheses. *)

Class Mercator : Type := {
  POLE : Q;
  POLE2 : Q;
  MAX_LAT : Q;
  MIN_LAT : Q;
  forward : LonLat -> LonLat;
  getTileX : Q -> Z -> Z;
  getTileY : Q -> Z -> Z
}.

(** Modelled from the spec: [mercator.getTileExtent], the "exact inverse
    mapping" of the main-band indexing of [getTileXY]: the square of side
    [POLE2 / 2^z] whose north-west corner is [x] tiles east and [y] tiles
    south of [(-POLE, POLE)]. *)
Definition getTileExtent `{Mercator} (x y z : Z) : Extent :=
  let size := POLE2 / inject_Z (JS.shl1 z) in
  let sw := mkLonLat (- POLE + inject_Z x * size) (POLE - inject_Z y * size - size) in
  mkExtent sw (mkLonLat (lon sw + size) (lat sw + size)).

(** ** Tile groups (segment/Segment.ts) *)

Inductive TileGroup : Type := TILEGROUP_COMMON | TILEGROUP_NORTH | TILEGROUP_SOUTH.

#[global] Instance TileGroup_eq_dec : EqDecision TileGroup.
Proof. solve_decision. Defined.

(** Modelled from the spec: [getTileGroupByLat] (Segment.ts is not among the
    sources) "dispatches by latitude band": above [maxLat] is the north cap,
    below [-maxLat] the south cap, the rest is the main band.  The sibling
    [getLonLatTileOffset] tests the same two bounds. *)
Definition getTileGroupByLat (lat maxLat : Q) : TileGroup :=
  if Qlt_le_dec maxLat lat then TILEGROUP_NORTH
  else if Qlt_le_dec lat (- maxLat) then TILEGROUP_SOUTH
  else TILEGROUP_COMMON.

(** ** EarthQuadTreeStrategy.getTileXY

    The two [console.log] calls of the polar branches are left out.  The
    divisors are never zero: [1 << z] is not zero for any [z], and
    [MAX_LAT < 90] and [0 < POLE2] for the mercator constants. *)

Definition getTileXY `{Mercator} (lonLat : LonLat) (zoom : Z) : Z * Z * Z * TileGroup :=
  let tileGroup := getTileGroupByLat (lat lonLat) MAX_LAT in
  let z := zoom in
  match tileGroup with
  | TILEGROUP_NORTH =>
      let pz := inject_Z (JS.shl1 z) in
      let sizeLon := 360 / pz in
      let sizeLat := (90 - MAX_LAT) / pz in
      let x := JS.floor ((180 + lon lonLat) / sizeLon) in
      let y := JS.round ((90 - lat lonLat) / sizeLat) in
      (x, y, z, tileGroup)
  | TILEGROUP_SOUTH =>
      let pz := inject_Z (JS.shl1 z) in
      let sizeLon := 360 / pz in
      let sizeLat := (90 - MAX_LAT) / pz in
      let x := JS.floor ((180 + lon lonLat) / sizeLon) in
      let y := JS.round ((MIN_LAT - lat lonLat) / sizeLat) in
      (x, y, z, tileGroup)
  | TILEGROUP_COMMON =>
      let size := POLE2 / inject_Z (JS.shl1 z) in
      let merc := forward lonLat in
      let x := JS.floor ((POLE + lon merc) / size) in
      let y := JS.floor ((POLE - lat merc) / size) in
      (x, y, z, tileGroup)
  end.

(** The three root extents of [EarthQuadTreeStrategy.init]. *)
Definition rootExtent `{Mercator} (g : TileGroup) : Extent :=
  match g with
  | TILEGROUP_COMMON => mkExtent (mkLonLat (- POLE) (- POLE)) (mkLonLat POLE POLE)
  | TILEGROUP_NORTH => mkExtent (mkLonLat (-180) MAX_LAT) (mkLonLat 180 90)
  | TILEGROUP_SOUTH => mkExtent (mkLonLat (-180) (-90)) (mkLonLat 180 MIN_LAT)
  end.

(** Modelled from the spec: [tileExtent(x, y, zoom, topology)], the "exact
    inverse mapping" of the tile index.  Only the main-band case
    ([mercator.getTileExtent]) is referenced by the sources; for the polar
    caps the tile is the cell of the [2^z] by [2^z] grid laid over the root
    extent of the group, rows counted southwards from the northern border as
    in the main band. *)
Definition tileExtent `{Mercator} (x y z : Z) (g : TileGroup) : Extent :=
  match g with
  | TILEGROUP_COMMON => getTileExtent x y z
  | _ =>
      let root := rootExtent g in
      let pz := inject_Z (JS.shl1 z) in
      let sizeLon := getWidth root / pz in
      let sizeLat := getHeight root / pz in
      let west := lon (southWest root) + inject_Z x * sizeLon in
      let north := lat (northEast root) - inject_Z y * sizeLat in
      mkExtent (mkLonLat west (north - sizeLat)) (mkLonLat (west + sizeLon) north)
  end.

(** The point that a tile of group [g] has to contain: the projected point
    in the main band, the geographic point in the caps. *)
Definition tilePoint `{Mercator} (g : TileGroup) (lonLat : LonLat) : LonLat :=
  match g with
  | TILEGROUP_COMMON => forward lonLat
  | _ => lonLat
  end.

(** The spec's invariant for one input. *)
Definition tileContainsInput `{Mercator} (lonLat : LonLat) (zoom : Z) : Prop :=
  let '(x, y, z, g) := getTileXY lonLat zoom in
  isInside (tileExtent x y z g) (tilePoint g lonLat).

(** ** utils/shared.js *)

Declare Scope js_scope.
Delimit Scope js_scope with js.
Infix "+" := JS.add : js_scope.
Infix "-" := JS.sub : js_scope.
Infix "*" := JS.mul : js_scope.
Infix "/" := JS.div : js_scope.
Infix "<=?" := JS.leb : js_scope.

(** A corner computed by the program: its coordinates need not be finite. *)
Definition Vertex : Type := (JS.num * JS.num)%type.

Definition vlon (v : Vertex) : JS.num := fst v.
Definition vlat (v : Vertex) : JS.num := snd v.

(** Modelled from the spec: [cartesianToBarycentricLonLat] (utils/shared.js
    is not among the sources) computes the barycentric coordinates of [p] in
    the triangle [(p1, p2, p3)], stores them in the result array and returns
    whether the triangle "contains the point", that is whether the three
    coordinates lie in [0, 1]. *)
Definition cartesianToBarycentricLonLat (p : LonLat) (p1 p2 p3 : Vertex)
  : bool * (JS.num * JS.num * JS.num) :=
  (let px := JS.Fin (lon p) in
   let py := JS.Fin (lat p) in
   let y2y3 := vlat p2 - vlat p3 in
   let x1x3 := vlon p1 - vlon p3 in
   let x3x2 := vlon p3 - vlon p2 in
   let y1y3 := vlat p1 - vlat p3 in
   let x0x3 := px - vlon p3 in
   let y0y3 := py - vlat p3 in
   let det := y2y3 * x1x3 + x3x2 * y1y3 in
   let b1 := (y2y3 * x0x3 + x3x2 * y0y3) / det in
   let b2 := (JS.neg y1y3 * x0x3 + x1x3 * y0y3) / det in
   let b3 := JS.Fin 1 - b1 - b2 in
   ((JS.Fin 0 <=? b1) && (b1 <=? JS.Fin 1) &&
    (JS.Fin 0 <=? b2) && (b2 <=? JS.Fin 1) &&
    (JS.Fin 0 <=? b3) && (b3 <=? JS.Fin 1),
    (b1, b2, b3)))%js.

(** ** terrain/GlobusTerrain.js: data *)

(** Modelled from the spec: [Layer.getTileIndex] (Layer.js is not among the
    sources) builds the "unique key from (x, y, zoom)". *)
Abbreviation TileIndex := (Z * Z * Z)%type (only parsing).
Definition getTileIndex (x y z : Z) : TileIndex := (x, y, z).

(** Modelled from the spec: [stringTemplate] (utils/shared.js is not among
    the sources) fills the "{x}, {y}, {z} placeholders" of the tile url
    template; the address of a request is the triple it was built from. *)
Abbreviation Url := (Z * Z * Z)%type (only parsing).
Definition stringTemplate (x y z : Z) : Url := (x, y, z).

Inductive HeightMode : Type := ELL | MSL | GND.

Inductive Status : Type := ready | abort | error | otherStatus.

#[global] Instance Status_eq_dec : EqDecision Status.
Proof. solve_decision. Defined.

Record Response : Type := mkResponse { status : Status; data : list Q }.

(** An entry of [_elevationCache]. *)
Record TileData : Type := mkTileData { heights : list Q; extent : Extent }.

(** [_createHeights]: [new Float32Array(data)]; the samples are kept as they
    are. *)
Definition _createHeights (d : list Q) : list Q := d.

Inductive Projection : Type := EPSG3857 | EPSG4326.

#[global] Instance Projection_eq_dec : EqDecision Projection.
Proof. solve_decision. Defined.

Inductive NodeState : Type := NOTRENDERING | WALKTHROUGH | RENDERING.

#[global] Instance NodeState_eq_dec : EqDecision NodeState.
Proof. solve_decision. Defined.

(** The fields of a planet segment that the terrain provider reads and
    writes.  [terrainApplied] records the arguments of [applyTerrain]
    (Segment.js is not among the sources), [None] standing for [null]. *)
Record Segment : Type := mkSegment {
  tileIndex : TileIndex;
  tileX : Z;
  tileY : Z;
  tileZoom : Z;
  _projection : Projection;
  segExtent : Extent;
  plainReady : bool;
  nodeState : NodeState;
  terrainReady : bool;
  terrainIsLoading : bool;
  terrainApplied : list (option (list Q))
}.

Definition set_loading (ready loading : bool) (s : Segment) : Segment :=
  mkSegment (tileIndex s) (tileX s) (tileY s) (tileZoom s) (_projection s)
    (segExtent s) (plainReady s) (nodeState s) ready loading (terrainApplied s).

Definition set_terrainIsLoading (loading : bool) (s : Segment) : Segment :=
  set_loading (terrainReady s) loading s.

Definition applyTerrain (elevations : option (list Q)) (s : Segment) : Segment :=
  mkSegment (tileIndex s) (tileX s) (tileY s) (tileZoom s) (_projection s)
    (segExtent s) (plainReady s) (nodeState s) (terrainReady s)
    (terrainIsLoading s) (terrainApplied s ++ [elevations]).

(** The continuation that the ground closure passes to [then]: the
    variables it captures. *)
Record GndCont : Type := mkGndCont {
  k_lonLat : LonLat;
  k_altEll : Q;
  k_callback : nat;
  k_x : Z;
  k_y : Z;
  k_z : Z;
  k_tileIndex : TileIndex;
  k_altMsl : Q
}.

(** A promise returned by [_loader.fetch]: pending while [p_result] is
    [None]; [p_conts] are the continuations registered so far. *)
Record Promise : Type := mkPromise {
  p_src : Url;
  p_result : option Response;
  p_conts : list GndCont
}.

(** A request handed to [_loader.load] by [loadTerrain], with the variables
    captured by its [filter] and by its callback. *)
Record LoadReq : Type := mkLoadReq {
  l_src : Url;
  l_segment : nat;
  l_force : bool
}.

(** The payload of a dispatched [load] event. *)
Record LoadEvent : Type := mkLoadEvent {
  ev_elevations : option (list Q);
  ev_segment : nat
}.

(** The provider together with the objects it shares with its
    collaborators: the loader ([promises] in creation order, [loadQueue]),
    the planet ([terrainLock], the segments by reference), the handlers of
    the [load] event and the two observable logs: event dispatches and
    invocations of caller-supplied callbacks. *)
Record World : Type := mkWorld {
  maxZoom : Z;
  _elevationCache : gmap TileIndex TileData;
  _fetchCache : gmap TileIndex nat;
  _urlRewriteCallback : option (Segment -> Url -> Url);
  promises : list Promise;
  loadQueue : list LoadReq;
  terrainLock : gset nat;
  segments : gmap nat Segment;
  loadHandlers : nat;
  dispatched : list LoadEvent;
  calls : list (nat * JS.num)
}.

Definition set_elevationCache (f : gmap TileIndex TileData -> gmap TileIndex TileData) (t : World) : World :=
  mkWorld (maxZoom t) (f (_elevationCache t)) (_fetchCache t) (_urlRewriteCallback t)
    (promises t) (loadQueue t) (terrainLock t) (segments t) (loadHandlers t)
    (dispatched t) (calls t).

Definition set_fetchCache (f : gmap TileIndex nat -> gmap TileIndex nat) (t : World) : World :=
  mkWorld (maxZoom t) (_elevationCache t) (f (_fetchCache t)) (_urlRewriteCallback t)
    (promises t) (loadQueue t) (terrainLock t) (segments t) (loadHandlers t)
    (dispatched t) (calls t).

Definition set_promises (f : list Promise -> list Promise) (t : World) : World :=
  mkWorld (maxZoom t) (_elevationCache t) (_fetchCache t) (_urlRewriteCallback t)
    (f (promises t)) (loadQueue t) (terrainLock t) (segments t) (loadHandlers t)
    (dispatched t) (calls t).

Definition set_loadQueue (f : list LoadReq -> list LoadReq) (t : World) : World :=
  mkWorld (maxZoom t) (_elevationCache t) (_fetchCache t) (_urlRewriteCallback t)
    (promises t) (f (loadQueue t)) (terrainLock t) (segments t) (loadHandlers t)
    (dispatched t) (calls t).

Definition set_terrainLock (f : gset nat -> gset nat) (t : World) : World :=
  mkWorld (maxZoom t) (_elevationCache t) (_fetchCache t) (_urlRewriteCallback t)
    (promises t) (loadQueue t) (f (terrainLock t)) (segments t) (loadHandlers t)
    (dispatched t) (calls t).

Definition set_segments (f : gmap nat Segment -> gmap nat Segment) (t : World) : World :=
  mkWorld (maxZoom t) (_elevationCache t) (_fetchCache t) (_urlRewriteCallback t)
    (promises t) (loadQueue t) (terrainLock t) (f (segments t)) (loadHandlers t)
    (dispatched t) (calls t).

Definition set_dispatched (f : list LoadEvent -> list LoadEvent) (t : World) : World :=
  mkWorld (maxZoom t) (_elevationCache t) (_fetchCache t) (_urlRewriteCallback t)
    (promises t) (loadQueue t) (terrainLock t) (segments t) (loadHandlers t)
    (f (dispatched t)) (calls t).

Definition set_calls (f : list (nat * JS.num) -> list (nat * JS.num)) (t : World) : World :=
  mkWorld (maxZoom t) (_elevationCache t) (_fetchCache t) (_urlRewriteCallback t)
    (promises t) (loadQueue t) (terrainLock t) (segments t) (loadHandlers t)
    (dispatched t) (f (calls t)).

(** The state built by the constructor ([maxZoom] defaults to 14): empty
    caches, nothing requested, nothing observed. *)
Definition newWorld (zoom : Z) (handlers : nat) (segs : gmap nat Segment) : World :=
  mkWorld zoom ∅ ∅ None [] [] ∅ segs handlers [] [].

(** The geoid (Geoid.js is not among the sources): the spec's "opaque"
    lookup [getHeightAt(lonLat) -> height], a parameter. *)
Class Geoid : Type := { getHeightLonLat : LonLat -> Q }.

(** ** The terrain lock *)

(** Modelled from the spec: a lock (its class is not among the sources) is
    the set of the keys that hold it; [lock] adds a key, [free] removes it
    and [isFree] holds iff no holder remains. *)
Definition lock (key : nat) (holders : gset nat) : gset nat := {[key]} ∪ holders.
Definition free (key : nat) (holders : gset nat) : gset nat := holders ∖ {[key]}.
Definition isFree (holders : gset nat) : bool := bool_decide (holders = ∅).

(** ** terrain/GlobusTerrain.js: operations *)

Section GlobusTerrain.

Context {M : Mercator} {G : Geoid}.

(** The first half of [_getGroundHeight]: the four heights [h0 .. h3]
    read around the query point and the corners [v0 .. v3] of their grid
    cell.  The two [isInside] checks of the source only write to the
    console and are left out. *)
Record GridCell : Type := mkGridCell {
  h0 : JS.num; h1 : JS.num; h2 : JS.num; h3 : JS.num;
  v0 : Vertex; v1 : Vertex; v2 : Vertex; v3 : Vertex
}.

Definition gridCell (lonLat : LonLat) (tileData : TileData) : GridCell :=
  (let merc := forward lonLat in
   let ext := extent tileData in
   let hs := heights tileData in
   let w := JS.Fin (getWidth ext) in
   let gs := JS.sqrtLength (length hs) in
   let size := w / (gs - JS.Fin 1) in
   let i := gs - JS.ceilN ((JS.Fin (lat merc) - JS.Fin (lat (southWest ext))) / size) - JS.Fin 1 in
   let j := JS.floorN ((JS.Fin (lon merc) - JS.Fin (lon (southWest ext))) / size) in
   let v0Ind := (i + JS.Fin 1) * gs + j in
   let v1Ind := v0Ind + JS.Fin 1 in
   let v2Ind := i * gs + j in
   let v3Ind := v2Ind + JS.Fin 1 in
   let v0 : Vertex := (JS.Fin (lon (southWest ext)) + size * j,
                       JS.Fin (lat (northEast ext)) - size * i - size) in
   mkGridCell
     (JS.index hs v0Ind) (JS.index hs v1Ind) (JS.index hs v2Ind) (JS.index hs v3Ind)
     v0
     (vlon v0 + size, vlat v0)
     (vlon v0, vlat v0 + size)
     (vlon v0 + size, vlat v0 + size))%js.

(** [_getGroundHeight]: the interpolation over the triangle
    [(v0, v1, v2)] or else [(v1, v2, v3)].  When neither test succeeds the
    source falls off the end of the function and returns [undefined],
    embedded as [NaN]. *)
Definition _getGroundHeight (lonLat : LonLat) (tileData : TileData) : JS.num :=
  (let merc := forward lonLat in
   let c := gridCell lonLat tileData in
   let '(in012, (c0, c1, c2)) := cartesianToBarycentricLonLat merc (v0 c) (v1 c) (v2 c) in
   if in012 then h0 c * c0 + h1 c * c1 + h2 c * c2
   else
     let '(in123, (d0, d1, d2)) := cartesianToBarycentricLonLat merc (v1 c) (v2 c) (v3 c) in
     if in123 then h1 c * d0 + h2 c * d1 + h3 c * d2
     else JS.NaN)%js.

(** Invoking a caller-supplied callback: the call is recorded. *)
Definition invoke (callback : nat) (v : JS.num) (t : World) : World :=
  set_calls (fun l => l ++ [(callback, v)]) t.

(** The function passed to [then] by the ground closure. *)
Definition gndContinuation (k : GndCont) (response : Response) (t : World) : World :=
  match status response with
  | ready =>
      let cache := mkTileData (_createHeights (data response))
                     (getTileExtent (k_x k) (k_y k) (k_z k)) in
      let t := set_elevationCache (insert (k_tileIndex k) cache) t in
      invoke (k_callback k)
        (JS.Fin (k_altEll k) - (_getGroundHeight (k_lonLat k) cache + JS.Fin (k_altMsl k)))%js t
  | abort => set_fetchCache (delete (k_tileIndex k)) t
  | error =>
      let cache := mkTileData [] (getTileExtent (k_x k) (k_y k) (k_z k)) in
      let t := set_elevationCache (insert (k_tileIndex k) cache) t in
      invoke (k_callback k) (JS.Fin (k_altEll k) - JS.Fin (k_altMsl k))%js t
  | otherStatus => set_fetchCache (delete (k_tileIndex k)) t
  end.

(** Modelled from the spec: [_loader.fetch] (utils/Loader.js is not among
    the sources), the "fetch primitive" whose "asynchronous result" is one of
    ready, error and abort: a new promise, pending until the environment
    settles it ([resolveFetch]). *)
Definition loaderFetch (src : Url) (t : World) : nat * World :=
  (length (promises t), set_promises (fun ps => ps ++ [mkPromise src None []]) t).

(** [promise.then(k)]: registered while the promise is pending, run with
    the settled value otherwise. *)
Definition promiseThen (pid : nat) (k : GndCont) (t : World) : World :=
  match promises t !! pid with
  | Some p =>
      match p_result p with
      | None =>
          set_promises (insert pid (mkPromise (p_src p) None (p_conts p ++ [k]))) t
      | Some r => gndContinuation k r t
      end
  | None => t
  end.

(** [_ellToAltFn[GND]]. *)
Definition ellToAltGND (lonLat : LonLat) (altEll : Q) (callback : nat) (t : World) : World :=
  let altMsl := getHeightLonLat lonLat in
  let z := maxZoom t in
  let x := getTileX (lon lonLat) z in
  let y := getTileY (lat lonLat) z in
  let tileIndex := getTileIndex x y z in
  match _elevationCache t !! tileIndex with
  | Some cache =>
      invoke callback
        (JS.Fin altEll - (_getGroundHeight lonLat cache + JS.Fin altMsl))%js t
  | None =>
      let t :=
        match _fetchCache t !! tileIndex with
        | Some _ => t
        | None =>
            let url := stringTemplate x y z in
            let '(pid, t) := loaderFetch url t in
            set_fetchCache (insert tileIndex pid) t
        end in
      match _fetchCache t !! tileIndex with
      | Some pid =>
          promiseThen pid (mkGndCont lonLat altEll callback x y z tileIndex altMsl) t
      | None => t
      end
  end.

(** [getHeightAsync], dispatching on the three entries of [_ellToAltFn]. *)
Definition getHeightAsync (heightMode : HeightMode) (lonLat : LonLat)
    (callback : nat) (altEll : Q) (t : World) : World :=
  match heightMode with
  | ELL => invoke callback (JS.Fin altEll) t
  | MSL => invoke callback (JS.Fin altEll - JS.Fin (getHeightLonLat lonLat))%js t
  | GND => ellToAltGND lonLat altEll callback t
  end.

(** [_createUrl] and [_getHTTPRequestString]. *)
Definition _createUrl (segment : Segment) : Url :=
  stringTemplate (tileX segment) (tileY segment) (tileZoom segment).

Definition _getHTTPRequestString (segment : Segment) (t : World) : Url :=
  let url := _createUrl segment in
  match _urlRewriteCallback t with
  | Some rewrite => rewrite segment url
  | None => url
  end.

(** [_applyElevationsData] for a segment reference that is not null. *)
Definition _applyElevationsData (seg : nat) (elevations : option (list Q)) (t : World) : World :=
  let t :=
    if (0 <? loadHandlers t)%nat
    then set_dispatched (fun l => l ++ [mkLoadEvent elevations seg]) t
    else t in
  set_segments (alter (applyTerrain elevations) seg) t.

(** The [filter] closure of a load request; the loader evaluates it when
    it takes the request from its queue. *)
Definition loadFilter (segment : Segment) (forceLoading : bool) : bool :=
  plainReady segment && negb (bool_decide (nodeState segment = NOTRENDERING))
  || forceLoading.

(** The callback that [loadTerrain] hands to [_loader.load]. *)
Definition loadCallback (seg : nat) (response : Response) (t : World) : World :=
  match segments t !! seg with
  | None => t
  | Some segment =>
      match status response with
      | ready =>
          let hs := _createHeights (data response) in
          let t := set_elevationCache
                     (insert (tileIndex segment) (mkTileData hs (segExtent segment))) t in
          _applyElevationsData seg (Some hs) t
      | abort => set_segments (alter (set_terrainIsLoading false) seg) t
      | error => _applyElevationsData seg None t
      | otherStatus => set_segments (alter (set_terrainIsLoading false) seg) t
      end
  end.

(** Modelled from the spec: [_loader.load] (utils/Loader.js is not among
    the sources): "accepted requests" join the loader's queue and stay there
    until the loader calls their callback with a response ([resolveLoad]). *)
Definition loaderLoad (req : LoadReq) (t : World) : World :=
  set_loadQueue (fun q => q ++ [req]) t.

(** [loadTerrain].  A segment reference always names an object of the
    store; an unknown reference does nothing.  The segment is an object
    updated in place: after the two assignments [segment] is its new
    state. *)
Definition loadTerrain (seg : nat) (forceLoading : bool) (t : World) : World :=
  match segments t !! seg with
  | None => t
  | Some segment =>
      if isFree (terrainLock t) then
        let t := set_segments (alter (set_loading false true) seg) t in
        let segment := set_loading false true segment in
        if bool_decide (_projection segment = EPSG3857) then
          match _elevationCache t !! tileIndex segment with
          | Some cache => _applyElevationsData seg (Some (heights cache)) t
          | None =>
              loaderLoad (mkLoadReq (_getHTTPRequestString segment t) seg forceLoading) t
          end
        else t
      else set_segments (alter (set_terrainIsLoading false) seg) t
  end.

(** *** The environment: settling of requests *)

(** Modelled from the spec: the fetch primitive "delivers results through
    a continuation invoked on a later frame".  A pending promise settles
    with [response]; its continuations run in the order of registration. *)
Definition resolveFetch (pid : nat) (response : Response) (t : World) : World :=
  match promises t !! pid with
  | Some p =>
      match p_result p with
      | None =>
          let t := set_promises (insert pid (mkPromise (p_src p) (Some response) [])) t in
          fold_left (fun t k => gndContinuation k response t) (p_conts p) t
      | Some _ => t
      end
  | None => t
  end.

(** Modelled from the spec: the loader finishes the [i]-th request of its
    queue and calls its callback with [response]; a request that its
    [filter] rejects, or that is cancelled, is finished with status
    "abort". *)
Definition resolveLoad (i : nat) (response : Response) (t : World) : World :=
  match loadQueue t !! i with
  | Some req => loadCallback (l_segment req) response (set_loadQueue (delete i) t)
  | None => t
  end.

(** What can happen to the provider on the single update timeline: the
    calls of its collaborators and the settling of its requests, with any
    status ([abortLoading] only asks the loader to settle requests with
    "abort"). *)
Inductive Event : Type :=
| GetHeightAsync (heightMode : HeightMode) (lonLat : LonLat) (callback : nat) (altEll : Q)
| LoadTerrain (seg : nat) (forceLoading : bool)
| ResolveFetch (pid : nat) (response : Response)
| ResolveLoad (i : nat) (response : Response)
| LockTerrain (key : nat)
| FreeTerrain (key : nat).

Definition step (t : World) (e : Event) : World :=
  match e with
  | GetHeightAsync m p cb a => getHeightAsync m p cb a t
  | LoadTerrain seg force => loadTerrain seg force t
  | ResolveFetch pid r => resolveFetch pid r t
  | ResolveLoad i r => resolveLoad i r t
  | LockTerrain key => set_terrainLock (lock key) t
  | FreeTerrain key => set_terrainLock (free key) t
  end.

Definition run (es : list Event) (t : World) : World := fold_left step es t.

(** *** Requests in flight *)





(** All fetches that point queries have issued for tile [k] so far, settled
    or not ([promises] only grows). *)
Definition fetchesTo (k : TileIndex) (t : World) : nat :=
  length (List.filter (fun s => bool_decide (s = k)) (map p_src (promises t))).

(** The sentinel that stands for "no elevation data". *)
Definition isSentinel (d : TileData) : Prop := heights d = [].

Definition hasSentinel (k : TileIndex) (t : World) : Prop :=
  exists d, _elevationCache t !! k = Some d /\ isSentinel d.

(** The part of the world that belongs to bulk loading and to the planet;
    point queries leave it alone. *)
Definition sameBulkState (t t' : World) : Prop :=
  loadQueue t' = loadQueue t /\ segments t' = segments t /\
  dispatched t' = dispatched t /\ loadHandlers t' = loadHandlers t /\
  terrainLock t' = terrainLock t /\ maxZoom t' = maxZoom t.

(** *** The fetch-dedup table and the promises it refers to *)



(** *** The [load] events of a segment *)

(** The elevations carried by the [load] events dispatched for [seg], in
    the order of dispatch. *)
Definition eventsOf (seg : nat) (t : World) : list (option (list Q)) :=
  map ev_elevations (List.filter (fun e => Nat.eqb (ev_segment e) seg) (dispatched t)).

(** Every segment has received exactly the elevations announced by the
    [load] events dispatched for it. *)
Definition eventsMatchApplied (t : World) : Prop :=
  forall seg s, segments t !! seg = Some s -> terrainApplied s = eventsOf seg t.

End GlobusTerrain.

(** ** renderer/RendererEvents.ts: entity picking *)

Module RendererEvents.

(** The first three entries of a picking-colour [Uint8Array(4)]; the fourth
    is neither read nor written by [entityPickingEvents]. *)
Abbreviation Color := (Z * Z * Z)%type (only parsing).

Definition ISBLACK (c : Color) : bool :=
  let '(c0, c1, c2) := c in (c0 =? 0)%Z && (c1 =? 0)%Z && (c2 =? 0)%Z.

Definition NOTBLACK (c : Color) : bool := negb (ISBLACK c).

Definition MAX_SKIP_FRAMES_ON_BLACK : Z := 15.

(** The variables declared with [let] at the top of the module: one copy
    for the whole process, whatever the number of [RendererEvents]
    instances. *)
Record ModuleState : Type := mkModuleState {
  __skipFrames__ : Z;
  _currPickingColor : Color;
  _tempCurrPickingColor : Color;
  _prevPickingColor : Color
}.

Definition initialModuleState : ModuleState :=
  mkModuleState 0 (0, 0, 0)%Z (0, 0, 0)%Z (0, 0, 0)%Z.

(** An object that can be picked; [rendererEvents] tells whether it has an
    events handler to dispatch to. *)
Record PickingObject : Type := mkPickingObject {
  objectId : nat;
  rendererEvents : bool
}.

(** The renderer of an instance (Renderer.ts is not among the sources):
    the colour of its picking buffer at a position and its table from
    colours to objects. *)
Record Renderer : Type := mkRenderer {
  readPickingColor : Q -> Q -> Color;
  getPickingObjectArr : Color -> option PickingObject
}.

(** The fields of [mouseState] and [touchState] used by picking. *)
Record InputState : Type := mkInputState {
  x : Q;
  y : Q;
  nx : Q;
  ny : Q;
  pickingObject : option PickingObject
}.

Record Instance : Type := mkInstance {
  renderer : Renderer;
  touchState : InputState;
  mouseState : InputState;
  leftButtonHold : bool;
  rightButtonHold : bool;
  middleButtonHold : bool
}.

Inductive EventName : Type := mouseleave | touchleave | mouseenter | touchenter.

(** A dispatch to the events handler of an object. *)
Abbreviation Dispatch := (EventName * nat)%type (only parsing).

Definition set_pickingObject (o : option PickingObject) (s : InputState) : InputState :=
  mkInputState (x s) (y s) (nx s) (ny s) o.

Definition set_picked (o : option PickingObject) (i : Instance) : Instance :=
  mkInstance (renderer i) (set_pickingObject o (touchState i))
    (set_pickingObject o (mouseState i))
    (leftButtonHold i) (rightButtonHold i) (middleButtonHold i).

(** A number is truthy unless it is zero. *)
Definition truthy (q : Q) : bool := negb (Qeq_bool q 0).

(** [pe && pe.dispatch(pe.mouseleave, ms)] followed by the touch
    counterpart, [ms.pickingObject] and [ts.pickingObject] being set to the
    object first. *)
Definition leave (po : PickingObject) : list Dispatch :=
  if rendererEvents po then [(mouseleave, objectId po); (touchleave, objectId po)] else [].

Definition enter (co : PickingObject) : list Dispatch :=
  if rendererEvents co then [(mouseenter, objectId co); (touchenter, objectId co)] else [].

Definition sameColor (a b : Color) : bool :=
  let '(a0, a1, a2) := a in
  let '(b0, b1, b2) := b in
  (a0 =? b0)%Z && (a1 =? b1)%Z && (a2 =? b2)%Z.

(** [entityPickingEvents]: the instance and the module variables after the
    call, and the events dispatched by it. *)
Definition entityPickingEvents (this : Instance) (g : ModuleState)
  : Instance * ModuleState * list Dispatch :=
  let ts := touchState this in
  let ms := mouseState this in
  if negb (leftButtonHold this || rightButtonHold this || middleButtonHold this) then
    let r := renderer this in
    let t :=
      if truthy (x ts) || truthy (y ts)
      then readPickingColor r (nx ts) (1 - ny ts)
      else readPickingColor r (nx ms) (1 - ny ms) in
    let c := _currPickingColor g in
    if ISBLACK t && (__skipFrames__ g <? MAX_SKIP_FRAMES_ON_BLACK)%Z then
      (this, mkModuleState (__skipFrames__ g + 1) c t (_prevPickingColor g), [])
    else
      let p := c in
      let c := t in
      let g := mkModuleState 0 c t p in
      let co := getPickingObjectArr r c in
      let this := set_picked co this in
      if negb (sameColor c p) then
        if ISBLACK c then
          match getPickingObjectArr r p with
          | Some po => (set_picked (Some po) this, g, leave po)
          | None => (this, g, [])
          end
        else
          let '(this, leaves) :=
            if NOTBLACK p then
              match getPickingObjectArr r p with
              | Some po => (set_picked (Some po) this, leave po)
              | None => (this, [])
              end
            else (this, []) in
          match co with
          | Some co => (set_picked (Some co) this, g, leaves ++ enter co)
          | None => (this, g, leaves)
          end
      else (this, g, [])
  else (this, g, []).

(** The colour under the pointer of an instance. *)
Definition pointerColor (this : Instance) : Color :=
  let ts := touchState this in
  let ms := mouseState this in
  if truthy (x ts) || truthy (y ts)
  then readPickingColor (renderer this) (nx ts) (1 - ny ts)
  else readPickingColor (renderer this) (nx ms) (1 - ny ms).

Definition held (this : Instance) : bool :=
  leftButtonHold this || rightButtonHold this || middleButtonHold this.

(** Two globes in one page: each renderer shows one object, in its own
    colour, under the pointer of its instance. *)
Definition globeA : Instance :=
  mkInstance
    (mkRenderer (fun _ _ => (10, 0, 0)%Z)
       (fun c => if sameColor c (10, 0, 0)%Z then Some (mkPickingObject 1 true) else None))
    (mkInputState 0 0 0 0 None) (mkInputState 5 5 (1 # 2) (1 # 2) None)
    false false false.

Definition globeB : Instance :=
  mkInstance
    (mkRenderer (fun _ _ => (0, 20, 0)%Z)
       (fun c => if sameColor c (0, 20, 0)%Z then Some (mkPickingObject 2 true) else None))
    (mkInputState 0 0 0 0 None) (mkInputState 7 7 (1 # 3) (1 # 3) None)
    false false false.

End RendererEvents.

(** A rational stand-in for the mercator module, used to run the program on
    concrete inputs.  [POLE] is the bound of the main-band root extent in
    [EarthQuadTreeStrategy.init]; [MAX_LAT] is the mercator latitude limit to
    ten decimals.  Longitudes are projected exactly; latitudes by linear
    interpolation between the knots 0, 50.5 and [MAX_LAT] of the true
    projection (mirrored to the south). *)
Module EarthSample.

Definition pole : Q := 20037508.34.
Definition maxLat : Q := 85.0511287798.

Definition latKnot : Q := 50.5.
Definition mercKnot : Q := 6533321.566928.

Definition forwardLatNorth (a : Q) : Q :=
  if Qle_bool a latKnot then a * (mercKnot / latKnot)
  else mercKnot + (a - latKnot) * ((pole - mercKnot) / (maxLat - latKnot)).

Definition forwardLat (a : Q) : Q :=
  if Qle_bool 0 a then forwardLatNorth a else - forwardLatNorth (- a).

Definition sampleForward (p : LonLat) : LonLat :=
  mkLonLat (lon p * pole / 180) (forwardLat (lat p)).

Definition mercator : Mercator := {|
  POLE := pole;
  POLE2 := pole * 2;
  MAX_LAT := maxLat;
  MIN_LAT := - maxLat;
  forward := sampleForward;
  getTileX := fun lo z =>
    JS.floor ((pole + lo * pole / 180) / (pole * 2 / inject_Z (JS.shl1 z)));
  getTileY := fun la z =>
    JS.floor ((pole - forwardLat la) / (pole * 2 / inject_Z (JS.shl1 z)))
|}.

Definition geoid : Geoid := {| getHeightLonLat := fun _ => 47 |}.

(** The tile of the point (7, 50.5) at zoom 14, a segment on it and a
    provider as the constructor leaves it, with one handler of [load]. *)
Definition tile : TileIndex := (8510, 5520, 14)%Z.

Definition segment : Segment :=
  mkSegment tile 8510 5520 14 EPSG3857
    (@getTileExtent mercator 8510 5520 14) true RENDERING false false [].

Definition world : World := newWorld 14 1 {[ 0%nat := segment ]}.

(** The query point of the scenario and the provider after the tile of
    that point was cached from a response of four bytes, a single sample. *)
Definition query : LonLat := mkLonLat 7 50.5.

Definition truncatedWorld : World :=
  set_elevationCache
    (insert tile (mkTileData [5] (@getTileExtent mercator 8510 5520 14))) world.

(** The provider with the all-zero 32 x 32 grid of the tile in its cache. *)
Definition flatWorld : World :=
  set_elevationCache
    (insert tile (mkTileData (repeat 0 1024) (@getTileExtent mercator 8510 5520 14))) world.

(** The provider after a ground-mode query at the point (callback 3,
    ellipsoidal altitude 100) whose fetch has not settled yet, the
    continuation registered by that query and the promise that holds it. *)
Definition continuation : GndCont := mkGndCont query 100 3 8510 5520 14 tile 47.

Definition pendingPromise : Promise := mkPromise tile None [continuation].

Definition pendingWorld : World :=
  @getHeightAsync mercator geoid GND query 3 100 world.

(** The provider after [loadTerrain] queued a bulk load of the segment. *)
Definition queuedWorld : World := loadTerrain 0 false world.

(** The same provider while the navigation control holds the terrain lock
    under key 7. *)
Definition lockedWorld : World := set_terrainLock (lock 7) world.

End EarthSample.


From Stdlib Require Import Qabs.

(** ** GlobusTerrain.setUrlRewriteCallback

    [ur] is [None] for [null]. *)
Definition setUrlRewriteCallback (ur : option (Segment -> Url -> Url)) (t : World) : World :=
  mkWorld (maxZoom t) (_elevationCache t) (_fetchCache t) ur
    (promises t) (loadQueue t) (terrainLock t) (segments t) (loadHandlers t)
    (dispatched t) (calls t).

(** ** EarthQuadTreeStrategy.getLonLatTileOffset

    [newExtent] is the value of [new Extent()] (Extent.js is not among the
    sources), which the two polar branches leave in place; [gridSize] is
    any number.  The result is the pair [[i, j]]. *)
Definition getLonLatTileOffset `{Mercator} (newExtent : Extent) (lonLat : LonLat)
    (x y z : Z) (gridSize : Q) : JS.num * JS.num :=
  let '(coords, extent) :=
    if Qlt_le_dec MAX_LAT (lat lonLat) then (lonLat, newExtent)
    else if Qlt_le_dec (lat lonLat) MIN_LAT then (lonLat, newExtent)
    else (forward lonLat, getTileExtent x y z) in
  (let sizeImgW := JS.Fin (getWidth extent) / (JS.Fin gridSize - JS.Fin 1) in
   let sizeImgH := JS.Fin (getHeight extent) / (JS.Fin gridSize - JS.Fin 1) in
   let i := JS.Fin gridSize
            - JS.ceilN ((JS.Fin (lat coords) - JS.Fin (lat (southWest extent))) / sizeImgH)
            - JS.Fin 1 in
   let j := JS.floorN ((JS.Fin (lon coords) - JS.Fin (lon (southWest extent))) / sizeImgW) in
   (i, j))%js.

(** A number that is neither an infinity nor [NaN]. *)
Definition isFinite (a : JS.num) : Prop := exists q, a = JS.Fin q.

(** * og.control.MouseNavigation (src/unnamed/part_002)

    The wheel zoom and the inertia of the mouse navigation control: the
    control flow of [getMovePointsFromPixelTerrain], [stopRotation],
    [onMouseWheel] and [onDraw], over the state of the control, of the
    camera and of the three locks of the planet.  [planet.terrainLock] is
    the lock that [GlobusTerrain.loadTerrain] tests: the planet holds the
    state of the terrain provider. *)
Module MouseNavigation.

(** The classes of [og.math] and the ray casts are not among the sources:
    their operations are parameters.  Every method returns a new object,
    but [addA], which updates its receiver: [addA a b] is the receiver
    after [a.addA(b)].  [hitSphere eye dir radius] is
    [new og.math.Ray(eye, dir).hitSphere(sphere)] for a sphere of that
    radius, [slerpToIdentity q t] is
    [q.slerp(og.math.Quaternion.IDENTITY, t).normalize()] and [vanishes q]
    is [!(q.x || q.y || q.z)]. *)
Class Geometry : Type := {
  Vector3 : Type;
  Matrix4 : Type;
  Quaternion : Type;
  Pixel : Type;
  addA : Vector3 -> Vector3 -> Vector3;
  sub : Vector3 -> Vector3 -> Vector3;
  normalize : Vector3 -> Vector3;
  normal : Vector3 -> Vector3;
  scaleTo : Vector3 -> JS.num -> Vector3;
  dot : Vector3 -> Vector3 -> Q;
  distance : Vector3 -> Vector3 -> Q;
  length3 : Vector3 -> Q;
  hitSphere : Vector3 -> Vector3 -> Q -> option Vector3;
  rotateBetweenVectors : Vector3 -> Vector3 -> Matrix4;
  mulVec3 : Matrix4 -> Vector3 -> Vector3;
  clear : Quaternion -> Quaternion;
  slerpToIdentity : Quaternion -> Q -> Quaternion;
  vanishes : Quaternion -> bool;
  qMulVec3 : Quaternion -> Vector3 -> Vector3
}.

(** The fields of the camera that the control reads and writes;
    [height] is [cam._lonLat.height]. *)
Record Camera `{Geometry} : Type := mkCamera {
  eye : Vector3;
  _v : Vector3;
  _u : Vector3;
  _n : Vector3;
  height : Q;
  _terrainAltitude : Q
}.

Arguments mkCamera {_} _ _ _ _ _ _.

(** [cam.update()] and [planet.getCartesianFromPixelTerrain(point, true)],
    which is [None] where the source gets [undefined]. *)
Class Scene `{Geometry} : Type := {
  update : Camera -> Camera;
  getCartesianFromPixelTerrain : Camera -> Pixel -> option Vector3
}.

(** One element of [steps]. *)
Record Step `{Geometry} : Type := mkStep {
  s_eye : Vector3;
  s_v : Vector3;
  s_u : Vector3;
  s_n : Vector3
}.

Arguments mkStep {_} _ _ _ _.

(** The planet: its three locks; the terrain lock is the one of the
    terrain provider. *)
Record Planet : Type := mkPlanet {
  layerLock : gset nat;
  terrain : World;
  normalMapCreator : gset nat
}.

(** The control; [controlsBag_scaleRot] is [renderer.controlsBag.scaleRot]
    and [stepsForward], [null] at first, is the empty array then: reading
    an element fails for both. *)
Record Control `{Geometry} : Type := mkControl {
  active : bool;
  inertia : Q;
  qRot : Quaternion;
  scaleRot : Q;
  distDiff : Q;
  stepsCount : Z;
  stepsForward : list Step;
  stepIndex : Z;
  _deactivate : bool;
  _keyLock : nat;
  planet : Planet;
  activeCamera : Camera;
  controlsBag_scaleRot : Q
}.

Arguments mkControl {_} _ _ _ _ _ _ _ _ _ _ _ _ _.

Section Control.

Context {Geo : Geometry} {Sc : Scene}.

Definition set_pose (sf : Step) (cam : Camera) : Camera :=
  mkCamera (s_eye sf) (s_v sf) (s_u sf) (s_n sf) (height cam) (_terrainAltitude cam).

Definition rotateCamera (rot : Quaternion) (cam : Camera) : Camera :=
  mkCamera (qMulVec3 rot (eye cam)) (qMulVec3 rot (_v cam)) (qMulVec3 rot (_u cam))
    (qMulVec3 rot (_n cam)) (height cam) (_terrainAltitude cam).

Definition set_qRot (q : Quaternion) (c : Control) : Control :=
  mkControl (active c) (inertia c) q (scaleRot c) (distDiff c) (stepsCount c)
    (stepsForward c) (stepIndex c) (_deactivate c) (_keyLock c) (planet c)
    (activeCamera c) (controlsBag_scaleRot c).

Definition set_scaleRot (s : Q) (c : Control) : Control :=
  mkControl (active c) (inertia c) (qRot c) s (distDiff c) (stepsCount c)
    (stepsForward c) (stepIndex c) (_deactivate c) (_keyLock c) (planet c)
    (activeCamera c) (controlsBag_scaleRot c).

Definition set_steps (steps : list Step) (index : Z) (c : Control) : Control :=
  mkControl (active c) (inertia c) (qRot c) (scaleRot c) (distDiff c) (stepsCount c)
    steps index (_deactivate c) (_keyLock c) (planet c)
    (activeCamera c) (controlsBag_scaleRot c).

Definition set_deactivate (b : bool) (c : Control) : Control :=
  mkControl (active c) (inertia c) (qRot c) (scaleRot c) (distDiff c) (stepsCount c)
    (stepsForward c) (stepIndex c) b (_keyLock c) (planet c)
    (activeCamera c) (controlsBag_scaleRot c).

Definition set_planet (f : Planet -> Planet) (c : Control) : Control :=
  mkControl (active c) (inertia c) (qRot c) (scaleRot c) (distDiff c) (stepsCount c)
    (stepsForward c) (stepIndex c) (_deactivate c) (_keyLock c) (f (planet c))
    (activeCamera c) (controlsBag_scaleRot c).

Definition set_activeCamera (cam : Camera) (c : Control) : Control :=
  mkControl (active c) (inertia c) (qRot c) (scaleRot c) (distDiff c) (stepsCount c)
    (stepsForward c) (stepIndex c) (_deactivate c) (_keyLock c) (planet c)
    cam (controlsBag_scaleRot c).

Definition set_controlsBag_scaleRot (s : Q) (c : Control) : Control :=
  mkControl (active c) (inertia c) (qRot c) (scaleRot c) (distDiff c) (stepsCount c)
    (stepsForward c) (stepIndex c) (_deactivate c) (_keyLock c) (planet c)
    (activeCamera c) s.

(** The three [lock(this._keyLock)] calls, and the three [free] calls. *)
Definition lockPlanet (key : nat) (p : Planet) : Planet :=
  mkPlanet (lock key (layerLock p)) (set_terrainLock (lock key) (terrain p))
    (lock key (normalMapCreator p)).

Definition freePlanet (key : nat) (p : Planet) : Planet :=
  mkPlanet (free key (layerLock p)) (set_terrainLock (free key) (terrain p))
    (free key (normalMapCreator p)).

(** The first loop of the branch of the high camera: [eyeArr] and
    [rotArr], or [None] when the loop is left by [break]. *)
Fixpoint castSteps (count : nat) (eye scaled_n dir a : Vector3) (radius : Q)
    : option (list (Vector3 * Matrix4)) :=
  match count with
  | O => Some []
  | S count =>
      let eye := addA eye scaled_n in
      match hitSphere eye dir radius with
      | Some b =>
          match castSteps count eye scaled_n dir a radius with
          | Some arr => Some ((eye, rotateBetweenVectors (normal a) (normal b)) :: arr)
          | None => None
          end
      | None => None
      end
  end.

(** The loops that move the eye by the same vector at every step. *)
Fixpoint straightSteps (count : nat) (eye move v u n : Vector3) : list Step :=
  match count with
  | O => []
  | S count =>
      let eye := addA eye move in
      mkStep eye v u n :: straightSteps count eye move v u n
  end.

(** [getMovePointsFromPixelTerrain]; [planet] is the scene.  With neither
    a direction nor a point of the terrain under the pixel,
    [og.math.Vector3.sub] is called on [undefined]: the result is [None].
    A loop [for (i = 0; i < stepsCount; i++)] runs [Z.to_nat stepsCount]
    times. *)
Definition getMovePointsFromPixelTerrain (cam : Camera) (stepsCount : Z) (delta : Q)
    (point : Pixel) (forward : bool) (dir : option Vector3) : option (list Step) :=
  let eye := eye cam in
  let n := _n cam in
  let u := _u cam in
  let v := _v cam in
  let a := getCartesianFromPixelTerrain cam point in
  let dir :=
    match dir with
    | Some dir => Some dir
    | None => match a with
              | Some a => Some (normalize (sub a eye))
              | None => None
              end
    end in
  match dir with
  | None => None
  | Some dir =>
      let d := match a with
               | Some a => (JS.Fin delta * JS.Fin (distance eye a)
                            / JS.Fin (inject_Z stepsCount))%js
               | None => JS.Fin 1000
               end in
      let d := if forward then JS.neg d else (d * JS.Fin 2)%js in
      let scaled_n := scaleTo n d in
      let count := Z.to_nat stepsCount in
      match a with
      | Some a =>
          if JS.ltb 9000 (height cam) && JS.ltb (6 # 10) (dot n (normal eye)) then
            match castSteps count eye scaled_n dir a (length3 a) with
            | Some arr =>
                Some (map (fun er : Vector3 * Matrix4 =>
                             mkStep (mulVec3 (snd er) (fst er)) (mulVec3 (snd er) v)
                               (mulVec3 (snd er) u) (mulVec3 (snd er) n)) arr)
            | None => Some (straightSteps count eye scaled_n v u n)
            end
          else Some (straightSteps count eye (scaleTo dir (JS.neg d)) v u n)
      | None => Some (straightSteps count eye (scaleTo dir (JS.neg d)) v u n)
      end
  end.

(** [stopRotation]. *)
Definition stopRotation (c : Control) : Control :=
  set_planet (freePlanet (_keyLock c)) (set_qRot (clear (qRot c)) c).

(** [onMouseWheel]; [ms] and [direction] are [mouseState] and its
    [direction].  [planet.stopFlying()] acts on the flight of the camera,
    which is not part of this state.  [None] is the exception of
    [getMovePointsFromPixelTerrain]. *)
Definition onMouseWheel (wheelDelta : Q) (ms : Pixel) (direction : option Vector3)
    (c : Control) : option Control :=
  if negb (stepIndex c =? 0)%Z then Some c
  else
    let c := stopRotation c in
    let c := set_deactivate true c in
    let c := set_planet (lockPlanet (_keyLock c)) c in
    match getMovePointsFromPixelTerrain (activeCamera c) (stepsCount c) (distDiff c) ms
            (JS.ltb 0 wheelDelta) direction with
    | Some steps => Some (set_steps steps (stepsCount c) c)
    | None => None
    end.

(** [a > q] for a JavaScript number [a]. *)
Definition gtb (a : JS.num) (q : Q) : bool :=
  match a with
  | JS.Fin x => JS.ltb q x
  | JS.PInf => true
  | _ => false
  end.

(** [this.stepsForward[index]]: [undefined] outside the array. *)
Definition stepAt (steps : list Step) (index : Z) : option Step :=
  if (index <? 0)%Z then None else steps !! Z.to_nat index.

(** [onDraw]; [leftButtonDown] is [renderer.events.mouseState.leftButtonDown].
    [None] is the exception of reading [sf.eye] for an [undefined] step. *)
Definition onDraw (leftButtonDown : bool) (c : Control) : option Control :=
  if active c then
    let prevEye := eye (activeCamera c) in
    let stepped :=
      if negb (stepIndex c =? 0)%Z then
        let c := set_controlsBag_scaleRot 1 c in
        let sf := stepAt (stepsForward c) (stepsCount c - stepIndex c) in
        let c := set_steps (stepsForward c) (stepIndex c - 1) c in
        match sf with
        | Some sf => Some (set_activeCamera (update (set_pose sf (activeCamera c))) c)
        | None => None
        end
      else if _deactivate c then
        Some (set_planet (freePlanet (_keyLock c)) (set_deactivate false c))
      else Some c in
    match stepped with
    | None => None
    | Some c =>
        if leftButtonDown || JS.is0 (scaleRot c) then Some c
        else
          let c := set_scaleRot (scaleRot c - inertia c) c in
          let c :=
            if Qle_bool (scaleRot c) 0 then set_scaleRot 0 c
            else
              let c := set_controlsBag_scaleRot (scaleRot c) c in
              let rot := slerpToIdentity (qRot c)
                           (1 - scaleRot c * scaleRot c * scaleRot c) in
              let c := if vanishes rot then set_scaleRot 0 c else c in
              set_activeCamera (update (rotateCamera rot (activeCamera c))) c in
          let cam := activeCamera c in
          if gtb (JS.Fin (distance (eye cam) prevEye) / JS.Fin (_terrainAltitude cam))%js
               (1 # 100)
          then Some (set_planet (lockPlanet (_keyLock c)) c)
          else Some (set_planet (freePlanet (_keyLock c)) c)
    end
  else Some c.

(** [frames] draw events in a row; [leftButtonDown] of each frame is given
    by [buttons]. *)
Fixpoint draws (buttons : list bool) (c : Control) : option Control :=
  match buttons with
  | [] => Some c
  | b :: buttons =>
      match onDraw b c with
      | Some c => draws buttons c
      | None => None
      end
  end.

End Control.

End MouseNavigation.

(** * renderer/RendererEvents.ts: the pointer handlers

    The handlers of the mouse and touch events, and the per-frame
    [handleMouseEvents], [handleTouchEvents] and [handleEvents].  The
    fields that the source repeats for the three buttons are grouped by
    button: [leftButtonDown] is [buttonDown (leftButton ms)],
    [_lClkBegins] is [_ClkBegins (leftTiming e)], and so on.  The [sys] and
    [direction] fields, which only store the system event and the
    unprojected direction of the camera, and the keyboard handler are left
    out. *)
Module Pointer.

Inductive MouseButton : Type := MB_LEFT | MB_RIGHT | MB_MIDDLE.

#[global] Instance MouseButton_eq_dec : EqDecision MouseButton.
Proof. solve_decision. Defined.

(** The events of [RENDERER_EVENTS] that these handlers dispatch. *)
Inductive Name : Type :=
  | mouseenter | mouseleave | mousemove | mousestop
  | lclick | rclick | mclick | ldblclick | rdblclick | mdblclick
  | lup | rup | mup | ldown | rdown | mdown | lhold | rhold | mhold
  | mousewheel
  | touchstart | touchend | touchcancel | touchmove | doubletouch
  | touchleave | touchenter.

#[global] Instance Name_eq_dec : EqDecision Name.
Proof. solve_decision. Defined.

(** A dispatch: to the events handler of the picked object [Some id], or
    to the handlers registered on the instance itself, [None]. *)
Abbreviation Dispatch := (Name * option nat)%type (only parsing).

(** [IBaseInputState]. *)
Record BaseInputState : Type := mkBaseInputState {
  clientX : Q;
  clientY : Q;
  x : Q;
  y : Q;
  nx : JS.num;
  ny : JS.num;
  prev_x : Q;
  prev_y : Q;
  pickingObject : option RendererEvents.PickingObject;
  moving : bool
}.

(** The five flags that [IMouseState] has for each button. *)
Record ButtonFlags : Type := mkButtonFlags {
  buttonUp : bool;
  buttonDown : bool;
  buttonHold : bool;
  buttonDoubleClick : bool;
  buttonClick : bool
}.

Record MouseState : Type := mkMouseState {
  mouseBase : BaseInputState;
  leftButton : ButtonFlags;
  rightButton : ButtonFlags;
  middleButton : ButtonFlags;
  justStopped : bool;
  doubleClickDelay : Q;
  clickDelay : Q;
  wheelDelta : Q
}.

Record TouchState : Type := mkTouchState {
  touchBase : BaseInputState;
  touchEnd : bool;
  touchStart : bool;
  touchCancel : bool;
  doubleTouch : bool;
  doubleTouchDelay : Q;
  doubleTouchRadius : Q
}.

(** The four click fields that the instance has for each button. *)
Record ClickTiming : Type := mkClickTiming {
  _dblClkBegins : Q;
  _ClkBegins : Q;
  _clickX : Q;
  _clickY : Q
}.

(** The handler of the canvas: [renderer.handler.pixelRatio] and the size
    of [renderer.handler.canvas]. *)
Record Handler : Type := mkHandler {
  pixelRatio : Q;
  width : Q;
  height : Q
}.

(** An instance of [RendererEvents].  [_mousestopThread] tells whether the
    timer of the mouse stop is pending; [pickingFramebuffer x y] is the
    colour that [renderer.pickingFramebuffer.readPixels] reads at
    [(x, y)]. *)
Record Events : Type := mkEvents {
  renderer : RendererEvents.Renderer;
  pickingFramebuffer : JS.num -> JS.num -> Z * Z * Z;
  handler : Handler;
  _active : bool;
  clickRadius : Q;
  mouseState : MouseState;
  touchState : TouchState;
  _dblTchCoords : Q * Q;
  _oneTouchStart : bool;
  _dblTchBegins : Q;
  _mousestopThread : bool;
  leftTiming : ClickTiming;
  rightTiming : ClickTiming;
  middleTiming : ClickTiming
}.

(** The constructor. *)
Definition newBaseInputState : BaseInputState :=
  mkBaseInputState 0 0 0 0 (JS.Fin 0) (JS.Fin 0) 0 0 None false.

Definition newButtonFlags : ButtonFlags := mkButtonFlags false false false false false.

Definition newEvents (r : RendererEvents.Renderer) (fb : JS.num -> JS.num -> Z * Z * Z)
    (h : Handler) : Events :=
  mkEvents r fb h true 15
    (mkMouseState newBaseInputState newButtonFlags newButtonFlags newButtonFlags
       false 500 200 0)
    (mkTouchState newBaseInputState false false false false 550 10)
    (0, 0) false 0 false
    (mkClickTiming 0 0 0 0) (mkClickTiming 0 0 0 0) (mkClickTiming 0 0 0 0).

(** ** Field updates *)

Definition set_position (cx cy px py : Q) (pnx pny : JS.num) (b : BaseInputState)
    : BaseInputState :=
  mkBaseInputState cx cy px py pnx pny (prev_x b) (prev_y b) (pickingObject b) (moving b).

Definition set_prev (px py : Q) (b : BaseInputState) : BaseInputState :=
  mkBaseInputState (clientX b) (clientY b) (x b) (y b) (nx b) (ny b) px py
    (pickingObject b) (moving b).

Definition set_xy (px py : Q) (b : BaseInputState) : BaseInputState :=
  mkBaseInputState (clientX b) (clientY b) px py (nx b) (ny b) (prev_x b) (prev_y b)
    (pickingObject b) (moving b).

Definition set_pickingObject (o : option RendererEvents.PickingObject)
    (b : BaseInputState) : BaseInputState :=
  mkBaseInputState (clientX b) (clientY b) (x b) (y b) (nx b) (ny b) (prev_x b)
    (prev_y b) o (moving b).

Definition set_moving (v : bool) (b : BaseInputState) : BaseInputState :=
  mkBaseInputState (clientX b) (clientY b) (x b) (y b) (nx b) (ny b) (prev_x b)
    (prev_y b) (pickingObject b) v.

Definition set_buttonUp (v : bool) (f : ButtonFlags) : ButtonFlags :=
  mkButtonFlags v (buttonDown f) (buttonHold f) (buttonDoubleClick f) (buttonClick f).

Definition set_buttonDown (v : bool) (f : ButtonFlags) : ButtonFlags :=
  mkButtonFlags (buttonUp f) v (buttonHold f) (buttonDoubleClick f) (buttonClick f).

Definition set_buttonHold (v : bool) (f : ButtonFlags) : ButtonFlags :=
  mkButtonFlags (buttonUp f) (buttonDown f) v (buttonDoubleClick f) (buttonClick f).

Definition set_buttonDoubleClick (v : bool) (f : ButtonFlags) : ButtonFlags :=
  mkButtonFlags (buttonUp f) (buttonDown f) (buttonHold f) v (buttonClick f).

Definition set_buttonClick (v : bool) (f : ButtonFlags) : ButtonFlags :=
  mkButtonFlags (buttonUp f) (buttonDown f) (buttonHold f) (buttonDoubleClick f) v.

(** The flags of a button, and their update. *)
Definition button (b : MouseButton) (ms : MouseState) : ButtonFlags :=
  match b with
  | MB_LEFT => leftButton ms
  | MB_RIGHT => rightButton ms
  | MB_MIDDLE => middleButton ms
  end.

Definition set_button (b : MouseButton) (f : ButtonFlags -> ButtonFlags)
    (ms : MouseState) : MouseState :=
  match b with
  | MB_LEFT =>
      mkMouseState (mouseBase ms) (f (leftButton ms)) (rightButton ms) (middleButton ms)
        (justStopped ms) (doubleClickDelay ms) (clickDelay ms) (wheelDelta ms)
  | MB_RIGHT =>
      mkMouseState (mouseBase ms) (leftButton ms) (f (rightButton ms)) (middleButton ms)
        (justStopped ms) (doubleClickDelay ms) (clickDelay ms) (wheelDelta ms)
  | MB_MIDDLE =>
      mkMouseState (mouseBase ms) (leftButton ms) (rightButton ms) (f (middleButton ms))
        (justStopped ms) (doubleClickDelay ms) (clickDelay ms) (wheelDelta ms)
  end.

Definition set_mouseBase (f : BaseInputState -> BaseInputState) (ms : MouseState)
    : MouseState :=
  mkMouseState (f (mouseBase ms)) (leftButton ms) (rightButton ms) (middleButton ms)
    (justStopped ms) (doubleClickDelay ms) (clickDelay ms) (wheelDelta ms).

Definition set_justStopped (v : bool) (ms : MouseState) : MouseState :=
  mkMouseState (mouseBase ms) (leftButton ms) (rightButton ms) (middleButton ms)
    v (doubleClickDelay ms) (clickDelay ms) (wheelDelta ms).

Definition set_wheelDelta (v : Q) (ms : MouseState) : MouseState :=
  mkMouseState (mouseBase ms) (leftButton ms) (rightButton ms) (middleButton ms)
    (justStopped ms) (doubleClickDelay ms) (clickDelay ms) v.

Definition set_touchBase (f : BaseInputState -> BaseInputState) (ts : TouchState)
    : TouchState :=
  mkTouchState (f (touchBase ts)) (touchEnd ts) (touchStart ts) (touchCancel ts)
    (doubleTouch ts) (doubleTouchDelay ts) (doubleTouchRadius ts).

Definition set_touchEnd (v : bool) (ts : TouchState) : TouchState :=
  mkTouchState (touchBase ts) v (touchStart ts) (touchCancel ts)
    (doubleTouch ts) (doubleTouchDelay ts) (doubleTouchRadius ts).

Definition set_touchStart (v : bool) (ts : TouchState) : TouchState :=
  mkTouchState (touchBase ts) (touchEnd ts) v (touchCancel ts)
    (doubleTouch ts) (doubleTouchDelay ts) (doubleTouchRadius ts).

Definition set_touchCancel (v : bool) (ts : TouchState) : TouchState :=
  mkTouchState (touchBase ts) (touchEnd ts) (touchStart ts) v
    (doubleTouch ts) (doubleTouchDelay ts) (doubleTouchRadius ts).

Definition set_doubleTouch (v : bool) (ts : TouchState) : TouchState :=
  mkTouchState (touchBase ts) (touchEnd ts) (touchStart ts) (touchCancel ts)
    v (doubleTouchDelay ts) (doubleTouchRadius ts).

Definition set_mouseState (f : MouseState -> MouseState) (e : Events) : Events :=
  mkEvents (renderer e) (pickingFramebuffer e) (handler e) (_active e) (clickRadius e)
    (f (mouseState e)) (touchState e) (_dblTchCoords e) (_oneTouchStart e)
    (_dblTchBegins e) (_mousestopThread e) (leftTiming e) (rightTiming e) (middleTiming e).

Definition set_touchState (f : TouchState -> TouchState) (e : Events) : Events :=
  mkEvents (renderer e) (pickingFramebuffer e) (handler e) (_active e) (clickRadius e)
    (mouseState e) (f (touchState e)) (_dblTchCoords e) (_oneTouchStart e)
    (_dblTchBegins e) (_mousestopThread e) (leftTiming e) (rightTiming e) (middleTiming e).

Definition set_doubleTouchTracking (coords : Q * Q) (one : bool) (begins : Q) (e : Events)
    : Events :=
  mkEvents (renderer e) (pickingFramebuffer e) (handler e) (_active e) (clickRadius e)
    (mouseState e) (touchState e) coords one begins
    (_mousestopThread e) (leftTiming e) (rightTiming e) (middleTiming e).

Definition set_mousestopThread (v : bool) (e : Events) : Events :=
  mkEvents (renderer e) (pickingFramebuffer e) (handler e) (_active e) (clickRadius e)
    (mouseState e) (touchState e) (_dblTchCoords e) (_oneTouchStart e)
    (_dblTchBegins e) v (leftTiming e) (rightTiming e) (middleTiming e).

Definition timing (b : MouseButton) (e : Events) : ClickTiming :=
  match b with
  | MB_LEFT => leftTiming e
  | MB_RIGHT => rightTiming e
  | MB_MIDDLE => middleTiming e
  end.

Definition set_timing (b : MouseButton) (f : ClickTiming -> ClickTiming) (e : Events)
    : Events :=
  match b with
  | MB_LEFT =>
      mkEvents (renderer e) (pickingFramebuffer e) (handler e) (_active e) (clickRadius e)
        (mouseState e) (touchState e) (_dblTchCoords e) (_oneTouchStart e)
        (_dblTchBegins e) (_mousestopThread e)
        (f (leftTiming e)) (rightTiming e) (middleTiming e)
  | MB_RIGHT =>
      mkEvents (renderer e) (pickingFramebuffer e) (handler e) (_active e) (clickRadius e)
        (mouseState e) (touchState e) (_dblTchCoords e) (_oneTouchStart e)
        (_dblTchBegins e) (_mousestopThread e)
        (leftTiming e) (f (rightTiming e)) (middleTiming e)
  | MB_MIDDLE =>
      mkEvents (renderer e) (pickingFramebuffer e) (handler e) (_active e) (clickRadius e)
        (mouseState e) (touchState e) (_dblTchCoords e) (_oneTouchStart e)
        (_dblTchBegins e) (_mousestopThread e)
        (leftTiming e) (rightTiming e) (f (middleTiming e))
  end.

Definition set_ClkBegins (v : Q) (c : ClickTiming) : ClickTiming :=
  mkClickTiming (_dblClkBegins c) v (_clickX c) (_clickY c).

Definition set_dblClkBegins (v : Q) (c : ClickTiming) : ClickTiming :=
  mkClickTiming v (_ClkBegins c) (_clickX c) (_clickY c).

(** ** The handlers of the system events *)

(** [onMouseWheel]: [event.wheelDelta || 0]. *)
Definition onMouseWheel (delta : Q) (e : Events) : Events :=
  set_mouseState (set_wheelDelta delta) e.

(** The masks [LB_M], [RB_M] and [MB_M] of [MouseEvent.buttons]. *)
Definition mask (b : MouseButton) : Z :=
  match b with
  | MB_LEFT => 1
  | MB_RIGHT => 2
  | MB_MIDDLE => 4
  end.

(** One of the three statements of [updateButtonsStates]. *)
Definition updateButtonState (buttons : Z) (b : MouseButton) (ms : MouseState) : MouseState :=
  if negb (Z.land buttons (mask b) =? 0)%Z && buttonDown (button b ms)
  then set_button b (set_buttonDown true) ms
  else set_button b (fun f => set_buttonDown false (set_buttonHold false f)) ms.

Definition updateButtonsStates (buttons : Z) (ms : MouseState) : MouseState :=
  let ms := updateButtonState buttons MB_LEFT ms in
  let ms := updateButtonState buttons MB_RIGHT ms in
  updateButtonState buttons MB_MIDDLE ms.

(** One of the three tests of [onMouseMove] on the place of the last
    press. *)
Definition forgetClick (ex ey : Q) (b : MouseButton) (e : Events) : Events :=
  if Qle_bool (clickRadius e) (Qabs (_clickX (timing b e) - ex))
     && Qle_bool (clickRadius e) (Qabs (_clickY (timing b e) - ey))
  then set_timing b (fun c => set_ClkBegins 0 (set_dblClkBegins 0 c)) e
  else e.

(** [onMouseMove]; [buttons] is [sys.buttons].  The timer of the mouse
    stop is started again. *)
Definition onMouseMove (ex ey : Q) (buttons : Z) (e : Events) : Events :=
  let e := set_mouseState (updateButtonsStates buttons) e in
  let e := forgetClick ex ey MB_LEFT e in
  let e := forgetClick ex ey MB_RIGHT e in
  let e := forgetClick ex ey MB_MIDDLE e in
  let ms := mouseBase (mouseState e) in
  if Qeq_bool (clientX ms) ex && Qeq_bool (clientY ms) ey then e
  else
    let h := handler e in
    let px := ex * pixelRatio h in
    let py := ey * pixelRatio h in
    let e := set_mouseState
               (set_mouseBase (fun b =>
                  set_moving true
                    (set_position ex ey px py
                       (JS.Fin px / JS.Fin (width h))%js
                       (JS.Fin py / JS.Fin (height h))%js b))) e in
    set_mousestopThread true e.

(** The function given to [setTimeout] by [onMouseMove], run when the
    timer ends. *)
Definition mouseStopTimeout (e : Events) : Events :=
  if _mousestopThread e
  then set_mousestopThread false (set_mouseState (set_justStopped true) e)
  else e.

(** [onMouseLeave] and [onMouseEnter] dispatch on the instance. *)
Definition onMouseLeave (e : Events) : Events * list Dispatch := (e, [(mouseleave, None)]).
Definition onMouseEnter (e : Events) : Events * list Dispatch := (e, [(mouseenter, None)]).

(** [onMouseDown]; [eventButton] is [None] for a button that is none of
    the three, and [now] is the value of [window.performance.now()]. *)
Definition onMouseDown (eventButton : option MouseButton) (ex ey now : Q) (e : Events)
    : Events :=
  match eventButton with
  | Some b =>
      let e := set_timing b (fun _ => mkClickTiming (_dblClkBegins (timing b e)) now ex ey) e in
      set_mouseState (set_button b (set_buttonDown true)) e
  | None => e
  end.

(** [onMouseUp]; [t] is the first reading of the clock and [now] the
    second one, taken in either branch of the test of [_ldblClkBegins]. *)
Definition onMouseUp (eventButton : option MouseButton) (ex ey t now : Q) (e : Events)
    : Events :=
  match eventButton with
  | Some b =>
      let e := set_mouseState
                 (set_button b (fun f => set_buttonUp true (set_buttonDown false f))) e in
      if negb (Qle_bool (clickRadius e) (Qabs (_clickX (timing b e) - ex)))
         && negb (Qle_bool (clickRadius e) (Qabs (_clickY (timing b e) - ey)))
         && Qle_bool (t - _ClkBegins (timing b e)) (clickDelay (mouseState e))
      then
        let e :=
          if RendererEvents.truthy (_dblClkBegins (timing b e)) then
            let deltatime := now - _dblClkBegins (timing b e) in
            let e :=
              if Qle_bool deltatime (doubleClickDelay (mouseState e))
              then set_mouseState (set_button b (set_buttonDoubleClick true)) e
              else e in
            set_timing b (set_dblClkBegins 0) e
          else set_timing b (set_dblClkBegins now) e in
        let e := set_mouseState (set_button b (set_buttonClick true)) e in
        set_timing b (set_ClkBegins 0) e
      else e
  | None => e
  end.

(** The position of a touch, as [onTouchStart] and [onTouchMove] compute
    it from [event.touches.item(0)] and the offsets of the event. *)
Definition touchPosition (tx ty offsetLeft offsetTop : Q) (h : Handler) (b : BaseInputState)
    : BaseInputState :=
  let cx := tx - offsetLeft in
  let cy := ty - offsetTop in
  let px := cx * pixelRatio h in
  let py := cy * pixelRatio h in
  set_position cx cy px py (JS.Fin px / JS.Fin (width h))%js
    (JS.Fin py / JS.Fin (height h))%js b.

(** [onTouchStart]; [touches] is [event.touches.length], at least one. *)
Definition onTouchStart (tx ty offsetLeft offsetTop : Q) (touches : nat) (e : Events)
    : Events :=
  let e := set_touchState
             (set_touchBase (fun b =>
                let b := touchPosition tx ty offsetLeft offsetTop (handler e) b in
                set_prev (x b) (y b) b)) e in
  let e := set_touchState (set_touchStart true) e in
  let ts := touchBase (touchState e) in
  if (touches =? 1)%nat
  then set_doubleTouchTracking (x ts, y ts) true (_dblTchBegins e) e
  else set_doubleTouchTracking (_dblTchCoords e) false (_dblTchBegins e) e.

(** [onTouchEnd]; [now] and [now'] are the two readings of
    [window.performance.now()]. *)
Definition onTouchEnd (touches : nat) (now now' : Q) (e : Events) : Events :=
  let e := set_touchState (set_touchEnd true) e in
  if (touches =? 0)%nat then
    let e := set_touchState
               (set_touchBase (fun b => set_prev (x b) (y b) b)) e in
    if _oneTouchStart e then
      let e :=
        if RendererEvents.truthy (_dblTchBegins e) then
          let deltatime := now - _dblTchBegins e in
          let e :=
            if Qle_bool deltatime (doubleTouchDelay (touchState e))
            then set_touchState (set_doubleTouch true) e
            else e in
          set_doubleTouchTracking (_dblTchCoords e) (_oneTouchStart e) 0 e
        else e in
      set_doubleTouchTracking (_dblTchCoords e) false now' e
    else e
  else e.

(** [onTouchCancel]. *)
Definition onTouchCancel (e : Events) : Events :=
  set_touchState (set_touchCancel true) e.

(** [onTouchMove]. *)
Definition onTouchMove (tx ty offsetLeft offsetTop : Q) (e : Events) : Events :=
  let e := set_touchState
             (set_touchBase (fun b =>
                set_moving true (touchPosition tx ty offsetLeft offsetTop (handler e) b))) e in
  let ts := touchBase (touchState e) in
  let dX := x ts - prev_x ts in
  let dY := y ts - prev_y ts in
  if JS.ltb 9 (Qabs dX) || JS.ltb 9 (Qabs dY)
  then set_doubleTouchTracking (_dblTchCoords e) false 0 e
  else e.

(** ** The handlers of a frame *)

(** [if (po) { pe = po.rendererEvents; pe && pe.dispatch(pe.name, ms); }]
    followed by [this.dispatch(_this.name, ms)]. *)
Definition toObject (name : Name) (po : option RendererEvents.PickingObject)
    : list Dispatch :=
  match po with
  | Some o => if RendererEvents.rendererEvents o
              then [(name, Some (RendererEvents.objectId o))] else []
  | None => []
  end.

Definition fire (name : Name) (po : option RendererEvents.PickingObject) : list Dispatch :=
  toObject name po ++ [(name, None)].

(** A step of a frame handler: the state after it and what it
    dispatched. *)
Definition Step : Type := Events -> Events * list Dispatch.

Definition andThen (f g : Step) : Step :=
  fun e => let '(e, out) := f e in let '(e, out') := g e in (e, out ++ out').

Definition clickName (b : MouseButton) : Name :=
  match b with MB_LEFT => lclick | MB_RIGHT => rclick | MB_MIDDLE => mclick end.

Definition holdName (b : MouseButton) : Name :=
  match b with MB_LEFT => lhold | MB_RIGHT => rhold | MB_MIDDLE => mhold end.

Definition downName (b : MouseButton) : Name :=
  match b with MB_LEFT => ldown | MB_RIGHT => rdown | MB_MIDDLE => mdown end.

Definition upName (b : MouseButton) : Name :=
  match b with MB_LEFT => lup | MB_RIGHT => rup | MB_MIDDLE => mup end.

Definition dblclickName (b : MouseButton) : Name :=
  match b with MB_LEFT => ldblclick | MB_RIGHT => rdblclick | MB_MIDDLE => mdblclick end.

(** The statements of [handleMouseEvents]; [po] is the picking object
    read at its start. *)
Definition handleClick (po : option RendererEvents.PickingObject) (b : MouseButton) : Step :=
  fun e =>
    if buttonClick (button b (mouseState e))
    then (set_mouseState (set_button b (set_buttonClick false)) e, fire (clickName b) po)
    else (e, []).

Definition handleDown (po : option RendererEvents.PickingObject) (b : MouseButton) : Step :=
  fun e =>
    if buttonDown (button b (mouseState e)) then
      if buttonHold (button b (mouseState e))
      then (e, fire (holdName b) po)
      else (set_mouseState (set_button b (set_buttonHold true)) e, fire (downName b) po)
    else (e, []).

Definition handleUp (po : option RendererEvents.PickingObject) (b : MouseButton) : Step :=
  fun e =>
    if buttonUp (button b (mouseState e))
    then (set_mouseState
            (set_button b (fun f => set_buttonHold false (set_buttonUp false f))) e,
          fire (upName b) po)
    else (e, []).

Definition handleDoubleClick (po : option RendererEvents.PickingObject) (b : MouseButton)
    : Step :=
  fun e =>
    if buttonDoubleClick (button b (mouseState e))
    then (set_mouseState (set_button b (set_buttonDoubleClick false)) e,
          fire (dblclickName b) po)
    else (e, []).

Definition handleWheel (po : option RendererEvents.PickingObject) : Step :=
  fun e =>
    if RendererEvents.truthy (wheelDelta (mouseState e))
    then (e, fire mousewheel po) else (e, []).

Definition handleMove (po : option RendererEvents.PickingObject) : Step :=
  fun e =>
    if moving (mouseBase (mouseState e))
    then (set_mouseState (set_mouseBase (fun b => set_prev (x b) (y b) b)) e,
          fire mousemove po)
    else (e, []).

Definition handleStop : Step :=
  fun e => if justStopped (mouseState e) then (e, [(mousestop, None)]) else (e, []).

Definition steps (l : list Step) : Step :=
  fold_right andThen (fun e => (e, [])) l.

(** [handleMouseEvents]. *)
Definition handleMouseEvents : Step :=
  fun e =>
    let po := pickingObject (mouseBase (mouseState e)) in
    steps [handleClick po MB_LEFT; handleClick po MB_RIGHT; handleClick po MB_MIDDLE;
           handleDown po MB_LEFT; handleDown po MB_RIGHT; handleDown po MB_MIDDLE;
           handleUp po MB_LEFT; handleUp po MB_RIGHT; handleUp po MB_MIDDLE;
           handleDoubleClick po MB_LEFT; handleDoubleClick po MB_RIGHT;
           handleDoubleClick po MB_MIDDLE;
           handleWheel po; handleMove po; handleStop] e.

(** [handleTouchEvents]: the instance and the module variables after the
    call, and what it dispatched.  The touch start reads the picking
    frame buffer into [_currPickingColor]. *)
Definition handleTouchEvents (e : Events) (g : RendererEvents.ModuleState)
    : Events * RendererEvents.ModuleState * list Dispatch :=
  let tpo := pickingObject (touchBase (touchState e)) in
  let '(e, out) :=
    if touchCancel (touchState e)
    then (set_touchState (set_touchCancel false) e, [(touchcancel, @None nat)])
    else (e, []) in
  let '(e, g, tpo, out) :=
    if touchStart (touchState e) then
      let ts := touchBase (touchState e) in
      let c := pickingFramebuffer e (nx ts) (JS.Fin 1 - ny ts)%js in
      let g := RendererEvents.mkModuleState (RendererEvents.__skipFrames__ g) c
                 (RendererEvents._tempCurrPickingColor g)
                 (RendererEvents._prevPickingColor g) in
      let co := RendererEvents.getPickingObjectArr (renderer e) c in
      let e := set_touchState (set_touchBase (set_pickingObject co)) e in
      (set_touchState (set_touchStart false) e, g, co, out ++ fire touchstart co)
    else (e, g, tpo, out) in
  let '(e, out) :=
    if doubleTouch (touchState e)
    then (set_touchState (set_doubleTouch false) e, out ++ fire doubletouch tpo)
    else (e, out) in
  let '(e, out) :=
    if touchEnd (touchState e)
    then (set_touchState (fun ts => set_touchEnd false (set_touchBase (set_xy 0 0) ts)) e,
          out ++ fire touchend tpo)
    else (e, out) in
  let '(e, out) :=
    if moving (touchBase (touchState e))
    then (set_touchState (set_touchBase (fun b => set_prev (x b) (y b) b)) e,
          out ++ fire touchmove tpo)
    else (e, out) in
  (e, g, out).

(** The state that [RendererEvents.entityPickingEvents] works on.  The
    renderer of the picking model reads the picking colour at finite
    coordinates: there is no such state, [None], when a normalised
    coordinate is not finite. *)
Definition toInputState (b : BaseInputState) : option RendererEvents.InputState :=
  match nx b, ny b with
  | JS.Fin qx, JS.Fin qy =>
      Some (RendererEvents.mkInputState (x b) (y b) qx qy (pickingObject b))
  | _, _ => None
  end.

Definition toInstance (e : Events) : option RendererEvents.Instance :=
  match toInputState (touchBase (touchState e)), toInputState (mouseBase (mouseState e)) with
  | Some ts, Some ms =>
      Some (RendererEvents.mkInstance (renderer e) ts ms
              (buttonHold (leftButton (mouseState e)))
              (buttonHold (rightButton (mouseState e)))
              (buttonHold (middleButton (mouseState e))))
  | _, _ => None
  end.

Definition ofPicking (d : RendererEvents.EventName * nat) : Dispatch :=
  (match fst d with
   | RendererEvents.mouseleave => mouseleave
   | RendererEvents.touchleave => touchleave
   | RendererEvents.mouseenter => mouseenter
   | RendererEvents.touchenter => touchenter
   end, Some (snd d)).

(** [entityPickingEvents] on the state of this module: with a button held
    nothing is read; otherwise the picking objects that
    [RendererEvents.entityPickingEvents] stores are written back. *)
Definition entityPickingEvents (e : Events) (g : RendererEvents.ModuleState)
    : option (Events * RendererEvents.ModuleState * list Dispatch) :=
  let ms := mouseState e in
  if negb (buttonHold (leftButton ms) || buttonHold (rightButton ms)
           || buttonHold (middleButton ms)) then
    match toInstance e with
    | Some this =>
        let '(this, g, out) := RendererEvents.entityPickingEvents this g in
        let e := set_mouseState
                   (set_mouseBase
                      (set_pickingObject
                         (RendererEvents.pickingObject (RendererEvents.mouseState this)))) e in
        let e := set_touchState
                   (set_touchBase
                      (set_pickingObject
                         (RendererEvents.pickingObject (RendererEvents.touchState this)))) e in
        Some (e, g, map ofPicking out)
    | None => None
    end
  else Some (e, g, []).

(** [handleEvents], the handlers of a frame in their order. *)
Definition handleEvents (e : Events) (g : RendererEvents.ModuleState)
    : option (Events * RendererEvents.ModuleState * list Dispatch) :=
  if _active e then
    let '(e, out1) := handleMouseEvents e in
    let '(e, g, out2) := handleTouchEvents e g in
    match entityPickingEvents e g with
    | Some (e, g, out3) => Some (e, g, out1 ++ out2 ++ out3)
    | None => None
    end
  else Some (e, g, []).

(** ** Runs of events *)

(** Nothing is left for a frame to dispatch. *)
Definition quietButton (f : ButtonFlags) : bool :=
  negb (buttonUp f || buttonDown f || buttonHold f || buttonDoubleClick f || buttonClick f).

Definition quietMouse (ms : MouseState) : bool :=
  quietButton (leftButton ms) && quietButton (rightButton ms)
  && quietButton (middleButton ms) && negb (justStopped ms)
  && negb (RendererEvents.truthy (wheelDelta ms)) && negb (moving (mouseBase ms)).

Definition quietTouch (ts : TouchState) : bool :=
  negb (touchEnd ts || touchStart ts || touchCancel ts || doubleTouch ts
        || moving (touchBase ts)).

(** A press and a release of a button at one place: the press at
    [pressed], the two clock readings of the release at [t] and [now]. *)
Definition click (b : MouseButton) (ex ey : Q) (times : Q * Q * Q) (e : Events) : Events :=
  let '(pressed, t, now) := times in
  onMouseUp (Some b) ex ey t now (onMouseDown (Some b) ex ey pressed e).

(** Clicks, each followed by the [handleMouseEvents] of the next frame:
    what each frame dispatches. *)
Fixpoint clickFrames (b : MouseButton) (ex ey : Q) (l : list (Q * Q * Q)) (e : Events)
    : Events * list (list Dispatch) :=
  match l with
  | [] => (e, [])
  | times :: l =>
      let '(e, out) := handleMouseEvents (click b ex ey times e) in
      let '(e, outs) := clickFrames b ex ey l e in
      (e, out :: outs)
  end.

(** The times of a run of clicks: each release at most [clickDelay] after
    its press, and at most [doubleClickDelay] after the release before,
    [prev], when there is one. *)
Fixpoint quickClicks (clickDelay doubleClickDelay : Q) (prev : option Q)
    (l : list (Q * Q * Q)) : Prop :=
  match l with
  | [] => True
  | (pressed, t, now) :: l =>
      t - pressed <= clickDelay /\ ~ now == 0 /\
      match prev with Some q => now - q <= doubleClickDelay | None => True end /\
      quickClicks clickDelay doubleClickDelay (Some now) l
  end.

(** A touch of one finger and its end, with the two clock readings. *)
Definition tap (tx ty offsetLeft offsetTop : Q) (times : Q * Q) (e : Events) : Events :=
  onTouchEnd 0 (fst times) (snd times) (onTouchStart tx ty offsetLeft offsetTop 1 e).

(** Taps at one place, each followed by the [handleTouchEvents] of the
    next frame. *)
Fixpoint tapFrames (tx ty offsetLeft offsetTop : Q) (l : list (Q * Q)) (e : Events)
    (g : RendererEvents.ModuleState)
    : Events * RendererEvents.ModuleState * list (list Dispatch) :=
  match l with
  | [] => (e, g, [])
  | times :: l =>
      let '(e, g, out) := handleTouchEvents (tap tx ty offsetLeft offsetTop times e) g in
      let '(e, g, outs) := tapFrames tx ty offsetLeft offsetTop l e g in
      (e, g, out :: outs)
  end.

(** What happens to a touch between its start and its end: a move event
    of the finger, or the [handleTouchEvents] of a frame. *)
Inductive TouchStep : Type :=
| TouchMoved (tx ty offsetLeft offsetTop : Q)
| TouchFrame.

Definition touchStep (s : TouchStep) (eg : Events * RendererEvents.ModuleState)
    : Events * RendererEvents.ModuleState :=
  match s with
  | TouchMoved tx ty offsetLeft offsetTop =>
      (onTouchMove tx ty offsetLeft offsetTop (fst eg), snd eg)
  | TouchFrame => fst (handleTouchEvents (fst eg) (snd eg))
  end.

Definition touchSteps (l : list TouchStep) (eg : Events * RendererEvents.ModuleState)
    : Events * RendererEvents.ModuleState :=
  fold_left (fun eg s => touchStep s eg) l eg.

(** The times of a run of taps: each end at most [doubleTouchDelay] after
    the end before, [prev], when there is one. *)
Fixpoint quickTaps (doubleTouchDelay : Q) (prev : option Q) (l : list (Q * Q)) : Prop :=
  match l with
  | [] => True
  | (now, now') :: l =>
      ~ now' == 0 /\
      match prev with Some q => now - q <= doubleTouchDelay | None => True end /\
      quickTaps doubleTouchDelay (Some now') l
  end.

(** [n] frames in a row: what each dispatches; [None] as for
    [handleEvents]. *)
Fixpoint frames (n : nat) (e : Events) (g : RendererEvents.ModuleState)
    : option (Events * RendererEvents.ModuleState * list (list Dispatch)) :=
  match n with
  | O => Some (e, g, [])
  | S n =>
      match handleEvents e g with
      | Some (e, g, out) =>
          match frames n e g with
          | Some (e, g, outs) => Some (e, g, out :: outs)
          | None => None
          end
      | None => None
      end
  end.

(** The frames of a run of clicks; [pend] tells whether a first click
    waits for its second. *)
Fixpoint doubles (pend : bool) (n : nat) : list bool :=
  match n with
  | O => []
  | S n => pend :: doubles (negb pend) n
  end.

(** The state with one button down, held or not, and nothing else to
    dispatch. *)
Definition pressedState (b : MouseButton) (hold : bool) (r : RendererEvents.Renderer)
    (fb : JS.num -> JS.num -> Z * Z * Z) (h : Handler) (cr : Q) (base : BaseInputState)
    (dd cd wd : Q) (ts : TouchState) (coords : Q * Q) (one : bool) (tb : Q)
    (thread : bool) (TL TR TM : ClickTiming) : Events :=
  mkEvents r fb h true cr
    (set_button b (fun _ => mkButtonFlags false true hold false false)
       (mkMouseState base newButtonFlags newButtonFlags newButtonFlags false dd cd wd))
    ts coords one tb thread TL TR TM.

End Pointer.

(** * Frames of picking *)

(** [entityPickingEvents] called in [n] frames in a row on an instance
    whose pointer does not move: what the calls dispatch, in order. *)
Fixpoint pickingFrames (n : nat) (this : RendererEvents.Instance)
    (g : RendererEvents.ModuleState)
    : RendererEvents.Instance * RendererEvents.ModuleState
      * list (RendererEvents.EventName * nat) :=
  match n with
  | O => (this, g, [])
  | S n =>
      let '(this, g, out) := RendererEvents.entityPickingEvents this g in
      let '(this, g, out') := pickingFrames n this g in
      (this, g, out ++ out')
  end.


(** * Sample values *)

Module Samples.

(** The provider of [EarthSample] with the "no elevation data" sentinel
    cached for the tile of the query point. *)
Definition sentinelWorld : World :=
  set_elevationCache
    (insert EarthSample.tile
       (mkTileData [] (@getTileExtent EarthSample.mercator 8510 5520 14)))
    EarthSample.world.

(** A grid of 2 x 2 samples for that tile. *)
Definition smallGrid : TileData :=
  mkTileData [1; 2; 3; 4] (@getTileExtent EarthSample.mercator 8510 5520 14).

(** A segment of the north cap, and the segments of a planet that has no
    other. *)
Definition polarSegment : Segment :=
  mkSegment (0, 0, 0)%Z 0 0 0 EPSG4326
    (mkExtent (mkLonLat (-180) EarthSample.maxLat) (mkLonLat 180 90))
    true RENDERING false false [].

Definition polarSegments : gmap nat Segment := {[ 0%nat := polarSegment ]}.

(** The value of [new Extent()]. *)
Definition emptyExtent : Extent := mkExtent (mkLonLat 0 0) (mkLonLat 0 0).

(** A point of the north cap. *)
Definition northPoint : LonLat := mkLonLat 0 86.

(** A stand-in for the geometry on the axis of view: a vector is its
    coordinate on the axis, a rotation the shift it applies. *)
Definition lineGeometry : MouseNavigation.Geometry := {|
  MouseNavigation.Vector3 := Q;
  MouseNavigation.Matrix4 := Q;
  MouseNavigation.Quaternion := Q;
  MouseNavigation.Pixel := Q;
  MouseNavigation.addA := Qplus;
  MouseNavigation.sub := Qminus;
  MouseNavigation.normalize := fun v => v;
  MouseNavigation.normal := fun v => v;
  MouseNavigation.scaleTo := fun _ d => match d with JS.Fin q => q | _ => 0 end;
  MouseNavigation.dot := Qmult;
  MouseNavigation.distance := fun a b => Qabs (a - b);
  MouseNavigation.length3 := Qabs;
  MouseNavigation.hitSphere := fun _ _ radius => Some radius;
  MouseNavigation.rotateBetweenVectors := fun a b => b - a;
  MouseNavigation.mulVec3 := fun m v => v + m;
  MouseNavigation.clear := fun _ => 0;
  MouseNavigation.slerpToIdentity := fun q t => q * (1 - t);
  MouseNavigation.vanishes := fun q => Qeq_bool q 0;
  MouseNavigation.qMulVec3 := fun q v => v + q
|}.

Definition lineScene : @MouseNavigation.Scene lineGeometry :=
  @MouseNavigation.Build_Scene lineGeometry (fun cam => cam) (fun _ (p : Q) => Some p).

Definition camera : @MouseNavigation.Camera lineGeometry :=
  @MouseNavigation.mkCamera lineGeometry 100 1 1 1 10000 50.

(** The control as its constructor leaves it, active, on the planet of
    [EarthSample], and the same control with a rotation that fades. *)
Definition control : @MouseNavigation.Control lineGeometry :=
  @MouseNavigation.mkControl lineGeometry true (7 # 1000) 0 0 (33 # 100) 5 [] 0 false 7
    (MouseNavigation.mkPlanet ∅ EarthSample.world ∅) camera 0.

Definition fadingControl : @MouseNavigation.Control lineGeometry :=
  @MouseNavigation.mkControl lineGeometry true (7 # 1000) 1 (14 # 1000) (33 # 100) 5 [] 0
    false 7 (MouseNavigation.mkPlanet ∅ EarthSample.world ∅) camera 0.

(** The control after a wheel event over the pixel [40]. *)
Definition wheeledControl : @MouseNavigation.Control lineGeometry :=
  match @MouseNavigation.onMouseWheel lineGeometry lineScene 120 40 None control with
  | Some c => c
  | None => control
  end.

(** The instance of globe A with its pointer on the background, and the
    module variables while the object of globe A is current. *)
Definition offGlobeA : RendererEvents.Instance :=
  RendererEvents.mkInstance
    (RendererEvents.mkRenderer (fun _ _ => (0, 0, 0)%Z)
       (RendererEvents.getPickingObjectArr (RendererEvents.renderer RendererEvents.globeA)))
    (RendererEvents.mkInputState 0 0 0 0 None)
    (RendererEvents.mkInputState 9 9 (9 # 10) (9 # 10) None)
    false false false.

Definition onObjectA : RendererEvents.ModuleState :=
  RendererEvents.mkModuleState 0 (10, 0, 0)%Z (10, 0, 0)%Z (0, 0, 0)%Z.

(** A new [RendererEvents] on a canvas of 100 x 100 pixels whose picking
    buffer shows the object of globe A everywhere. *)
Definition events : Pointer.Events :=
  Pointer.newEvents (RendererEvents.renderer RendererEvents.globeA)
    (fun _ _ => (10, 0, 0)%Z) (Pointer.mkHandler 1 100 100).

(** A rewrite callback that sends every request to the tile (0, 0, 0). *)
Definition toRoot (_ : Segment) (_ : Url) : Url := (0, 0, 0)%Z.

(** Three clicks and three taps, 200 ms apart. *)
Definition threeClicks : list (Q * Q * Q) := [(10, 50, 60); (210, 250, 260); (410, 450, 460)].

Definition threeTaps : list (Q * Q) := [(50, 60); (250, 260); (450, 460)].

End Samples.

(** ** Facts about the number primitives *)

Lemma shl1_pow2 (z : Z) : (0 <= z <= 30)%Z -> JS.shl1 z = (2 ^ z)%Z.
Proof.
  intros Hz. unfold JS.shl1, JS.int32.
  rewrite (Z.mod_small z 32) by lia.
  rewrite Z.shiftl_1_l.
  assert (0 < 2 ^ z <= 2 ^ 30)%Z.
  { split; [apply Z.pow_pos_nonneg; lia | apply Z.pow_le_mono_r; lia]. }
  rewrite Z.mod_small; lia.
Qed.

Lemma shl1_pos (z : Z) : (0 <= z <= 30)%Z -> 0 < inject_Z (JS.shl1 z).
Proof.
  intros Hz. rewrite shl1_pow2 by assumption.
  change 0 with (inject_Z 0). rewrite <- Zlt_Qlt.
  apply Z.pow_pos_nonneg; lia.
Qed.

(** [Math.floor (a / s)] is the index of the cell of width [s] holding [a]. *)
Lemma floor_cell (a s : Q) :
  0 < s ->
  inject_Z (JS.floor (a / s)) * s <= a /\ a < inject_Z (JS.floor (a / s)) * s + s.
Proof.
  intros Hs. unfold JS.floor.
  pose proof (Qfloor_le (a / s)) as Hlo.
  pose proof (Qlt_floor (a / s)) as Hhi.
  rewrite inject_Z_plus in Hhi. change (inject_Z 1) with 1 in Hhi.
  assert (Has : a / s * s == a) by (field; lra).
  set (k := inject_Z (Qfloor (a / s))) in *.
  assert (H1 : k * s <= a / s * s) by (apply Qmult_le_compat_r; lra).
  assert (H2 : a / s * s < (k + 1) * s) by (apply Qmult_lt_compat_r; lra).
  split; lra.
Qed.

Lemma floor_unique (v : Q) (k : Z) :
  inject_Z k <= v -> v < inject_Z k + 1 -> JS.floor v = k.
Proof.
  intros Hlo Hhi. unfold JS.floor.
  pose proof (Qfloor_le v) as H1.
  pose proof (Qlt_floor v) as H2.
  rewrite inject_Z_plus in H2. change (inject_Z 1) with 1 in H2.
  assert (Ha : inject_Z (Qfloor v) < inject_Z k + 1) by lra.
  assert (Hb : inject_Z k < inject_Z (Qfloor v) + 1) by lra.
  change 1 with (inject_Z 1) in Ha, Hb.
  rewrite <- inject_Z_plus in Ha, Hb.
  rewrite <- Zlt_Qlt in Ha, Hb. lia.
Qed.

(** ** getTileXY *)

Section TileXY.

Context {M : Mercator}.

(** In the main band the projected point lies in the extent of the tile
    that [getTileXY] names. *)
Lemma getTileXY_common_contains (lonLat : LonLat) (zoom : Z) :
  0 < POLE2 -> (0 <= zoom <= 30)%Z ->
  getTileGroupByLat (lat lonLat) MAX_LAT = TILEGROUP_COMMON ->
  tileContainsInput lonLat zoom.
Proof.
  intros Hpole Hz Hg. unfold tileContainsInput, getTileXY. rewrite Hg.
  cbn [tileExtent tilePoint]. unfold getTileExtent, isInside. cbn [lon lat southWest northEast].
  pose proof (shl1_pos zoom Hz) as Hpz.
  set (size := POLE2 / inject_Z (JS.shl1 zoom)).
  assert (Hsize : 0 < size).
  { unfold size. apply Qlt_shift_div_l; lra. }
  destruct (floor_cell (POLE + lon (forward lonLat)) size Hsize) as [Hx1 Hx2].
  destruct (floor_cell (POLE - lat (forward lonLat)) size Hsize) as [Hy1 Hy2].
  repeat split; lra.
Qed.

(** The column is right in the caps as well: only the row is rounded. *)
Lemma getTileXY_north_column (lonLat : LonLat) (zoom : Z) :
  (0 <= zoom <= 30)%Z ->
  getTileGroupByLat (lat lonLat) MAX_LAT = TILEGROUP_NORTH ->
  let '(x, y, z, g) := getTileXY lonLat zoom in
  let e := tileExtent x y z g in
  lon (southWest e) <= lon lonLat /\ lon lonLat <= lon (northEast e).
Proof.
  intros Hz Hg. unfold getTileXY. rewrite Hg.
  cbn [tileExtent rootExtent]. unfold getWidth. cbn [lon lat southWest northEast].
  pose proof (shl1_pos zoom Hz) as Hpz.
  set (pz := inject_Z (JS.shl1 zoom)) in *.
  assert (Hsize : 0 < 360 / pz) by (apply Qlt_shift_div_l; lra).
  destruct (floor_cell (180 + lon lonLat) (360 / pz) Hsize) as [Hx1 Hx2].
  assert (E : (180 - -180) / pz == 360 / pz) by (field; lra).
  rewrite E. split; lra.
Qed.

End TileXY.

(** C1 (fails in the code).  A point of the north cap whose distance from
    the pole is at least half a row is sent to the row below its own: at
    zoom 0, where the cap is the single tile (0, 0), the point (0, 86) gets
    the index (0, 1), whose extent does not contain it, while the extent of
    tile (0, 0) does. *)
Theorem getTileXY_north_cap_misses_point (M : Mercator) :
  85 < MAX_LAT -> MAX_LAT < 86 ->
  getTileXY (mkLonLat 0 86) 0 = (0, 1, 0, TILEGROUP_NORTH)%Z /\
  ~ tileContainsInput (mkLonLat 0 86) 0 /\
  isInside (tileExtent 0 0 0 TILEGROUP_NORTH) (mkLonLat 0 86).
Proof.
  intros Hlo Hhi.
  assert (Hg : getTileGroupByLat 86 MAX_LAT = TILEGROUP_NORTH).
  { unfold getTileGroupByLat. destruct (Qlt_le_dec MAX_LAT 86); [reflexivity | lra]. }
  assert (Hy : JS.round ((90 - 86) / ((90 - MAX_LAT) / inject_Z (JS.shl1 0))) = 1%Z).
  { unfold JS.round. change (inject_Z (JS.shl1 0)) with 1.
    apply floor_unique; change (inject_Z 1) with 1.
    - assert ((4 # 5) <= (90 - 86) / ((90 - MAX_LAT) / 1)).
      { assert (E : (90 - MAX_LAT) / 1 == 90 - MAX_LAT) by (field; lra).
        apply Qle_shift_div_l; lra. }
      lra.
    - assert ((90 - 86) / ((90 - MAX_LAT) / 1) < 1).
      { assert (E : (90 - MAX_LAT) / 1 == 90 - MAX_LAT) by (field; lra).
        apply Qlt_shift_div_r; lra. }
      lra. }
  assert (Hxy : getTileXY (mkLonLat 0 86) 0 = (0, 1, 0, TILEGROUP_NORTH)%Z).
  { unfold getTileXY. cbn [lat lon]. rewrite Hg, Hy. reflexivity. }
  split; [exact Hxy |]. split.
  - unfold tileContainsInput. rewrite Hxy.
    unfold isInside. cbn [tileExtent rootExtent tilePoint]. unfold getWidth, getHeight. cbn [lon lat southWest northEast].
    change (inject_Z (JS.shl1 0)) with 1. change (inject_Z 1) with 1.
    intros (_ & _ & _ & H).
    assert (E : 90 - 1 * ((90 - MAX_LAT) / 1) == MAX_LAT) by (field; lra).
    lra.
  - unfold isInside. cbn [tileExtent rootExtent]. unfold getWidth, getHeight. cbn [lon lat southWest northEast].
    change (inject_Z (JS.shl1 0)) with 1. change (inject_Z 0) with 0.
    assert (E1 : 90 - 0 * ((90 - MAX_LAT) / 1) - (90 - MAX_LAT) / 1 == MAX_LAT) by (field; lra).
    assert (E2 : -180 + 0 * ((180 - -180) / 1) + (180 - -180) / 1 == 180) by (field; lra).
    repeat split; lra.
Qed.

Lemma getTileXY_north_cap_misses_point_witness :
  let M := EarthSample.mercator in
  getTileXY (mkLonLat 0 86) 0 = (0, 1, 0, TILEGROUP_NORTH)%Z /\
  ~ tileContainsInput (mkLonLat 0 86) 0 /\
  isInside (tileExtent 0 0 0 TILEGROUP_NORTH) (mkLonLat 0 86).
Proof.
  apply (getTileXY_north_cap_misses_point EarthSample.mercator); reflexivity.
Defined.

Example sample_tile :
  @getTileXY EarthSample.mercator (mkLonLat 7 50.5) 14 = (8510, 5520, 14, TILEGROUP_COMMON)%Z.
Proof. vm_compute. reflexivity. Qed.

(** ** loadTerrain under the terrain lock *)

Section LoadTerrainLocked.

Lemma loadTerrain_locked_eq (t : World) (seg : nat) (forceLoading : bool) :
  isFree (terrainLock t) = false ->
  loadTerrain seg forceLoading t
  = match segments t !! seg with
    | Some _ => set_segments (alter (set_terrainIsLoading false) seg) t
    | None => t
    end.
Proof.
  intros Hlock. unfold loadTerrain. rewrite Hlock. reflexivity.
Qed.

Lemma loadTerrain_locked_frame (t : World) (seg : nat) (forceLoading : bool) :
  isFree (terrainLock t) = false ->
  let t' := loadTerrain seg forceLoading t in
  promises t' = promises t /\ loadQueue t' = loadQueue t /\
  terrainLock t' = terrainLock t /\ _fetchCache t' = _fetchCache t /\
  _elevationCache t' = _elevationCache t /\ dispatched t' = dispatched t.
Proof.
  intros Hlock. cbv zeta. rewrite loadTerrain_locked_eq by assumption.
  destruct (segments t !! seg); repeat split; reflexivity.
Qed.

(** C3.  With the terrain lock engaged, [loadTerrain] marks the segment as
    not loading and starts nothing; whatever sequence of [loadTerrain] calls
    is made while the lock stays engaged, the loader receives no request:
    neither its promises nor its queue change, and no load event fires. *)
Theorem loadTerrain_locked_rejects (t : World) :
  isFree (terrainLock t) = false ->
  (forall seg forceLoading segment,
      segments t !! seg = Some segment ->
      segments (loadTerrain seg forceLoading t) !! seg
      = Some (set_terrainIsLoading false segment) /\
      terrainIsLoading (set_terrainIsLoading false segment) = false) /\
  (forall reqs : list (nat * bool),
      let t' := fold_left (fun w r => loadTerrain (fst r) (snd r) w) reqs t in
      promises t' = promises t /\ loadQueue t' = loadQueue t /\
      _fetchCache t' = _fetchCache t /\ dispatched t' = dispatched t /\
      isFree (terrainLock t') = false).
Proof.
  intros Hlock. split.
  - intros seg forceLoading segment Hseg.
    rewrite loadTerrain_locked_eq by assumption. rewrite Hseg.
    cbn [segments set_segments]. rewrite lookup_alter_eq, Hseg. split; reflexivity.
  - intros reqs. cbv zeta. revert t Hlock.
    induction reqs as [|[seg forceLoading] reqs IH]; intros t Hlock.
    + repeat split; try reflexivity. exact Hlock.
    + cbn [fold_left fst snd].
      destruct (loadTerrain_locked_frame t seg forceLoading Hlock)
        as (Hp & Hq & Hl & Hf & _ & Hd).
      cbv zeta in Hp, Hq, Hl, Hf, Hd.
      destruct (IH (loadTerrain seg forceLoading t)) as (Hp' & Hq' & Hf' & Hd' & Hl').
      { rewrite Hl. exact Hlock. }
      rewrite Hp', Hq', Hf', Hd'. repeat split; assumption.
Qed.

Lemma loadTerrain_locked_rejects_witness :
  segments (loadTerrain 0 true EarthSample.lockedWorld) !! 0%nat
  = Some (set_terrainIsLoading false EarthSample.segment) /\
  loadQueue (loadTerrain 0 true EarthSample.lockedWorld) = [].
Proof.
  assert (Hlock : isFree (terrainLock EarthSample.lockedWorld) = false)
    by (vm_compute; reflexivity).
  destruct (loadTerrain_locked_rejects EarthSample.lockedWorld Hlock) as [Hseg Hreqs].
  split.
  - apply (Hseg 0%nat true EarthSample.segment). reflexivity.
  - apply (Hreqs [(0%nat, true)]).
Defined.

End LoadTerrainLocked.

(** ** Point queries answered from the elevation cache *)

Section GroundHit.

Context {M : Mercator} {G : Geoid}.

(** The tile index that the ground closure computes for a query point. *)
Lemma ellToAltGND_hit (t : World) (lonLat : LonLat) (altEll : Q) (callback : nat)
    (cache : TileData) :
  _elevationCache t !! getTileIndex (getTileX (lon lonLat) (maxZoom t))
                         (getTileY (lat lonLat) (maxZoom t)) (maxZoom t) = Some cache ->
  ellToAltGND lonLat altEll callback t
  = invoke callback
      (JS.sub (JS.Fin altEll)
         (JS.add (_getGroundHeight lonLat cache) (JS.Fin (getHeightLonLat lonLat)))) t.
Proof.
  intros Hhit. unfold ellToAltGND. rewrite Hhit. reflexivity.
Qed.

Lemma index_nil (i : JS.num) : JS.index [] i = JS.NaN.
Proof.
  destruct i as [q| | |]; try reflexivity. unfold JS.index.
  destruct (Qeq_bool q (inject_Z (JS.floor q)) && (0 <=? JS.floor q)%Z); [| reflexivity].
  destruct (Z.to_nat (JS.floor q)); reflexivity.
Qed.

Lemma mul_NaN_l (c : JS.num) : JS.mul JS.NaN c = JS.NaN.
Proof. destruct c; reflexivity. Qed.

Lemma add_NaN_l (c : JS.num) : JS.add JS.NaN c = JS.NaN.
Proof. destruct c; reflexivity. Qed.

Lemma sub_add_NaN (a b : JS.num) : JS.sub a (JS.add JS.NaN b) = JS.NaN.
Proof. rewrite add_NaN_l. destruct a; reflexivity. Qed.

(** No height can be read from the sentinel: whatever the point and the
    extent, the interpolation over an empty grid is [NaN]. *)
Lemma _getGroundHeight_sentinel (lonLat : LonLat) (d : TileData) :
  isSentinel d -> _getGroundHeight lonLat d = JS.NaN.
Proof.
  intros Hd. unfold _getGroundHeight.
  assert (Hh : h0 (gridCell lonLat d) = JS.NaN /\ h1 (gridCell lonLat d) = JS.NaN /\
               h2 (gridCell lonLat d) = JS.NaN /\ h3 (gridCell lonLat d) = JS.NaN).
  { unfold gridCell. cbn [h0 h1 h2 h3]. rewrite Hd. rewrite !index_nil. repeat split. }
  destruct Hh as (-> & -> & -> & ->).
  destruct (cartesianToBarycentricLonLat _ _ _ _) as [[] [[c0 c1] c2]].
  - rewrite !mul_NaN_l. reflexivity.
  - destruct (cartesianToBarycentricLonLat _ _ _ _) as [[] [[d0 d1] d2]].
    + rewrite !mul_NaN_l. reflexivity.
    + reflexivity.
Qed.

(** C6 (fails in the code).  A ground-mode request whose tile index,
    computed at the provider's [maxZoom], is present in the elevation cache
    performs no I/O (no promise is created, no load is queued, both caches
    are left as they were) and invokes the callback once with
    [altEll - (groundHeight + undulation)].  The ground height is the sum
    of the heights read at the corners of the triangle of the grid cell
    that the barycentric test accepts, [(v0, v1, v2)] first and
    [(v1, v2, v3)] second, weighted by the barycentric coordinates of the
    projected point.  But an entry that is present need not hold a grid:
    on the sentinel that the "error" branch stores, the heights read are
    [undefined] and the callback receives [NaN], not the
    [altEll - undulation] that the "error" branch itself answered. *)
Theorem getHeightAsync_ground_cache_hit (t : World) (lonLat : LonLat) (altEll : Q)
    (callback : nat) (cache : TileData) :
  let z := maxZoom t in
  _elevationCache t !! getTileIndex (getTileX (lon lonLat) z) (getTileY (lat lonLat) z) z
  = Some cache ->
  let t' := getHeightAsync GND lonLat callback altEll t in
  let c := gridCell lonLat cache in
  let lower := cartesianToBarycentricLonLat (forward lonLat) (v0 c) (v1 c) (v2 c) in
  let upper := cartesianToBarycentricLonLat (forward lonLat) (v1 c) (v2 c) (v3 c) in
  let answer (g : JS.num) :=
    (callback, JS.sub (JS.Fin altEll) (JS.add g (JS.Fin (getHeightLonLat lonLat)))) in
  calls t' = calls t ++ [answer (_getGroundHeight lonLat cache)] /\
  promises t' = promises t /\ loadQueue t' = loadQueue t /\
  _fetchCache t' = _fetchCache t /\ _elevationCache t' = _elevationCache t /\
  (fst lower = true ->
   let '(c0, c1, c2) := snd lower in
   calls t' = calls t ++
     [answer (JS.add (JS.add (JS.mul (h0 c) c0) (JS.mul (h1 c) c1)) (JS.mul (h2 c) c2))]) /\
  (fst lower = false -> fst upper = true ->
   let '(d0, d1, d2) := snd upper in
   calls t' = calls t ++
     [answer (JS.add (JS.add (JS.mul (h1 c) d0) (JS.mul (h2 c) d1)) (JS.mul (h3 c) d2))]) /\
  (isSentinel cache ->
   calls t' = calls t ++ [(callback, JS.NaN)] /\
   ~ JS.same JS.NaN (JS.Fin (altEll - getHeightLonLat lonLat))).
Proof.
  intros z Hhit. cbv zeta. cbn [getHeightAsync].
  rewrite (ellToAltGND_hit t lonLat altEll callback cache Hhit).
  cbn [calls promises loadQueue _fetchCache _elevationCache invoke set_calls].
  split; [reflexivity |]. split; [reflexivity |]. split; [reflexivity |].
  split; [reflexivity |]. split; [reflexivity |].
  unfold _getGroundHeight.
  destruct (cartesianToBarycentricLonLat (forward lonLat) (v0 (gridCell lonLat cache))
              (v1 (gridCell lonLat cache)) (v2 (gridCell lonLat cache)))
    as [b1 [[c0 c1] c2]] eqn:Elower.
  destruct (cartesianToBarycentricLonLat (forward lonLat) (v1 (gridCell lonLat cache))
              (v2 (gridCell lonLat cache)) (v3 (gridCell lonLat cache)))
    as [b2 [[d0 d1] d2]] eqn:Eupper.
  cbn [fst snd]. split; [| split].
  - intros ->. reflexivity.
  - intros -> ->. reflexivity.
  - intros Hd. split; [| intros []].
    pose proof (_getGroundHeight_sentinel lonLat cache Hd) as Hnan.
    unfold _getGroundHeight in Hnan. rewrite Elower, Eupper in Hnan.
    rewrite Hnan, sub_add_NaN. reflexivity.
Qed.

End GroundHit.

(** ** What point queries leave alone *)

Section PointQueryFrame.

Context {M : Mercator} {G : Geoid}.

Lemma sameBulkState_refl (t : World) : sameBulkState t t.
Proof. repeat split. Qed.

Lemma sameBulkState_trans (t1 t2 t3 : World) :
  sameBulkState t1 t2 -> sameBulkState t2 t3 -> sameBulkState t1 t3.
Proof.
  unfold sameBulkState. intros (-> & -> & -> & -> & -> & ->) H. exact H.
Qed.

Lemma gndContinuation_bulk (k : GndCont) (r : Response) (t : World) :
  sameBulkState t (gndContinuation k r t).
Proof.
  unfold gndContinuation. destruct (status r); repeat split.
Qed.

Lemma gndContinuation_promises (k : GndCont) (r : Response) (t : World) :
  promises (gndContinuation k r t) = promises t.
Proof.
  unfold gndContinuation. destruct (status r); reflexivity.
Qed.

Lemma fold_gndContinuation_bulk (ks : list GndCont) (r : Response) (t : World) :
  sameBulkState t (fold_left (fun w c => gndContinuation c r w) ks t) /\
  promises (fold_left (fun w c => gndContinuation c r w) ks t) = promises t.
Proof.
  revert t. induction ks as [|c ks IH]; intros t.
  - split; [apply sameBulkState_refl | reflexivity].
  - cbn [fold_left]. destruct (IH (gndContinuation c r t)) as [Hb Hp]. split.
    + eapply sameBulkState_trans; [apply gndContinuation_bulk | exact Hb].
    + rewrite Hp. apply gndContinuation_promises.
Qed.

Lemma promiseThen_bulk (pid : nat) (k : GndCont) (t : World) :
  sameBulkState t (promiseThen pid k t).
Proof.
  unfold promiseThen. destruct (promises t !! pid) as [p|]; [| apply sameBulkState_refl].
  destruct (p_result p) as [r|]; [apply gndContinuation_bulk | repeat split].
Qed.

Lemma ellToAltGND_bulk (lonLat : LonLat) (altEll : Q) (callback : nat) (t : World) :
  sameBulkState t (ellToAltGND lonLat altEll callback t).
Proof.
  unfold ellToAltGND. destruct (_elevationCache t !! _); [repeat split |].
  destruct (_fetchCache t !! _) as [pid|] eqn:Hrec.
  - rewrite Hrec. apply promiseThen_bulk.
  - cbn [loaderFetch]. cbn [_fetchCache set_fetchCache set_promises].
    rewrite lookup_insert_eq.
    eapply sameBulkState_trans; [| apply promiseThen_bulk]. repeat split.
Qed.

Lemma getHeightAsync_bulk (m : HeightMode) (lonLat : LonLat) (callback : nat)
    (altEll : Q) (t : World) :
  sameBulkState t (getHeightAsync m lonLat callback altEll t).
Proof.
  destruct m; cbn [getHeightAsync]; [repeat split .. | apply ellToAltGND_bulk].
Qed.

Lemma resolveFetch_bulk (pid : nat) (r : Response) (t : World) :
  sameBulkState t (resolveFetch pid r t).
Proof.
  unfold resolveFetch. destruct (promises t !! pid) as [p|]; [| apply sameBulkState_refl].
  destruct (p_result p); [apply sameBulkState_refl |].
  eapply sameBulkState_trans; [| apply fold_gndContinuation_bulk]. repeat split.
Qed.

End PointQueryFrame.

(** ** The fetch-dedup table of point queries *)

Section FetchTable.

Context {M : Mercator} {G : Geoid}.










Lemma loadCallback_frame (seg : nat) (r : Response) (t : World) :
  promises (loadCallback seg r t) = promises t /\
  _fetchCache (loadCallback seg r t) = _fetchCache t /\
  loadQueue (loadCallback seg r t) = loadQueue t /\
  calls (loadCallback seg r t) = calls t.
Proof.
  unfold loadCallback, _applyElevationsData.
  destruct (segments t !! seg); [| auto].
  destruct (status r); cbn [set_elevationCache loadHandlers];
    try destruct (0 <? loadHandlers t)%nat; auto.
Qed.

Lemma loadTerrain_frame (seg : nat) (forceLoading : bool) (t : World) :
  promises (loadTerrain seg forceLoading t) = promises t /\
  _fetchCache (loadTerrain seg forceLoading t) = _fetchCache t /\
  _elevationCache (loadTerrain seg forceLoading t) = _elevationCache t /\
  calls (loadTerrain seg forceLoading t) = calls t.
Proof.
  unfold loadTerrain, _applyElevationsData.
  destruct (segments t !! seg); [| auto].
  destruct (isFree (terrainLock t)); [| auto].
  cbv zeta. cbn [_projection tileIndex set_loading].
  destruct (bool_decide (_projection s = EPSG3857)); [| auto].
  cbn [_elevationCache set_segments].
  destruct (_elevationCache t !! tileIndex s); cbn [set_segments loadHandlers];
    try destruct (0 <? loadHandlers t)%nat; auto.
Qed.

Lemma resolveLoad_frame (i : nat) (r : Response) (t : World) :
  promises (resolveLoad i r t) = promises t /\
  _fetchCache (resolveLoad i r t) = _fetchCache t /\
  calls (resolveLoad i r t) = calls t.
Proof.
  unfold resolveLoad. destruct (loadQueue t !! i) as [req|]; [| auto].
  destruct (loadCallback_frame (l_segment req) r (set_loadQueue (delete i) t))
    as (-> & -> & _ & ->). auto.
Qed.








End FetchTable.


(** ** Settling a point-query fetch *)

Section FetchSettled.

Context {M : Mercator} {G : Geoid}.

Lemma map_src_insert (ps : list Promise) (pid : nat) (p : Promise)
    (res : option Response) (ks : list GndCont) :
  ps !! pid = Some p ->
  map p_src (<[pid := mkPromise (p_src p) res ks]> ps) = map p_src ps.
Proof.
  intros Hp. change (map p_src) with (fmap (M:=list) p_src).
  rewrite list_fmap_insert. cbn [p_src].
  apply list_insert_id. rewrite list_lookup_fmap, Hp. reflexivity.
Qed.

Lemma gndContinuation_cache_mono (c : GndCont) (r : Response) (t : World) (k : TileIndex) :
  is_Some (_elevationCache t !! k) ->
  is_Some (_elevationCache (gndContinuation c r t) !! k).
Proof.
  intros Hk. unfold gndContinuation.
  destruct (status r); cbn [_elevationCache set_elevationCache set_fetchCache invoke set_calls];
    try exact Hk; rewrite lookup_insert_is_Some; destruct (decide (k_tileIndex c = k)); auto.
Qed.

Lemma fold_gndContinuation_cache_mono (ks : list GndCont) (r : Response) (t : World)
    (k : TileIndex) :
  is_Some (_elevationCache t !! k) ->
  is_Some (_elevationCache (fold_left (fun w c => gndContinuation c r w) ks t) !! k).
Proof.
  revert t. induction ks as [|c ks IH]; intros t Hk; [exact Hk |].
  cbn [fold_left]. apply IH, gndContinuation_cache_mono, Hk.
Qed.

Lemma error_sets_sentinel (c : GndCont) (r : Response) (t : World) :
  status r = error -> hasSentinel (k_tileIndex c) (gndContinuation c r t).
Proof.
  intros Hr. unfold hasSentinel, gndContinuation. rewrite Hr.
  cbn [_elevationCache invoke set_calls set_elevationCache].
  rewrite lookup_insert_eq. eexists; split; reflexivity.
Qed.

Lemma error_keeps_sentinel (c : GndCont) (r : Response) (t : World) (k : TileIndex) :
  status r = error -> hasSentinel k t -> hasSentinel k (gndContinuation c r t).
Proof.
  intros Hr Hk. unfold hasSentinel, gndContinuation. rewrite Hr.
  cbn [_elevationCache invoke set_calls set_elevationCache].
  destruct (decide (k_tileIndex c = k)) as [-> | Hne].
  - rewrite lookup_insert_eq. eexists; split; reflexivity.
  - rewrite lookup_insert_ne by assumption. exact Hk.
Qed.

Lemma fold_error_keeps_sentinel (ks : list GndCont) (r : Response) (t : World) (k : TileIndex) :
  status r = error -> hasSentinel k t ->
  hasSentinel k (fold_left (fun w c => gndContinuation c r w) ks t).
Proof.
  intros Hr. revert t. induction ks as [|c ks IH]; intros t Hk; [exact Hk |].
  cbn [fold_left]. apply IH, error_keeps_sentinel; assumption.
Qed.

(** With status "error" every continuation stores the sentinel under its
    tile index and hands [altEll - altMsl] to its callback. *)
Lemma fold_error (ks : list GndCont) (r : Response) (t : World) :
  status r = error ->
  let t' := fold_left (fun w c => gndContinuation c r w) ks t in
  calls t' = calls t ++
    map (fun c => (k_callback c, JS.sub (JS.Fin (k_altEll c)) (JS.Fin (k_altMsl c)))) ks /\
  _fetchCache t' = _fetchCache t /\
  (forall c, In c ks -> hasSentinel (k_tileIndex c) t').
Proof.
  intros Hr. cbv zeta. revert t. induction ks as [|c ks IH]; intros t.
  - cbn. rewrite app_nil_r. repeat split. intros c [].
  - cbn [fold_left map]. destruct (IH (gndContinuation c r t)) as (Hcalls & Hf & Hcache).
    rewrite Hcalls, Hf.
    assert (Hc : calls (gndContinuation c r t)
                 = calls t ++ [(k_callback c, JS.sub (JS.Fin (k_altEll c)) (JS.Fin (k_altMsl c)))]
                 /\ _fetchCache (gndContinuation c r t) = _fetchCache t).
    { unfold gndContinuation. rewrite Hr. split; reflexivity. }
    destruct Hc as [-> ->]. rewrite <- app_assoc. repeat split.
    intros c' [<- | Hin]; [| auto].
    apply fold_error_keeps_sentinel, error_sets_sentinel; assumption.
Qed.

Lemma promiseThen_cached (pid : nat) (c : GndCont) (t : World) (k : TileIndex) :
  map p_src (promises (promiseThen pid c t)) = map p_src (promises t) /\
  (is_Some (_elevationCache t !! k) ->
   is_Some (_elevationCache (promiseThen pid c t) !! k)).
Proof.
  unfold promiseThen. destruct (promises t !! pid) as [p|] eqn:Hp; [| auto].
  destruct (p_result p) as [r|].
  - rewrite gndContinuation_promises. split; [reflexivity |].
    apply gndContinuation_cache_mono.
  - cbn [promises set_promises _elevationCache]. split; [| auto].
    apply map_src_insert, Hp.
Qed.

Lemma fetchesTo_srcs (k : TileIndex) (t t' : World) :
  map p_src (promises t') = map p_src (promises t) -> fetchesTo k t' = fetchesTo k t.
Proof.
  unfold fetchesTo. intros ->. reflexivity.
Qed.

Lemma ellToAltGND_cached (lonLat : LonLat) (altEll : Q) (callback : nat) (t : World)
    (k : TileIndex) :
  is_Some (_elevationCache t !! k) ->
  is_Some (_elevationCache (ellToAltGND lonLat altEll callback t) !! k) /\
  fetchesTo k (ellToAltGND lonLat altEll callback t) = fetchesTo k t.
Proof.
  intros Hk. unfold ellToAltGND.
  set (z := maxZoom t). set (x := getTileX (lon lonLat) z). set (y := getTileY (lat lonLat) z).
  destruct (_elevationCache t !! getTileIndex x y z) as [cache|] eqn:Hmiss.
  { split; [exact Hk | reflexivity]. }
  assert (Hne : getTileIndex x y z <> k).
  { intros Heq. rewrite <- Heq, Hmiss in Hk. destruct Hk as [? Hk]. discriminate. }
  destruct (_fetchCache t !! getTileIndex x y z) as [pid|] eqn:Hrec.
  - rewrite Hrec.
    destruct (promiseThen_cached pid
                (mkGndCont lonLat altEll callback x y z (getTileIndex x y z)
                   (getHeightLonLat lonLat)) t k) as [Hs Hc].
    split; [auto | apply fetchesTo_srcs, Hs].
  - cbn [loaderFetch]. cbn [_fetchCache set_fetchCache set_promises].
    rewrite lookup_insert_eq.
    match goal with |- context [promiseThen ?pid ?c ?w] =>
      destruct (promiseThen_cached pid c w k) as [Hs Hc] end.
    split; [apply Hc; exact Hk |].
    unfold fetchesTo. rewrite Hs. cbn [promises set_fetchCache set_promises].
    rewrite map_app, List.filter_app. cbn [map List.filter p_src].
    rewrite bool_decide_eq_false_2 by exact Hne.
    rewrite app_nil_r. reflexivity.
Qed.

Lemma resolveFetch_cached (pid : nat) (r : Response) (t : World) (k : TileIndex) :
  map p_src (promises (resolveFetch pid r t)) = map p_src (promises t) /\
  (is_Some (_elevationCache t !! k) ->
   is_Some (_elevationCache (resolveFetch pid r t) !! k)).
Proof.
  unfold resolveFetch. destruct (promises t !! pid) as [p|] eqn:Hp; [| auto].
  destruct (p_result p); [auto |]. split.
  - match goal with |- context [fold_left ?f ?ks ?w] =>
      destruct (fold_gndContinuation_bulk ks r w) as [_ Hps] end.
    rewrite Hps. cbn [promises set_promises]. apply map_src_insert, Hp.
  - intros Hk. apply fold_gndContinuation_cache_mono. exact Hk.
Qed.

Lemma loadCallback_cache_mono (seg : nat) (r : Response) (t : World) (k : TileIndex) :
  is_Some (_elevationCache t !! k) ->
  is_Some (_elevationCache (loadCallback seg r t) !! k).
Proof.
  intros Hk. unfold loadCallback, _applyElevationsData.
  destruct (segments t !! seg) as [s|]; [| exact Hk].
  destruct (status r); cbn [set_elevationCache loadHandlers];
    try destruct (0 <? loadHandlers t)%nat;
    cbn [_elevationCache set_segments set_dispatched set_elevationCache];
    try exact Hk;
    rewrite lookup_insert_is_Some; destruct (decide (tileIndex s = k)); auto.
Qed.

Lemma step_cached (k : TileIndex) (t : World) (e : Event) :
  is_Some (_elevationCache t !! k) ->
  is_Some (_elevationCache (step t e) !! k) /\ fetchesTo k (step t e) = fetchesTo k t.
Proof.
  intros Hk. destruct e as [m p cb a | seg force | pid r | i r | key | key]; cbn [step].
  - destruct m; cbn [getHeightAsync]; [split; [exact Hk | reflexivity] ..|].
    apply ellToAltGND_cached, Hk.
  - destruct (loadTerrain_frame seg force t) as (Hp & _ & Hc & _).
    rewrite Hc. split; [exact Hk |]. apply fetchesTo_srcs. rewrite Hp. reflexivity.
  - destruct (resolveFetch_cached pid r t k) as [Hs Hc].
    split; [auto | apply fetchesTo_srcs, Hs].
  - destruct (resolveLoad_frame i r t) as (Hp & _).
    split; [| apply fetchesTo_srcs; rewrite Hp; reflexivity].
    unfold resolveLoad. destruct (loadQueue t !! i); [| exact Hk].
    apply loadCallback_cache_mono. exact Hk.
  - split; [exact Hk | reflexivity].
  - split; [exact Hk | reflexivity].
Qed.

Lemma run_cached (k : TileIndex) (es : list Event) (t : World) :
  is_Some (_elevationCache t !! k) ->
  is_Some (_elevationCache (run es t) !! k) /\ fetchesTo k (run es t) = fetchesTo k t.
Proof.
  revert t. induction es as [|e es IH]; intros t Hk; [split; [exact Hk | reflexivity] |].
  cbn [run fold_left]. destruct (step_cached k t e Hk) as [Hk' Hn].
  destruct (IH (step t e) Hk') as [Hk'' Hn']. fold (run es (step t e)) in *.
  split; [exact Hk'' | congruence].
Qed.

Lemma loadTerrain_cached (seg : nat) (forceLoading : bool) (t : World) (s : Segment) :
  segments t !! seg = Some s -> is_Some (_elevationCache t !! tileIndex s) ->
  loadQueue (loadTerrain seg forceLoading t) = loadQueue t.
Proof.
  intros Hs [d Hd]. unfold loadTerrain, _applyElevationsData. rewrite Hs.
  destruct (isFree (terrainLock t)); [| reflexivity].
  cbv zeta. cbn [_projection tileIndex set_loading].
  destruct (bool_decide (_projection s = EPSG3857)); [| reflexivity].
  cbn [_elevationCache set_segments]. rewrite Hd.
  cbn [loadHandlers set_segments]. destruct (0 <? loadHandlers t)%nat; reflexivity.
Qed.

(** C4.  When the fetch of a ground-mode request settles with status
    "error", the "no elevation data" sentinel is stored in the elevation
    cache under the tile index of every pending continuation, each
    continuation's callback receives [altEll - altMsl] (the ground term is
    left out), and from then on the tile is served from the cache: whatever
    happens afterwards, no further point-query fetch is issued for that
    tile index and no bulk load of a segment on it is queued. *)
Theorem fetch_error_caches_sentinel (t : World) (pid : nat) (p : Promise)
    (r : Response) (c : GndCont) :
  promises t !! pid = Some p -> p_result p = None -> In c (p_conts p) ->
  status r = error ->
  let t1 := resolveFetch pid r t in
  hasSentinel (k_tileIndex c) t1 /\
  calls t1 = calls t ++
    map (fun c => (k_callback c, JS.sub (JS.Fin (k_altEll c)) (JS.Fin (k_altMsl c))))
      (p_conts p) /\
  forall es : list Event,
    let t2 := run es t1 in
    is_Some (_elevationCache t2 !! k_tileIndex c) /\
    fetchesTo (k_tileIndex c) t2 = fetchesTo (k_tileIndex c) t1 /\
    (forall seg forceLoading s,
        segments t2 !! seg = Some s -> tileIndex s = k_tileIndex c ->
        loadQueue (loadTerrain seg forceLoading t2) = loadQueue t2).
Proof.
  intros Hp Hres Hin Hr. cbv zeta.
  assert (Ht1 : resolveFetch pid r t
                = fold_left (fun w c => gndContinuation c r w) (p_conts p)
                    (set_promises (insert pid (mkPromise (p_src p) (Some r) [])) t)).
  { unfold resolveFetch. rewrite Hp, Hres. reflexivity. }
  rewrite Ht1.
  match goal with |- context [fold_left ?f ?ks ?w] =>
    destruct (fold_error ks r w Hr) as (Hcalls & _ & Hsent) end.
  cbv zeta in Hcalls, Hsent.
  split; [apply Hsent, Hin |]. split; [exact Hcalls |].
  intros es.
  assert (Hk : is_Some (_elevationCache
                 (fold_left (fun w c => gndContinuation c r w) (p_conts p)
                    (set_promises (insert pid (mkPromise (p_src p) (Some r) [])) t))
                 !! k_tileIndex c)).
  { destruct (Hsent c Hin) as (d & Hd & _). eauto. }
  destruct (run_cached (k_tileIndex c) es _ Hk) as [Hk2 Hn].
  split; [exact Hk2 |]. split; [exact Hn |].
  intros seg forceLoading s Hs Hidx.
  apply (loadTerrain_cached seg forceLoading _ s Hs). rewrite Hidx. exact Hk2.
Qed.

End FetchSettled.

(** ** Aborted requests *)

Section Aborted.

Context {M : Mercator} {G : Geoid}.

Lemma abort_keeps_deleted (c : GndCont) (r : Response) (t : World) (k : TileIndex) :
  status r = abort -> _fetchCache t !! k = None ->
  _fetchCache (gndContinuation c r t) !! k = None.
Proof.
  intros Hr Hk. unfold gndContinuation. rewrite Hr. cbn [_fetchCache set_fetchCache].
  rewrite lookup_delete_None. auto.
Qed.

Lemma fold_abort_keeps_deleted (ks : list GndCont) (r : Response) (t : World) (k : TileIndex) :
  status r = abort -> _fetchCache t !! k = None ->
  _fetchCache (fold_left (fun w c => gndContinuation c r w) ks t) !! k = None.
Proof.
  intros Hr. revert t. induction ks as [|c ks IH]; intros t Hk; [exact Hk |].
  cbn [fold_left]. apply IH, abort_keeps_deleted; assumption.
Qed.

(** With status "abort" the continuations only drop the fetch records of
    their tiles. *)
Lemma fold_abort (ks : list GndCont) (r : Response) (t : World) :
  status r = abort ->
  let t' := fold_left (fun w c => gndContinuation c r w) ks t in
  _elevationCache t' = _elevationCache t /\ calls t' = calls t /\
  (forall c, In c ks -> _fetchCache t' !! k_tileIndex c = None).
Proof.
  intros Hr. cbv zeta. revert t. induction ks as [|c ks IH]; intros t.
  - repeat split. intros c [].
  - cbn [fold_left]. destruct (IH (gndContinuation c r t)) as (Hc & Hcalls & Hdel).
    rewrite Hc, Hcalls.
    assert (Hstep : _elevationCache (gndContinuation c r t) = _elevationCache t /\
                    calls (gndContinuation c r t) = calls t /\
                    _fetchCache (gndContinuation c r t) !! k_tileIndex c = None).
    { unfold gndContinuation. rewrite Hr. cbn [_fetchCache set_fetchCache].
      rewrite lookup_delete_eq. repeat split. }
    destruct Hstep as (-> & -> & Hnow). repeat split.
    intros c' [<- | Hin]; [| auto].
    apply fold_abort_keeps_deleted; assumption.
Qed.

(** A ground-mode request that finds neither a cache entry nor a fetch
    record starts a fetch of its own. *)
Lemma ellToAltGND_fresh (lonLat : LonLat) (altEll : Q) (callback : nat) (t : World) :
  let z := maxZoom t in
  let x := getTileX (lon lonLat) z in
  let y := getTileY (lat lonLat) z in
  let k := getTileIndex x y z in
  _elevationCache t !! k = None -> _fetchCache t !! k = None ->
  let t' := ellToAltGND lonLat altEll callback t in
  length (promises t') = S (length (promises t)) /\
  promises t' !! length (promises t)
  = Some (mkPromise (stringTemplate x y z) None
            [mkGndCont lonLat altEll callback x y z k (getHeightLonLat lonLat)]) /\
  _fetchCache t' !! k = Some (length (promises t)) /\
  calls t' = calls t.
Proof.
  intros z x y k Hmiss Hrec. cbv zeta. unfold ellToAltGND.
  fold z. fold x. fold y. fold k. rewrite Hmiss, Hrec.
  cbn [loaderFetch]. cbn [_fetchCache set_fetchCache set_promises].
  rewrite lookup_insert_eq. unfold promiseThen.
  cbn [promises set_fetchCache set_promises].
  rewrite list_lookup_middle by reflexivity. cbn [p_result p_src p_conts app].
  cbn [promises _fetchCache calls set_promises set_fetchCache].
  rewrite length_insert, length_app. cbn [length].
  rewrite lookup_insert_eq.
  rewrite list_lookup_insert_eq by (rewrite length_app; cbn [length]; lia).
  repeat split. lia.
Qed.

(** C5.  A fetch that settles with status "abort" creates no entry of the
    elevation cache and runs no callback and no elevation update.  For a
    point query the fetch record of the tile is dropped, so that the next
    request for the tile starts a fetch of its own; for a segment the
    request leaves the queue, the segment is marked not loading, nothing is
    applied to it and no [load] event fires, and a later [loadTerrain]
    queues a new load. *)
Theorem abort_discards_pending :
  (forall (t : World) (pid : nat) (p : Promise) (r : Response),
      promises t !! pid = Some p -> p_result p = None -> status r = abort ->
      let t1 := resolveFetch pid r t in
      _elevationCache t1 = _elevationCache t /\ calls t1 = calls t /\
      dispatched t1 = dispatched t /\ segments t1 = segments t /\
      (forall c, In c (p_conts p) -> _fetchCache t1 !! k_tileIndex c = None) /\
      (forall lonLat altEll callback,
          let z := maxZoom t1 in
          let x := getTileX (lon lonLat) z in
          let y := getTileY (lat lonLat) z in
          (exists c, In c (p_conts p) /\ k_tileIndex c = getTileIndex x y z) ->
          _elevationCache t !! getTileIndex x y z = None ->
          let t2 := getHeightAsync GND lonLat callback altEll t1 in
          length (promises t2) = S (length (promises t1)) /\
          promises t2 !! length (promises t1)
          = Some (mkPromise (stringTemplate x y z) None
                    [mkGndCont lonLat altEll callback x y z (getTileIndex x y z)
                       (getHeightLonLat lonLat)]))) /\
  (forall (t : World) (i : nat) (req : LoadReq) (s : Segment) (r : Response),
      loadQueue t !! i = Some req -> segments t !! l_segment req = Some s ->
      status r = abort ->
      let t1 := resolveLoad i r t in
      _elevationCache t1 = _elevationCache t /\ calls t1 = calls t /\
      dispatched t1 = dispatched t /\
      segments t1 !! l_segment req = Some (set_terrainIsLoading false s) /\
      loadQueue t1 = delete i (loadQueue t) /\
      (forall forceLoading,
          isFree (terrainLock t) = true -> _projection s = EPSG3857 ->
          _elevationCache t !! tileIndex s = None ->
          loadQueue (loadTerrain (l_segment req) forceLoading t1)
          = loadQueue t1 ++
            [mkLoadReq (_getHTTPRequestString (set_loading false true s) t)
               (l_segment req) forceLoading])).
Proof.
  split.
  - intros t pid p r Hp Hres Hr. cbv zeta.
    assert (Ht1 : resolveFetch pid r t
                  = fold_left (fun w c => gndContinuation c r w) (p_conts p)
                      (set_promises (insert pid (mkPromise (p_src p) (Some r) [])) t)).
    { unfold resolveFetch. rewrite Hp, Hres. reflexivity. }
    rewrite Ht1.
    match goal with |- context [fold_left ?f ?ks ?w] =>
      destruct (fold_abort ks r w Hr) as (Hc & Hcalls & Hdel);
      destruct (fold_gndContinuation_bulk ks r w) as [(_ & Hs & Hd & _) _] end.
    cbv zeta in Hc, Hcalls, Hdel.
    split; [exact Hc |]. split; [exact Hcalls |]. split; [exact Hd |].
    split; [exact Hs |]. split; [exact Hdel |].
    intros lonLat altEll callback (c & Hin & Hk) Hmiss. cbn [getHeightAsync].
    match goal with |- context [ellToAltGND _ _ _ ?w] =>
      destruct (ellToAltGND_fresh lonLat altEll callback w) as (Hlen & Hnew & _) end.
    + rewrite Hc. exact Hmiss.
    + rewrite <- Hk. apply Hdel, Hin.
    + split; [exact Hlen | exact Hnew].
  - intros t i req s r Hq Hs Hr. cbv zeta.
    assert (Ht1 : resolveLoad i r t
                  = set_segments (alter (set_terrainIsLoading false) (l_segment req))
                      (set_loadQueue (delete i) t)).
    { unfold resolveLoad. rewrite Hq. unfold loadCallback.
      cbn [segments set_loadQueue]. rewrite Hs, Hr. reflexivity. }
    rewrite Ht1. cbn [_elevationCache calls dispatched segments loadQueue
                        set_segments set_loadQueue].
    split; [reflexivity |]. split; [reflexivity |]. split; [reflexivity |].
    split; [rewrite lookup_alter_eq, Hs; reflexivity |]. split; [reflexivity |].
    intros forceLoading Hfree Hproj Hmiss. unfold loadTerrain.
    cbn [segments terrainLock set_segments set_loadQueue].
    rewrite lookup_alter_eq, Hs. cbn [fmap option_fmap option_map].
    rewrite Hfree. cbv zeta. cbn [_projection tileIndex set_terrainIsLoading set_loading].
    rewrite bool_decide_eq_true_2 by exact Hproj.
    cbn [_elevationCache set_segments set_loadQueue].
    rewrite Hmiss. reflexivity.
Qed.

End Aborted.

(** ** The load event *)

Section LoadEvent.

Context {M : Mercator} {G : Geoid}.

Lemma eventsMatch_frame (t t' : World) :
  segments t' = segments t -> dispatched t' = dispatched t ->
  eventsMatchApplied t -> eventsMatchApplied t'.
Proof.
  unfold eventsMatchApplied, eventsOf. intros -> ->. tauto.
Qed.

Lemma eventsMatch_alter (f : Segment -> Segment) (seg : nat) (t : World) :
  (forall s, terrainApplied (f s) = terrainApplied s) ->
  eventsMatchApplied t -> eventsMatchApplied (set_segments (alter f seg) t).
Proof.
  intros Hf Hinv seg' s'. cbn [segments set_segments]. unfold eventsOf.
  cbn [dispatched set_segments]. rewrite lookup_alter_Some.
  intros [(-> & s & Hs & ->) | [_ Hs]].
  - rewrite Hf. apply Hinv, Hs.
  - apply Hinv, Hs.
Qed.

Lemma eventsMatch_apply (seg : nat) (elevations : option (list Q)) (t : World) :
  (0 < loadHandlers t)%nat ->
  eventsMatchApplied t -> eventsMatchApplied (_applyElevationsData seg elevations t).
Proof.
  intros Hh Hinv seg' s'. unfold _applyElevationsData.
  apply Nat.ltb_lt in Hh. rewrite Hh.
  cbn [segments set_segments set_dispatched]. unfold eventsOf.
  cbn [dispatched set_segments set_dispatched].
  rewrite List.filter_app, map_app. cbn [List.filter ev_segment].
  rewrite lookup_alter_Some. intros [(<- & s & Hs & ->) | [Hne Hs]].
  - rewrite Nat.eqb_refl. cbn [map ev_elevations applyTerrain terrainApplied].
    f_equal. apply Hinv, Hs.
  - apply Nat.eqb_neq in Hne. rewrite Hne. cbn [map]. rewrite app_nil_r.
    apply Hinv, Hs.
Qed.

Lemma step_loadHandlers (t : World) (e : Event) : loadHandlers (step t e) = loadHandlers t.
Proof.
  destruct e as [m p cb a | seg force | pid r | i r | key | key]; cbn [step]; try reflexivity.
  - apply (getHeightAsync_bulk m p cb a t).
  - unfold loadTerrain, _applyElevationsData. destruct (segments t !! seg); [| reflexivity].
    destruct (isFree (terrainLock t)); [| reflexivity]. cbv zeta.
    destruct (bool_decide _); [| reflexivity].
    destruct (_elevationCache _ !! _); [| reflexivity].
    cbn [loadHandlers set_segments]. destruct (0 <? loadHandlers t)%nat; reflexivity.
  - apply (resolveFetch_bulk pid r t).
  - unfold resolveLoad. destruct (loadQueue t !! i) as [req|]; [| reflexivity].
    unfold loadCallback, _applyElevationsData. cbn [segments set_loadQueue].
    destruct (segments t !! l_segment req); [| reflexivity].
    destruct (status r); cbn [loadHandlers set_loadQueue set_elevationCache set_segments];
      try destruct (0 <? loadHandlers t)%nat; reflexivity.
Qed.

Lemma run_loadHandlers (es : list Event) (t : World) :
  loadHandlers (run es t) = loadHandlers t.
Proof.
  revert t. induction es as [|e es IH]; intros t; [reflexivity |].
  cbn [run fold_left]. fold (run es (step t e)). rewrite IH. apply step_loadHandlers.
Qed.

Lemma step_eventsMatch (t : World) (e : Event) :
  (0 < loadHandlers t)%nat -> eventsMatchApplied t -> eventsMatchApplied (step t e).
Proof.
  intros Hh Hinv.
  destruct e as [m p cb a | seg force | pid r | i r | key | key]; cbn [step].
  - destruct (getHeightAsync_bulk m p cb a t) as (_ & Hs & Hd & _).
    eapply eventsMatch_frame; eassumption.
  - unfold loadTerrain. destruct (segments t !! seg); [| exact Hinv].
    destruct (isFree (terrainLock t)).
    + cbv zeta.
      assert (Hinv' : eventsMatchApplied (set_segments (alter (set_loading false true) seg) t))
        by (apply eventsMatch_alter; [reflexivity | exact Hinv]).
      destruct (bool_decide _); [| exact Hinv'].
      destruct (_elevationCache _ !! _).
      * apply eventsMatch_apply; [exact Hh | exact Hinv'].
      * eapply eventsMatch_frame; [| | exact Hinv']; reflexivity.
    + apply eventsMatch_alter; [reflexivity | exact Hinv].
  - destruct (resolveFetch_bulk pid r t) as (_ & Hs & Hd & _).
    eapply eventsMatch_frame; eassumption.
  - unfold resolveLoad. destruct (loadQueue t !! i) as [req|]; [| exact Hinv].
    assert (Hinv' : eventsMatchApplied (set_loadQueue (delete i) t))
      by (eapply eventsMatch_frame; [| | exact Hinv]; reflexivity).
    unfold loadCallback. destruct (segments _ !! l_segment req); [| exact Hinv'].
    destruct (status r).
    + apply eventsMatch_apply; [exact Hh |].
      eapply eventsMatch_frame; [| | exact Hinv']; reflexivity.
    + apply eventsMatch_alter; [reflexivity | exact Hinv'].
    + apply eventsMatch_apply; [exact Hh | exact Hinv'].
    + apply eventsMatch_alter; [reflexivity | exact Hinv'].
  - eapply eventsMatch_frame; [| | exact Hinv]; reflexivity.
  - eapply eventsMatch_frame; [| | exact Hinv]; reflexivity.
Qed.

Lemma run_eventsMatch (es : list Event) (t : World) :
  (0 < loadHandlers t)%nat -> eventsMatchApplied t -> eventsMatchApplied (run es t).
Proof.
  revert t. induction es as [|e es IH]; intros t Hh Hinv; [exact Hinv |].
  cbn [run fold_left]. apply IH.
  - rewrite step_loadHandlers. exact Hh.
  - apply step_eventsMatch; assumption.
Qed.

(** What the callback of a bulk load dispatches, by status. *)
Lemma resolveLoad_dispatch (t : World) (i : nat) (req : LoadReq) (s : Segment) (r : Response) :
  (0 < loadHandlers t)%nat ->
  loadQueue t !! i = Some req -> segments t !! l_segment req = Some s ->
  dispatched (resolveLoad i r t)
  = dispatched t ++
    match status r with
    | ready => [mkLoadEvent (Some (_createHeights (data r))) (l_segment req)]
    | error => [mkLoadEvent None (l_segment req)]
    | abort | otherStatus => []
    end.
Proof.
  intros Hh Hq Hs. apply Nat.ltb_lt in Hh.
  unfold resolveLoad. rewrite Hq. unfold loadCallback, _applyElevationsData.
  cbn [segments set_loadQueue]. rewrite Hs.
  destruct (status r); cbn [loadHandlers set_loadQueue set_elevationCache];
    rewrite ?Hh; cbn [dispatched set_segments set_dispatched set_elevationCache set_loadQueue];
    rewrite ?app_nil_r; reflexivity.
Qed.

(** C9 (as amended).  While a handler is registered, the [load] event is
    dispatched exactly once for every application of elevations to a
    segment, with the applied elevations and the segment as its payload:
    in every reachable state the elevations applied to a segment are, in
    order, those of the events dispatched for it.  This covers the decoded
    elevations of a successful fetch and equally the [null] elevations
    applied after a fetch that failed with status "error"; nothing is
    dispatched on "abort". *)
Theorem load_event_per_applied_elevations
    (zoom : Z) (handlers : nat) (segs : gmap nat Segment) (es : list Event) :
  (0 < handlers)%nat ->
  (forall seg s, segs !! seg = Some s -> terrainApplied s = []) ->
  let t := run es (newWorld zoom handlers segs) in
  eventsMatchApplied t /\
  (forall i req s r,
      loadQueue t !! i = Some req -> segments t !! l_segment req = Some s ->
      dispatched (resolveLoad i r t)
      = dispatched t ++
        match status r with
        | ready => [mkLoadEvent (Some (_createHeights (data r))) (l_segment req)]
        | error => [mkLoadEvent None (l_segment req)]
        | abort | otherStatus => []
        end).
Proof.
  intros Hh Hinit. cbv zeta. split.
  - apply run_eventsMatch; [exact Hh |].
    intros seg s Hs. rewrite (Hinit seg s Hs). reflexivity.
  - intros i req s r Hq Hs. apply (resolveLoad_dispatch _ i req s r); try assumption.
    rewrite run_loadHandlers. exact Hh.
Qed.

End LoadEvent.

(** C9 (as stated) fails: a bulk load that fails with status "error" fires
    the [load] event all the same, carrying [null] instead of decoded
    elevations, although no tile was loaded. *)
Lemma load_event_fires_on_error :
  ~ (forall (es : list Event) (ev : LoadEvent),
        In ev (dispatched (@run EarthSample.mercator EarthSample.geoid es EarthSample.world)) ->
        exists hs, ev_elevations ev = Some hs).
Proof.
  intros H.
  destruct (H [LoadTerrain 0 false; ResolveLoad 0 (mkResponse error [])]
              (mkLoadEvent None 0)) as [hs Hhs].
  - vm_compute. left. reflexivity.
  - discriminate.
Qed.

(** ** Ground-height interpolation *)

Section Interpolation.

Lemma div_fin (x y : Q) : ~ y == 0 -> JS.div (JS.Fin x) (JS.Fin y) = JS.Fin (x / y).
Proof.
  intros Hy. unfold JS.div, JS.is0.
  destruct (Qeq_bool y 0) eqn:E; [| reflexivity].
  apply Qeq_bool_iff in E. contradiction.
Qed.

Lemma leb_fin (x y : Q) : JS.leb (JS.Fin x) (JS.Fin y) = true <-> x <= y.
Proof. apply Qle_bool_iff. Qed.

Lemma ratio_unit (n d : Q) :
  (0 < d /\ 0 <= n /\ n <= d) \/ (d < 0 /\ d <= n /\ n <= 0) ->
  0 <= n / d /\ n / d <= 1.
Proof.
  intros [(Hd & Hn1 & Hn2) | (Hd & Hn1 & Hn2)].
  - split; [apply Qle_shift_div_l | apply Qle_shift_div_r]; lra.
  - assert (E : n / d == (- n) / (- d)) by (field; lra).
    rewrite E. split; [apply Qle_shift_div_l | apply Qle_shift_div_r]; lra.
Qed.

Lemma ratio_rest (n1 n2 d : Q) :
  ~ d == 0 -> 1 + - (n1 / d) + - (n2 / d) == (d - n1 - n2) / d.
Proof. intros Hd. field. auto. Qed.

(** The lower-left triangle of a cell holds the points below its diagonal. *)
Lemma barycentric_lower (px py X Y s : Q) :
  0 < s -> X <= px -> Y <= py -> (px - X) + (py - Y) <= s ->
  exists c0 c1 c2,
    cartesianToBarycentricLonLat (mkLonLat px py)
      (JS.Fin X, JS.Fin Y) (JS.Fin (X + s), JS.Fin Y) (JS.Fin X, JS.Fin (Y + s))
    = (true, (JS.Fin c0, JS.Fin c1, JS.Fin c2)).
Proof.
  intros Hs Hx Hy Hd. unfold cartesianToBarycentricLonLat.
  cbn [lon lat vlon vlat fst snd JS.sub JS.add JS.neg JS.mul].
  rewrite !div_fin by (intros E; nra).
  cbn [JS.sub JS.add JS.neg JS.leb].
  do 3 eexists. f_equal.
  set (det := (Y + - (Y + s)) * (X + - X) + (X + - (X + s)) * (Y + - (Y + s))).
  set (n1 := (Y + - (Y + s)) * (px + - X) + (X + - (X + s)) * (py + - (Y + s))).
  set (n2 := - (Y + - (Y + s)) * (px + - X) + (X + - X) * (py + - (Y + s))).
  assert (Hdet : 0 < det) by (unfold det; nra).
  assert (H1 : 0 <= n1 / det /\ n1 / det <= 1)
    by (apply ratio_unit; left; unfold n1, det; repeat split; nra).
  assert (H2 : 0 <= n2 / det /\ n2 / det <= 1)
    by (apply ratio_unit; left; unfold n2, det; repeat split; nra).
  assert (H3 : 0 <= (det - n1 - n2) / det /\ (det - n1 - n2) / det <= 1)
    by (apply ratio_unit; left; unfold n1, n2, det; repeat split; nra).
  rewrite <- (ratio_rest n1 n2 det) in H3 by lra.
  rewrite !andb_true_iff, !Qle_bool_iff. tauto.
Qed.

(** The upper-right triangle holds the points above the diagonal. *)
Lemma barycentric_upper (px py X Y s : Q) :
  0 < s -> px <= X + s -> py <= Y + s -> s <= (px - X) + (py - Y) ->
  exists c0 c1 c2,
    cartesianToBarycentricLonLat (mkLonLat px py)
      (JS.Fin (X + s), JS.Fin Y) (JS.Fin X, JS.Fin (Y + s)) (JS.Fin (X + s), JS.Fin (Y + s))
    = (true, (JS.Fin c0, JS.Fin c1, JS.Fin c2)).
Proof.
  intros Hs Hx Hy Hd. unfold cartesianToBarycentricLonLat.
  cbn [lon lat vlon vlat fst snd JS.sub JS.add JS.neg JS.mul].
  rewrite !div_fin by (intros E; nra).
  cbn [JS.sub JS.add JS.neg JS.leb].
  do 3 eexists. f_equal.
  set (det := (Y + s + - (Y + s)) * (X + s + - (X + s)) + (X + s + - X) * (Y + - (Y + s))).
  set (n1 := (Y + s + - (Y + s)) * (px + - (X + s)) + (X + s + - X) * (py + - (Y + s))).
  set (n2 := - (Y + - (Y + s)) * (px + - (X + s)) + (X + s + - (X + s)) * (py + - (Y + s))).
  assert (Hdet : det < 0) by (unfold det; nra).
  assert (H1 : 0 <= n1 / det /\ n1 / det <= 1)
    by (apply ratio_unit; right; unfold n1, det; repeat split; nra).
  assert (H2 : 0 <= n2 / det /\ n2 / det <= 1)
    by (apply ratio_unit; right; unfold n2, det; repeat split; nra).
  assert (H3 : 0 <= (det - n1 - n2) / det /\ (det - n1 - n2) / det <= 1)
    by (apply ratio_unit; right; unfold n1, n2, det; repeat split; nra).
  rewrite <- (ratio_rest n1 n2 det) in H3 by lra.
  rewrite !andb_true_iff, !Qle_bool_iff. tauto.
Qed.

Lemma index_flat (n : nat) (q : Q) (k : Z) :
  q == inject_Z k -> (0 <= k < Z.of_nat n)%Z ->
  JS.index (repeat 0 n) (JS.Fin q) = JS.Fin 0.
Proof.
  intros Hq Hk. unfold JS.index, JS.floor.
  assert (Hfl : Qfloor q = k) by (rewrite (Qfloor_comp _ _ Hq); apply Qfloor_Z).
  rewrite Hfl.
  assert (Heq : Qeq_bool q (inject_Z k) = true) by (apply Qeq_bool_iff; exact Hq).
  rewrite Heq. replace (0 <=? k)%Z with true by (symmetry; apply Z.leb_le; lia).
  cbn [andb]. rewrite nth_error_repeat by lia. reflexivity.
Qed.

Section FlatGrid.

Context {M : Mercator}.

Lemma gridCell_flat (lonLat : LonLat) (ext : Extent) :
  let merc := forward lonLat in
  0 < getWidth ext -> getHeight ext == getWidth ext ->
  lon (southWest ext) <= lon merc -> lon merc < lon (northEast ext) ->
  lat (southWest ext) < lat merc -> lat merc <= lat (northEast ext) ->
  exists X Y s,
    gridCell lonLat (mkTileData (repeat 0 1024) ext)
    = mkGridCell (JS.Fin 0) (JS.Fin 0) (JS.Fin 0) (JS.Fin 0)
        (JS.Fin X, JS.Fin Y) (JS.Fin (X + s), JS.Fin Y)
        (JS.Fin X, JS.Fin (Y + s)) (JS.Fin (X + s), JS.Fin (Y + s)) /\
    0 < s /\ X <= lon merc /\ lon merc <= X + s /\ Y <= lat merc /\ lat merc <= Y + s.
Proof.
  intros merc Hw Hsq Hx1 Hx2 Hy1 Hy2. unfold gridCell. fold merc.
  cbn [heights extent]. rewrite repeat_length.
  change (JS.sqrtLength 1024) with (JS.Fin 32).
  cbn [JS.sub JS.add JS.neg].
  rewrite div_fin by (intros E; lra).
  set (s := getWidth ext / (32 + - (1))).
  assert (Hs : 0 < s) by (unfold s; apply Qlt_shift_div_l; lra).
  assert (Hws : getWidth ext == 31 * s) by (unfold s; field; lra).
  rewrite !(div_fin _ s) by lra.
  cbn [JS.ceilN JS.floorN JS.neg JS.add JS.sub JS.mul].
  unfold JS.ceil, JS.floor.
  set (c := Qceiling ((lat merc + - lat (southWest ext)) / s)).
  set (j := Qfloor ((lon merc + - lon (southWest ext)) / s)).
  cbn [vlon vlat fst snd JS.add].
  (* bounds of the row and the column *)
  pose proof (Qle_ceiling ((lat merc + - lat (southWest ext)) / s)) as Hc1.
  pose proof (Qceiling_lt ((lat merc + - lat (southWest ext)) / s)) as Hc2.
  pose proof (Qfloor_le ((lon merc + - lon (southWest ext)) / s)) as Hj1.
  pose proof (Qlt_floor ((lon merc + - lon (southWest ext)) / s)) as Hj2.
  fold c in Hc1, Hc2. fold j in Hj1, Hj2.
  unfold Z.sub in Hc2. rewrite inject_Z_plus in Hc2, Hj2.
  change (inject_Z (Z.opp 1)) with (- (1)) in Hc2. change (inject_Z 1) with 1 in Hj2.
  unfold getHeight, getWidth in *.
  assert (Hry : (lat merc + - lat (southWest ext)) / s * s == lat merc + - lat (southWest ext))
    by (field; lra).
  assert (Hrx : (lon merc + - lon (southWest ext)) / s * s == lon merc + - lon (southWest ext))
    by (field; lra).
  set (ry := (lat merc + - lat (southWest ext)) / s) in *.
  set (rx := (lon merc + - lon (southWest ext)) / s) in *.
  assert (Hry0 : 0 < ry) by (unfold ry; apply Qlt_shift_div_l; lra).
  assert (Hry1 : ry <= 31) by (unfold ry; apply Qle_shift_div_r; lra).
  assert (Hrx0 : 0 <= rx) by (unfold rx; apply Qle_shift_div_l; lra).
  assert (Hrx1 : rx < 31) by (unfold rx; apply Qlt_shift_div_r; lra).
  assert (Hc : (1 <= c <= 31)%Z).
  { assert (H1 : inject_Z 0 < inject_Z c) by (change (inject_Z 0) with 0; lra).
    assert (H2 : inject_Z c < inject_Z 32) by (change (inject_Z 32) with 32; lra).
    rewrite <- Zlt_Qlt in H1, H2. lia. }
  assert (Hj : (0 <= j <= 30)%Z).
  { assert (H1 : inject_Z (-1) < inject_Z j) by (change (inject_Z (-1)) with (- (1)); lra).
    assert (H2 : inject_Z j < inject_Z 31) by (change (inject_Z 31) with 31; lra).
    rewrite <- Zlt_Qlt in H1, H2. lia. }
  rewrite (index_flat 1024 _ ((32 - c) * 32 + j)%Z);
    [| rewrite inject_Z_plus, inject_Z_mult; unfold Z.sub;
       rewrite inject_Z_plus, inject_Z_opp; change (inject_Z 32) with 32; ring | lia].
  rewrite (index_flat 1024 _ ((32 - c) * 32 + j + 1)%Z);
    [| rewrite !inject_Z_plus, inject_Z_mult; unfold Z.sub;
       rewrite inject_Z_plus, inject_Z_opp; change (inject_Z 32) with 32;
       change (inject_Z 1) with 1; ring | lia].
  rewrite (index_flat 1024 _ ((31 - c) * 32 + j)%Z);
    [| rewrite inject_Z_plus, inject_Z_mult; unfold Z.sub;
       rewrite inject_Z_plus, inject_Z_opp; change (inject_Z 32) with 32;
       change (inject_Z 31) with 31; ring | lia].
  rewrite (index_flat 1024 _ ((31 - c) * 32 + j + 1)%Z);
    [| rewrite !inject_Z_plus, inject_Z_mult; unfold Z.sub;
       rewrite inject_Z_plus, inject_Z_opp; change (inject_Z 32) with 32;
       change (inject_Z 31) with 31; change (inject_Z 1) with 1; ring | lia].
  eexists _, _, s. split; [reflexivity |].
  split; [exact Hs |].
  assert (Hcs : inject_Z c * s - s < ry * s /\ ry * s <= inject_Z c * s) by (split; nra).
  assert (Hjs : inject_Z j * s <= rx * s /\ rx * s < inject_Z j * s + s) by (split; nra).
  repeat split; lra.
Qed.

(** Over a proper cell the coordinates in the lower-left triangle are
    finite, whether or not the triangle holds the point. *)
Lemma barycentric_lower_finite (px py X Y s : Q) :
  0 < s ->
  exists b c0 c1 c2,
    cartesianToBarycentricLonLat (mkLonLat px py)
      (JS.Fin X, JS.Fin Y) (JS.Fin (X + s), JS.Fin Y) (JS.Fin X, JS.Fin (Y + s))
    = (b, (JS.Fin c0, JS.Fin c1, JS.Fin c2)).
Proof.
  intros Hs. unfold cartesianToBarycentricLonLat.
  cbn [lon lat vlon vlat fst snd JS.sub JS.add JS.neg JS.mul].
  rewrite !div_fin by (intros E; nra).
  cbn [JS.sub JS.add JS.neg JS.leb].
  do 4 eexists. reflexivity.
Qed.

(** The ground height interpolated over an all-zero 32 x 32 grid is zero
    for every point that its tile holds (west and north borders
    included). *)
Lemma _getGroundHeight_flat (lonLat : LonLat) (ext : Extent) :
  0 < getWidth ext -> getHeight ext == getWidth ext ->
  lon (southWest ext) <= lon (forward lonLat) -> lon (forward lonLat) < lon (northEast ext) ->
  lat (southWest ext) < lat (forward lonLat) -> lat (forward lonLat) <= lat (northEast ext) ->
  exists g, _getGroundHeight lonLat (mkTileData (repeat 0 1024) ext) = JS.Fin g /\ g == 0.
Proof.
  intros Hw Hsq Hx1 Hx2 Hy1 Hy2.
  destruct (gridCell_flat lonLat ext Hw Hsq Hx1 Hx2 Hy1 Hy2)
    as (X & Y & s & Hcell & Hs & HX1 & HX2 & HY1 & HY2).
  unfold _getGroundHeight. rewrite Hcell. cbn [h0 h1 h2 h3 v0 v1 v2 v3].
  destruct (forward lonLat) as [px py]. cbn [lon lat] in *.
  destruct (barycentric_lower_finite px py X Y s Hs) as (b & c0 & c1 & c2 & Hlow).
  rewrite Hlow. destruct b.
  - cbn [JS.mul JS.add]. eexists. split; [reflexivity | ring].
  - destruct (Qlt_le_dec s ((px - X) + (py - Y))) as [Hup | Hdown].
    + destruct (barycentric_upper px py X Y s Hs HX2 HY2) as (d0 & d1 & d2 & Hupper);
        [lra |].
      rewrite Hupper. cbn [JS.mul JS.add]. eexists. split; [reflexivity | ring].
    + destruct (barycentric_lower px py X Y s Hs HX1 HY1 Hdown) as (d0 & d1 & d2 & Hl).
      rewrite Hl in Hlow. discriminate.
Qed.

End FlatGrid.

End Interpolation.

(** ** A point outside both triangles *)

Section OutsideTriangles.

Context {M : Mercator} {G : Geoid}.

(** C8 (fails in the code).  When neither triangle of the grid cell holds
    the projected point, [_getGroundHeight] returns [undefined]; the
    ground closure adds it to the undulation all the same, so that the
    callback of a cached query receives [NaN] and not the mean-sea-level
    value [altEll - undulation]. *)
Theorem ground_query_outside_triangles_gets_NaN (t : World) (lonLat : LonLat)
    (altEll : Q) (callback : nat) (cache : TileData) :
  let z := maxZoom t in
  _elevationCache t !! getTileIndex (getTileX (lon lonLat) z) (getTileY (lat lonLat) z) z
  = Some cache ->
  let c := gridCell lonLat cache in
  fst (cartesianToBarycentricLonLat (forward lonLat) (v0 c) (v1 c) (v2 c)) = false ->
  fst (cartesianToBarycentricLonLat (forward lonLat) (v1 c) (v2 c) (v3 c)) = false ->
  calls (getHeightAsync GND lonLat callback altEll t) = calls t ++ [(callback, JS.NaN)] /\
  ~ JS.same JS.NaN (JS.Fin (altEll - getHeightLonLat lonLat)).
Proof.
  intros z Hhit c H012 H123. split; [| intros []].
  cbn [getHeightAsync]. rewrite (ellToAltGND_hit t lonLat altEll callback cache Hhit).
  cbn [calls invoke set_calls]. do 2 f_equal. f_equal.
  unfold _getGroundHeight. fold c.
  destruct (cartesianToBarycentricLonLat (forward lonLat) (v0 c) (v1 c) (v2 c))
    as [b1 [[c0 c1] c2]].
  destruct (cartesianToBarycentricLonLat (forward lonLat) (v1 c) (v2 c) (v3 c))
    as [b2 [[d0 d1] d2]].
  cbn [fst] in H012, H123. subst b1 b2. reflexivity.
Qed.

End OutsideTriangles.

Lemma ground_query_outside_triangles_gets_NaN_witness :
  calls (@getHeightAsync EarthSample.mercator EarthSample.geoid GND EarthSample.query 3 100
           EarthSample.truncatedWorld)
  = [(3%nat, JS.NaN)].
Proof.
  apply (@ground_query_outside_triangles_gets_NaN EarthSample.mercator EarthSample.geoid
           EarthSample.truncatedWorld EarthSample.query 100 3
           (mkTileData [5] (@getTileExtent EarthSample.mercator 8510 5520 14)));
    vm_compute; reflexivity.
Defined.

(** ** The scenario of the point (7, 50.5) *)

Section Scenario.

Context {M : Mercator} {G : Geoid}.

Lemma getTileExtent_square (x y z : Z) :
  0 < POLE2 -> (0 <= z <= 30)%Z ->
  0 < getWidth (getTileExtent x y z) /\
  getHeight (getTileExtent x y z) == getWidth (getTileExtent x y z).
Proof.
  intros Hp Hz. unfold getTileExtent, getWidth, getHeight.
  cbn [lon lat southWest northEast].
  pose proof (shl1_pos z Hz) as Hpz.
  assert (Hsize : 0 < POLE2 / inject_Z (JS.shl1 z)) by (apply Qlt_shift_div_l; lra).
  split; [lra | ring].
Qed.

(** A mercator module that indexes tiles by the floor of the projected
    coordinates, as [getTileXY] does in the main band, places every
    projected point in the extent of its tile: west and north borders
    included, east and south borders excluded. *)
Lemma floor_indexed_tile_holds_point (p : LonLat) (z : Z) :
  0 < POLE2 -> (0 <= z <= 30)%Z ->
  let size := POLE2 / inject_Z (JS.shl1 z) in
  let e := getTileExtent (JS.floor ((POLE + lon (forward p)) / size))
             (JS.floor ((POLE - lat (forward p)) / size)) z in
  lon (southWest e) <= lon (forward p) /\ lon (forward p) < lon (northEast e) /\
  lat (southWest e) < lat (forward p) /\ lat (forward p) <= lat (northEast e).
Proof.
  intros Hpole Hz size e. subst e. unfold getTileExtent. fold size.
  cbn [lon lat southWest northEast].
  pose proof (shl1_pos z Hz) as Hpz.
  assert (Hsize : 0 < size) by (unfold size; apply Qlt_shift_div_l; lra).
  destruct (floor_cell (POLE + lon (forward p)) size Hsize) as [Hx1 Hx2].
  destruct (floor_cell (POLE - lat (forward p)) size Hsize) as [Hy1 Hy2].
  repeat split; lra.
Qed.

(** The first ground-mode request on a new provider. *)
Lemma first_request (zoom : Z) (handlers : nat) (segs : gmap nat Segment)
    (lonLat : LonLat) (altEll : Q) (callback : nat) :
  let x := getTileX (lon lonLat) zoom in
  let y := getTileY (lat lonLat) zoom in
  let k := mkGndCont lonLat altEll callback x y zoom (getTileIndex x y zoom)
             (getHeightLonLat lonLat) in
  getHeightAsync GND lonLat callback altEll (newWorld zoom handlers segs)
  = mkWorld zoom ∅ {[ getTileIndex x y zoom := 0%nat ]} None
      [mkPromise (stringTemplate x y zoom) None [k]] [] ∅ segs handlers [] [].
Proof.
  cbv zeta. cbn [getHeightAsync]. unfold ellToAltGND.
  cbn [maxZoom newWorld _elevationCache _fetchCache]. rewrite !lookup_empty.
  cbn [loaderFetch promises length app set_promises set_fetchCache _fetchCache
       maxZoom _elevationCache _urlRewriteCallback loadQueue terrainLock segments
       loadHandlers dispatched calls].
  rewrite lookup_insert_eq. unfold promiseThen.
  cbn [promises lookup list_lookup p_result p_src p_conts app].
  cbn [set_promises insert list_insert promises maxZoom _elevationCache _fetchCache
       _urlRewriteCallback loadQueue terrainLock segments loadHandlers dispatched calls].
  reflexivity.
Qed.

(** C7.  On a provider with an empty cache and [maxZoom] 14, a ground-mode
    query at (7, 50.5) issues exactly one fetch, addressed to the tile that
    [getTileX]/[getTileY] compute for the point at zoom 14, and calls
    nothing back yet; when that fetch settles successfully with a 32 x 32
    grid of zeros, the callback receives exactly [altEll - undulation].  The
    mercator module is assumed to place the projected point in the extent of
    the tile it computes for it, as its floor-based indexing does. *)
Theorem ground_query_scenario (altEll : Q) (callback handlers : nat)
    (segs : gmap nat Segment) :
  let p := mkLonLat 7 50.5 in
  let x := getTileX 7 14 in
  let y := getTileY 50.5 14 in
  let e := getTileExtent x y 14 in
  0 < POLE2 ->
  lon (southWest e) <= lon (forward p) -> lon (forward p) < lon (northEast e) ->
  lat (southWest e) < lat (forward p) -> lat (forward p) <= lat (northEast e) ->
  let t1 := getHeightAsync GND p callback altEll (newWorld 14 handlers segs) in
  let t2 := resolveFetch 0 (mkResponse ready (repeat 0 1024)) t1 in
  promises t1
  = [mkPromise (stringTemplate x y 14) None
       [mkGndCont p altEll callback x y 14 (getTileIndex x y 14) (getHeightLonLat p)]] /\
  loadQueue t1 = [] /\ calls t1 = [] /\
  length (promises t2) = 1%nat /\ loadQueue t2 = [] /\
  exists v, calls t2 = [(callback, JS.Fin v)] /\ v == altEll - getHeightLonLat p.
Proof.
  intros p x y e Hpole Hx1 Hx2 Hy1 Hy2 t1 t2.
  assert (Ht1 : t1 = mkWorld 14 ∅ {[ getTileIndex x y 14 := 0%nat ]} None
                  [mkPromise (stringTemplate x y 14) None
                     [mkGndCont p altEll callback x y 14 (getTileIndex x y 14)
                        (getHeightLonLat p)]] [] ∅ segs handlers [] [])
    by apply first_request.
  destruct (getTileExtent_square x y 14 Hpole ltac:(lia)) as [Hw Hsq].
  destruct (_getGroundHeight_flat p e Hw Hsq Hx1 Hx2 Hy1 Hy2) as (g & Hg & Hg0).
  subst t2. rewrite Ht1. cbn [promises loadQueue calls].
  split; [reflexivity |]. split; [reflexivity |]. split; [reflexivity |].
  unfold resolveFetch.
  cbn [promises lookup list_lookup p_result p_src p_conts fold_left].
  unfold gndContinuation.
  cbn [status data k_x k_y k_z k_tileIndex k_callback k_altEll k_altMsl k_lonLat
       _createHeights].
  fold e. rewrite Hg.
  cbn [JS.sub JS.add JS.neg invoke set_calls set_elevationCache set_promises
       promises loadQueue calls length insert list_insert app].
  split; [reflexivity |]. split; [reflexivity |].
  eexists. split; [reflexivity |]. lra.
Qed.

End Scenario.

(** ** Picking colours shared between renderer instances *)

Module PickingFacts.

Import RendererEvents.

Lemma sameColor_refl (c : Color) : sameColor c c = true.
Proof.
  destruct c as [[c0 c1] c2]. unfold sameColor. rewrite !Z.eqb_refl. reflexivity.
Qed.

Lemma sameColor_sym (a b : Color) : sameColor a b = sameColor b a.
Proof.
  destruct a as [[a0 a1] a2], b as [[b0 b1] b2]. unfold sameColor.
  rewrite (Z.eqb_sym a0), (Z.eqb_sym a1), (Z.eqb_sym a2). reflexivity.
Qed.

(** A call on an instance that holds no button and points at a colour that
    is not black: the module variables it leaves and the events it
    dispatches, as functions of the module variables it found. *)
Lemma entityPickingEvents_lit (this : Instance) (g : ModuleState) :
  held this = false -> NOTBLACK (pointerColor this) = true ->
  snd (fst (entityPickingEvents this g))
  = mkModuleState 0 (pointerColor this) (pointerColor this) (_currPickingColor g) /\
  snd (entityPickingEvents this g)
  = if sameColor (pointerColor this) (_currPickingColor g) then []
    else
      (if NOTBLACK (_currPickingColor g)
       then match getPickingObjectArr (renderer this) (_currPickingColor g) with
            | Some po => leave po
            | None => []
            end
       else []) ++
      match getPickingObjectArr (renderer this) (pointerColor this) with
      | Some co => enter co
      | None => []
      end.
Proof.
  intros Hheld Hlit. unfold entityPickingEvents.
  unfold held in Hheld. rewrite Hheld. cbn [negb].
  fold (pointerColor this).
  assert (Hblack : ISBLACK (pointerColor this) = false).
  { unfold NOTBLACK in Hlit. destruct (ISBLACK (pointerColor this)); [discriminate | reflexivity]. }
  rewrite Hblack. cbn [andb].
  destruct (sameColor (pointerColor this) (_currPickingColor g)); cbn [negb fst snd].
  - split; reflexivity.
  - destruct (NOTBLACK (_currPickingColor g));
      [destruct (getPickingObjectArr (renderer this) (_currPickingColor g)) |];
      destruct (getPickingObjectArr (renderer this) (pointerColor this));
      cbn [fst snd app]; rewrite ?app_nil_r; split; reflexivity.
Qed.

(** C10.  The picking colours are variables of the module, not of the
    instance: a call of [entityPickingEvents] on instance [a] overwrites
    the current and previous colours that instance [b] reads next.  An
    instance [b] that keeps pointing at its object [co] dispatches nothing
    when it runs on its own, but dispatches enter events for [co] again
    once [a] has run in between. *)
Theorem picking_colours_shared_between_instances
    (a b : Instance) (g : ModuleState) (co : PickingObject) :
  held a = false -> held b = false ->
  NOTBLACK (pointerColor a) = true -> NOTBLACK (pointerColor b) = true ->
  sameColor (pointerColor a) (pointerColor b) = false ->
  _currPickingColor g = pointerColor b ->
  getPickingObjectArr (renderer b) (pointerColor b) = Some co ->
  rendererEvents co = true ->
  let g1 := snd (fst (entityPickingEvents a g)) in
  _currPickingColor g1 = pointerColor a /\
  _prevPickingColor g1 = _currPickingColor g /\
  snd (entityPickingEvents b g) = [] /\
  exists leaves,
    snd (entityPickingEvents b g1)
    = leaves ++ [(mouseenter, objectId co); (touchenter, objectId co)].
Proof.
  intros Ha Hb Hla Hlb Hdiff Hcur Hco Hev g1.
  destruct (entityPickingEvents_lit a g Ha Hla) as [Hg1 _].
  destruct (entityPickingEvents_lit b g Hb Hlb) as [_ Hevb].
  destruct (entityPickingEvents_lit b g1 Hb Hlb) as [_ Hevb1].
  subst g1. rewrite Hg1 in *. cbn [_currPickingColor _prevPickingColor] in *.
  split; [reflexivity |]. split; [reflexivity |]. split.
  - rewrite Hevb, Hcur, sameColor_refl. reflexivity.
  - rewrite Hevb1, sameColor_sym, Hdiff, Hco. unfold enter. rewrite Hev.
    eexists. reflexivity.
Qed.

Lemma picking_colours_shared_between_instances_witness :
  snd (entityPickingEvents globeB
         (mkModuleState 0 (0, 20, 0)%Z (0, 20, 0)%Z (0, 0, 0)%Z)) = [] /\
  exists leaves,
    snd (entityPickingEvents globeB
           (snd (fst (entityPickingEvents globeA
                        (mkModuleState 0 (0, 20, 0)%Z (0, 20, 0)%Z (0, 0, 0)%Z)))))
    = leaves ++ [(mouseenter, 2%nat); (touchenter, 2%nat)].
Proof.
  destruct (picking_colours_shared_between_instances globeA globeB
              (mkModuleState 0 (0, 20, 0)%Z (0, 20, 0)%Z (0, 0, 0)%Z)
              (mkPickingObject 2 true)
              eq_refl eq_refl eq_refl eq_refl eq_refl eq_refl eq_refl eq_refl)
    as (_ & _ & Halone & Hafter).
  split; [exact Halone | exact Hafter].
Defined.

End PickingFacts.

(** ** The theorems at the sample provider *)

Section EarthSampleRuns.

#[local] Existing Instance EarthSample.mercator.
#[local] Existing Instance EarthSample.geoid.


Lemma fetch_error_caches_sentinel_witness :
  let t1 := resolveFetch 0 (mkResponse error []) EarthSample.pendingWorld in
  hasSentinel EarthSample.tile t1 /\
  calls t1 = [(3%nat, JS.Fin (100 - 47))].
Proof.
  assert (Hp : promises EarthSample.pendingWorld !! 0%nat = Some EarthSample.pendingPromise)
    by (vm_compute; reflexivity).
  destruct (fetch_error_caches_sentinel EarthSample.pendingWorld 0
              EarthSample.pendingPromise (mkResponse error []) EarthSample.continuation
              Hp eq_refl (or_introl eq_refl) eq_refl) as (Hsent & Hcalls & _).
  split; [exact Hsent | exact Hcalls].
Defined.

Lemma abort_discards_pending_witness :
  _elevationCache (resolveFetch 0 (mkResponse abort []) EarthSample.pendingWorld)
  = _elevationCache EarthSample.pendingWorld /\
  dispatched (resolveLoad 0 (mkResponse abort []) EarthSample.queuedWorld)
  = dispatched EarthSample.queuedWorld.
Proof.
  destruct abort_discards_pending as [Hfetch Hload].
  assert (Hp : promises EarthSample.pendingWorld !! 0%nat = Some EarthSample.pendingPromise)
    by (vm_compute; reflexivity).
  assert (Hq : loadQueue EarthSample.queuedWorld !! 0%nat
               = Some (mkLoadReq EarthSample.tile 0 false))
    by (vm_compute; reflexivity).
  assert (Hs : segments EarthSample.queuedWorld !! 0%nat
               = Some (set_loading false true EarthSample.segment))
    by (vm_compute; reflexivity).
  split.
  - apply (Hfetch EarthSample.pendingWorld 0%nat EarthSample.pendingPromise
             (mkResponse abort []) Hp eq_refl eq_refl).
  - apply (Hload EarthSample.queuedWorld 0%nat (mkLoadReq EarthSample.tile 0 false)
             (set_loading false true EarthSample.segment) (mkResponse abort [])
             Hq Hs eq_refl).
Defined.

Lemma getHeightAsync_ground_cache_hit_witness :
  calls (getHeightAsync GND EarthSample.query 3 100 Samples.sentinelWorld)
  = [(3%nat, JS.NaN)] /\
  promises (getHeightAsync GND EarthSample.query 3 100 Samples.sentinelWorld) = [] /\
  exists v,
    calls (getHeightAsync GND EarthSample.query 3 100 EarthSample.flatWorld)
    = [(3%nat, JS.Fin v)] /\ v == 100 - 47.
Proof.
  assert (Hsent : _elevationCache Samples.sentinelWorld
                    !! getTileIndex (getTileX (lon EarthSample.query) 14)
                         (getTileY (lat EarthSample.query) 14) 14
                  = Some (mkTileData [] (getTileExtent 8510 5520 14)))
    by (vm_compute; reflexivity).
  assert (Hflat : _elevationCache EarthSample.flatWorld
                    !! getTileIndex (getTileX (lon EarthSample.query) 14)
                         (getTileY (lat EarthSample.query) 14) 14
                  = Some (mkTileData (repeat 0 1024) (getTileExtent 8510 5520 14)))
    by (vm_compute; reflexivity).
  destruct (getHeightAsync_ground_cache_hit Samples.sentinelWorld EarthSample.query 100 3
              (mkTileData [] (getTileExtent 8510 5520 14)) Hsent)
    as (_ & Hp & _ & _ & _ & _ & _ & Hnan).
  destruct (Hnan eq_refl) as [Hcalls _].
  destruct (getHeightAsync_ground_cache_hit EarthSample.flatWorld EarthSample.query 100 3
              (mkTileData (repeat 0 1024) (getTileExtent 8510 5520 14)) Hflat)
    as (Hflatcalls & _).
  split; [exact Hcalls |]. split; [exact Hp |].
  eexists. split.
  - etransitivity; [exact Hflatcalls |]. vm_compute. reflexivity.
  - vm_compute. reflexivity.
Defined.

Lemma ground_query_scenario_witness :
  exists v,
    calls (resolveFetch 0 (mkResponse ready (repeat 0 1024))
             (getHeightAsync GND (mkLonLat 7 50.5) 3 100 (newWorld 14 1 ∅)))
    = [(3%nat, JS.Fin v)] /\ v == 100 - 47.
Proof.
  pose proof (ground_query_scenario 100 3 1 ∅) as H. cbv zeta in H.
  destruct H as (_ & _ & _ & _ & _ & Hv).
  all: first [exact Hv | vm_compute; first [reflexivity | intros H'; discriminate H']].
Defined.

Lemma load_event_per_applied_elevations_witness :
  eventsMatchApplied
    (run [LoadTerrain 0 false; ResolveLoad 0 (mkResponse error [])] EarthSample.world).
Proof.
  apply (load_event_per_applied_elevations 14 1 {[ 0%nat := EarthSample.segment ]}
           [LoadTerrain 0 false; ResolveLoad 0 (mkResponse error [])]).
  - lia.
  - intros seg s Hs. apply lookup_singleton_Some in Hs. destruct Hs as [_ <-]. reflexivity.
Defined.

End EarthSampleRuns.

(** * Further properties of the terrain provider *)

Section TerrainMore.

Context {M : Mercator} {G : Geoid}.



(** X2.  Once the "no elevation data" sentinel is cached for a tile, every
    ground-mode request for that tile is answered at once with [NaN]: the
    cache-hit branch interpolates over the empty grid and does not leave
    the ground term out as the "error" branch did. *)
Theorem ground_query_on_sentinel_gets_NaN (t : World) (lonLat : LonLat) (altEll : Q)
    (callback : nat) (d : TileData) :
  let z := maxZoom t in
  _elevationCache t !! getTileIndex (getTileX (lon lonLat) z) (getTileY (lat lonLat) z) z
  = Some d ->
  isSentinel d ->
  getHeightAsync GND lonLat callback altEll t = invoke callback JS.NaN t.
Proof.
  intros z Hhit Hd. cbn [getHeightAsync].
  rewrite (ellToAltGND_hit t lonLat altEll callback d Hhit).
  rewrite (_getGroundHeight_sentinel lonLat d Hd), sub_add_NaN. reflexivity.
Qed.

(** X3.  The elevation cache has no eviction: whatever happens to the
    provider, a tile that is cached stays cached, and no point query
    issues a fetch for it any more. *)
Theorem elevation_cache_never_evicts (k : TileIndex) (es : list Event) (t : World) :
  is_Some (_elevationCache t !! k) ->
  is_Some (_elevationCache (run es t) !! k) /\
  fetchesTo k (run es t) = fetchesTo k t.
Proof. apply run_cached. Qed.

(** X4.  Repeating a ground-mode query whose tile is cached gives the same
    answer every time and changes nothing but the log of answers: no
    fetch, no change of either cache. *)
Theorem cached_ground_query_is_idempotent (t : World) (lonLat : LonLat) (altEll : Q)
    (callback : nat) (cache : TileData) (n : nat) :
  let z := maxZoom t in
  _elevationCache t !! getTileIndex (getTileX (lon lonLat) z) (getTileY (lat lonLat) z) z
  = Some cache ->
  let v := JS.sub (JS.Fin altEll)
             (JS.add (_getGroundHeight lonLat cache) (JS.Fin (getHeightLonLat lonLat))) in
  run (repeat (GetHeightAsync GND lonLat callback altEll) n) t
  = set_calls (fun l => l ++ repeat (callback, v) n) t.
Proof.
  intros z Hhit v. subst z v. unfold run. revert t Hhit.
  induction n as [|n IH]; intros t Hhit.
  - cbn [repeat fold_left]. destruct t. unfold set_calls.
    cbn [maxZoom _elevationCache _fetchCache _urlRewriteCallback promises loadQueue
         terrainLock segments loadHandlers dispatched calls repeat].
    rewrite app_nil_r. reflexivity.
  - cbn [repeat fold_left step getHeightAsync].
    rewrite (ellToAltGND_hit t lonLat altEll callback cache Hhit).
    rewrite IH by exact Hhit.
    unfold invoke, set_calls.
    cbn [maxZoom _elevationCache _fetchCache _urlRewriteCallback promises loadQueue
         terrainLock segments loadHandlers dispatched calls repeat].
    rewrite <- app_assoc. reflexivity.
Qed.

(** X5.  The elevation cache is shared by the two paths: a grid brought in
    by a bulk load is stored under the segment's tile index with the
    segment's extent, and a ground-mode query of that tile index is then
    answered from it at once. *)
Theorem bulk_load_feeds_point_queries (t : World) (i : nat) (req : LoadReq)
    (s : Segment) (r : Response) :
  loadQueue t !! i = Some req -> segments t !! l_segment req = Some s ->
  status r = ready ->
  let t1 := resolveLoad i r t in
  let cache := mkTileData (data r) (segExtent s) in
  _elevationCache t1 !! tileIndex s = Some cache /\
  forall lonLat altEll callback,
    getTileIndex (getTileX (lon lonLat) (maxZoom t)) (getTileY (lat lonLat) (maxZoom t))
      (maxZoom t) = tileIndex s ->
    getHeightAsync GND lonLat callback altEll t1
    = invoke callback
        (JS.sub (JS.Fin altEll)
           (JS.add (_getGroundHeight lonLat cache) (JS.Fin (getHeightLonLat lonLat)))) t1.
Proof.
  intros Hq Hs Hr. cbv zeta.
  assert (Hc : _elevationCache (resolveLoad i r t) !! tileIndex s
               = Some (mkTileData (data r) (segExtent s)) /\
               maxZoom (resolveLoad i r t) = maxZoom t).
  { unfold resolveLoad. rewrite Hq. unfold loadCallback, _applyElevationsData.
    cbn [segments set_loadQueue]. rewrite Hs, Hr.
    cbn [loadHandlers set_elevationCache set_loadQueue].
    destruct (0 <? loadHandlers t)%nat;
      cbn [_elevationCache maxZoom set_segments set_dispatched set_elevationCache set_loadQueue];
      rewrite lookup_insert_eq; split; reflexivity. }
  destruct Hc as [Hc Hz]. split; [exact Hc |].
  intros lonLat altEll callback Hk. cbn [getHeightAsync].
  apply ellToAltGND_hit. rewrite Hz, Hk. exact Hc.
Qed.

(** X6.  [loadTerrain] on a mercator segment whose tile is cached applies
    the cached heights at once: the segment is first marked loading and
    not ready, nothing is handed to the loader, and the [load] event is
    dispatched if it has a handler. *)
Theorem loadTerrain_applies_cached_tile (t : World) (seg : nat) (forceLoading : bool)
    (s : Segment) (cache : TileData) :
  segments t !! seg = Some s -> isFree (terrainLock t) = true ->
  _projection s = EPSG3857 -> _elevationCache t !! tileIndex s = Some cache ->
  let t1 := loadTerrain seg forceLoading t in
  segments t1 !! seg
  = Some (applyTerrain (Some (heights cache)) (set_loading false true s)) /\
  loadQueue t1 = loadQueue t /\ promises t1 = promises t /\
  dispatched t1
  = dispatched t ++
    (if (0 <? loadHandlers t)%nat then [mkLoadEvent (Some (heights cache)) seg] else []).
Proof.
  intros Hs Hfree Hproj Hhit. cbv zeta. unfold loadTerrain. rewrite Hs, Hfree.
  cbv zeta. cbn [_projection tileIndex set_loading].
  rewrite bool_decide_eq_true_2 by exact Hproj.
  cbn [_elevationCache set_segments]. rewrite Hhit. unfold _applyElevationsData.
  cbn [loadHandlers set_segments].
  destruct (0 <? loadHandlers t)%nat;
    cbn [segments loadQueue promises dispatched set_segments set_dispatched];
    rewrite lookup_alter_eq, lookup_alter_eq, Hs, ?app_nil_r; repeat split.
Qed.

(** X8.  Point queries do not look at the terrain lock: in every height
    mode a query does the same whether or not the lock is engaged, so a
    ground-mode query starts its fetch during camera motion as well. *)
Theorem getHeightAsync_ignores_terrain_lock (f : gset nat -> gset nat)
    (m : HeightMode) (lonLat : LonLat) (callback : nat) (altEll : Q) (t : World) :
  getHeightAsync m lonLat callback altEll (set_terrainLock f t)
  = set_terrainLock f (getHeightAsync m lonLat callback altEll t).
Proof.
  destruct m; cbn [getHeightAsync]; [reflexivity | reflexivity |].
  unfold ellToAltGND. cbn [maxZoom _elevationCache _fetchCache set_terrainLock].
  destruct (_elevationCache t !! _); [reflexivity |].
  destruct (_fetchCache t !! _) as [pid|] eqn:Hrec.
  - cbn [_fetchCache set_terrainLock]. rewrite Hrec. unfold promiseThen.
    cbn [promises set_terrainLock].
    destruct (promises t !! pid) as [p|]; [| reflexivity].
    destruct (p_result p) as [r|]; [| reflexivity].
    unfold gndContinuation. destruct (status r); reflexivity.
  - cbn [loaderFetch]. cbn [_fetchCache promises set_fetchCache set_promises set_terrainLock].
    rewrite !lookup_insert_eq. unfold promiseThen.
    cbn [promises set_fetchCache set_promises set_terrainLock].
    rewrite list_lookup_middle by reflexivity. reflexivity.
Qed.

(** X9.  A bulk load that fails with status "error" is not remembered:
    [null] elevations are applied to the segment and the elevation cache
    is left as it was, so the next [loadTerrain] of the segment queues the
    load again (point queries, in contrast, cache a sentinel on error). *)
Theorem bulk_load_error_is_not_cached (t : World) (i : nat) (req : LoadReq)
    (s : Segment) (r : Response) :
  loadQueue t !! i = Some req -> segments t !! l_segment req = Some s ->
  status r = error ->
  let t1 := resolveLoad i r t in
  _elevationCache t1 = _elevationCache t /\
  segments t1 !! l_segment req = Some (applyTerrain None s) /\
  loadQueue t1 = delete i (loadQueue t) /\
  forall forceLoading,
    isFree (terrainLock t) = true -> _projection s = EPSG3857 ->
    _elevationCache t !! tileIndex s = None ->
    loadQueue (loadTerrain (l_segment req) forceLoading t1)
    = loadQueue t1 ++
      [mkLoadReq (_getHTTPRequestString (set_loading false true (applyTerrain None s)) t)
         (l_segment req) forceLoading].
Proof.
  intros Hq Hs Hr. cbv zeta.
  assert (Ht1 : resolveLoad i r t
                = _applyElevationsData (l_segment req) None (set_loadQueue (delete i) t)).
  { unfold resolveLoad. rewrite Hq. unfold loadCallback.
    cbn [segments set_loadQueue]. rewrite Hs, Hr. reflexivity. }
  rewrite Ht1. unfold _applyElevationsData. cbn [loadHandlers set_loadQueue].
  destruct (0 <? loadHandlers t)%nat;
    cbn [_elevationCache segments loadQueue set_segments set_dispatched set_loadQueue].
  all: split; [reflexivity |]; split; [rewrite lookup_alter_eq, Hs; reflexivity |];
       split; [reflexivity |].
  all: intros forceLoading Hfree Hproj Hmiss; unfold loadTerrain;
       cbn [segments terrainLock set_segments set_dispatched set_loadQueue];
       rewrite lookup_alter_eq, Hs; cbn [fmap option_fmap option_map];
       rewrite Hfree; cbv zeta; cbn [_projection tileIndex applyTerrain set_loading];
       rewrite bool_decide_eq_true_2 by exact Hproj;
       cbn [_elevationCache set_segments set_dispatched set_loadQueue];
       rewrite Hmiss; reflexivity.
Qed.

Lemma step_polar_only (t : World) (e : Event) :
  (forall seg s, segments t !! seg = Some s -> _projection s <> EPSG3857) ->
  loadQueue t = [] -> dispatched t = [] ->
  (forall seg s, segments (step t e) !! seg = Some s -> _projection s <> EPSG3857) /\
  loadQueue (step t e) = [] /\ dispatched (step t e) = [].
Proof.
  intros Hpolar Hq Hd.
  assert (Halter : forall (f : Segment -> Segment) seg0,
             (forall s, _projection (f s) = _projection s) ->
             forall seg s, alter f seg0 (segments t) !! seg = Some s ->
                           _projection s <> EPSG3857).
  { intros f seg0 Hf seg s. rewrite lookup_alter_Some.
    intros [(_ & s' & Hs' & ->) | [_ Hs]]; [rewrite Hf |]; eauto. }
  destruct e as [m p cb a | seg force | pid r | i r | key | key]; cbn [step].
  - destruct (getHeightAsync_bulk m p cb a t) as (-> & -> & -> & _). auto.
  - unfold loadTerrain. destruct (segments t !! seg) as [s|] eqn:Hs; [| auto].
    destruct (isFree (terrainLock t)).
    + cbv zeta. cbn [_projection set_loading].
      rewrite bool_decide_eq_false_2 by (eapply Hpolar; eauto).
      cbn [segments loadQueue dispatched set_segments].
      split; [apply Halter; reflexivity | auto].
    + cbn [segments loadQueue dispatched set_segments].
      split; [apply Halter; reflexivity | auto].
  - destruct (resolveFetch_bulk pid r t) as (-> & -> & -> & _). auto.
  - unfold resolveLoad. rewrite Hq, lookup_nil. auto.
  - auto.
  - auto.
Qed.

Lemma run_polar_only (es : list Event) (t : World) :
  (forall seg s, segments t !! seg = Some s -> _projection s <> EPSG3857) ->
  loadQueue t = [] -> dispatched t = [] ->
  (forall seg s, segments (run es t) !! seg = Some s -> _projection s <> EPSG3857) /\
  loadQueue (run es t) = [] /\ dispatched (run es t) = [].
Proof.
  revert t. induction es as [|e es IH]; intros t Hp Hq Hd; [auto |].
  cbn [run fold_left]. destruct (step_polar_only t e Hp Hq Hd) as (Hp' & Hq' & Hd').
  apply (IH (step t e) Hp' Hq' Hd').
Qed.

(** X7.  Segments of the polar caps are never loaded: on a planet whose
    segments all have a projection other than EPSG3857, no sequence of
    calls hands a request to the loader's queue or dispatches a [load]
    event; [loadTerrain] with the lock free only marks such a segment as
    loading and not ready, and leaves it so. *)
Theorem polar_segments_are_never_loaded (zoom : Z) (handlers : nat)
    (segs : gmap nat Segment) (es : list Event) :
  (forall seg s, segs !! seg = Some s -> _projection s <> EPSG3857) ->
  let t := run es (newWorld zoom handlers segs) in
  loadQueue t = [] /\ dispatched t = [] /\
  forall seg forceLoading s,
    segments t !! seg = Some s -> isFree (terrainLock t) = true ->
    loadTerrain seg forceLoading t
    = set_segments (alter (set_loading false true) seg) t.
Proof.
  intros Hpolar. cbv zeta.
  pose proof (run_polar_only es (newWorld zoom handlers segs) Hpolar eq_refl eq_refl) as Hinv.
  destruct Hinv as (Hp & Hq & Hd). split; [exact Hq |]. split; [exact Hd |].
  intros seg forceLoading s Hs Hfree. unfold loadTerrain. rewrite Hs, Hfree.
  cbv zeta. cbn [_projection set_loading].
  rewrite bool_decide_eq_false_2 by (eapply Hp; eauto). reflexivity.
Qed.

(** X27.  The URL rewrite callback is applied to bulk loads only: with a
    callback registered, [loadTerrain] queues the request under the URL
    that the callback returns for the segment, while a ground-mode point
    query fetches the URL built from the template for its tile, as it
    does without a callback. *)
Theorem url_rewrite_applies_to_bulk_loads_only (ur : Segment -> Url -> Url) (t : World)
    (lonLat : LonLat) (altEll : Q) (callback : nat) (seg : nat) (s : Segment)
    (forceLoading : bool) :
  let t' := setUrlRewriteCallback (Some ur) t in
  let z := maxZoom t in
  let x := getTileX (lon lonLat) z in
  let y := getTileY (lat lonLat) z in
  _elevationCache t !! getTileIndex x y z = None ->
  _fetchCache t !! getTileIndex x y z = None ->
  segments t !! seg = Some s -> isFree (terrainLock t) = true ->
  _projection s = EPSG3857 -> _elevationCache t !! tileIndex s = None ->
  (exists p,
     promises (getHeightAsync GND lonLat callback altEll t') !! length (promises t) = Some p /\
     p_src p = stringTemplate x y z) /\
  loadQueue (loadTerrain seg forceLoading t')
  = loadQueue t ++ [mkLoadReq (ur (set_loading false true s) (_createUrl s)) seg forceLoading].
Proof.
  intros t' z x y Hmiss Hrec Hs Hfree Hproj Hmiss'. split.
  - destruct (ellToAltGND_fresh lonLat altEll callback t' Hmiss Hrec) as (_ & Hp & _).
    eexists. split; [exact Hp | reflexivity].
  - unfold loadTerrain. subst t'.
    cbn [segments terrainLock setUrlRewriteCallback]. rewrite Hs, Hfree.
    cbv zeta. cbn [_projection tileIndex set_loading].
    rewrite bool_decide_eq_true_2 by exact Hproj.
    cbn [_elevationCache set_segments setUrlRewriteCallback]. rewrite Hmiss'.
    reflexivity.
Qed.

End TerrainMore.

(** * Tile indices and grid offsets *)

Section TileIndexRange.

Context {M : Mercator}.

Lemma inject_Z_pow2_pos (z : Z) : (0 <= z)%Z -> 0 < inject_Z (2 ^ z).
Proof.
  intros Hz. change 0 with (inject_Z 0). rewrite <- Zlt_Qlt.
  apply Z.pow_pos_nonneg; lia.
Qed.

(** An integer strictly between two integer bounds given in [Q]. *)
Lemma Z_between (k lo hi : Z) :
  inject_Z lo - 1 < inject_Z k -> inject_Z k < inject_Z hi -> (lo <= k < hi)%Z.
Proof.
  intros H1 H2.
  assert (H1' : inject_Z (lo - 1) < inject_Z k).
  { unfold Z.sub. rewrite inject_Z_plus. change (inject_Z (Z.opp 1)) with (- (1)). lra. }
  rewrite <- Zlt_Qlt in H1', H2. lia.
Qed.

(** X11.  In the main band [getTileXY] returns a column and a row of the
    [2^z] by [2^z] grid whenever the projection of the point lies in the
    mercator square: [0 <= x, y < 2^z]. *)
Theorem getTileXY_common_index_range (lonLat : LonLat) (zoom : Z) :
  0 < POLE -> POLE2 == 2 * POLE -> (0 <= zoom <= 30)%Z ->
  getTileGroupByLat (lat lonLat) MAX_LAT = TILEGROUP_COMMON ->
  - POLE <= lon (forward lonLat) -> lon (forward lonLat) < POLE ->
  - POLE < lat (forward lonLat) -> lat (forward lonLat) <= POLE ->
  let '(x, y, z, g) := getTileXY lonLat zoom in
  (0 <= x < 2 ^ zoom)%Z /\ (0 <= y < 2 ^ zoom)%Z /\ z = zoom /\ g = TILEGROUP_COMMON.
Proof.
  intros Hpole Hp2 Hz Hg Hx1 Hx2 Hy1 Hy2. unfold getTileXY. rewrite Hg.
  rewrite shl1_pow2 by assumption.
  pose proof (inject_Z_pow2_pos zoom ltac:(lia)) as Hpz.
  set (pz := inject_Z (2 ^ zoom)) in *.
  set (size := POLE2 / pz).
  assert (Hsize : 0 < size) by (unfold size; apply Qlt_shift_div_l; lra).
  assert (Hfull : pz * size == 2 * POLE) by (rewrite <- Hp2; unfold size; field; lra).
  destruct (floor_cell (POLE + lon (forward lonLat)) size Hsize) as [Ha1 Ha2].
  destruct (floor_cell (POLE - lat (forward lonLat)) size Hsize) as [Hb1 Hb2].
  set (x := JS.floor ((POLE + lon (forward lonLat)) / size)) in *.
  set (y := JS.floor ((POLE - lat (forward lonLat)) / size)) in *.
  repeat split; try (apply (Z_between _ 0 (2 ^ zoom)); change (inject_Z 0) with 0;
                     fold pz; nra).
Qed.

(** X12.  In the north cap the row is the grid line nearest to the point,
    not the cell that holds it: the distance from the pole differs from
    [y] rows by at most half a row.  The row ranges over [0 .. 2^z], one
    more than the [2^z] rows of the grid, and the points of the
    southernmost half row get the row [2^z]. *)
Theorem getTileXY_north_row_is_nearest_line (lonLat : LonLat) (zoom : Z) :
  MAX_LAT < 90 -> (0 <= zoom <= 30)%Z ->
  MAX_LAT < lat lonLat -> lat lonLat <= 90 ->
  -180 <= lon lonLat -> lon lonLat < 180 ->
  let sizeLat := (90 - MAX_LAT) / inject_Z (2 ^ zoom) in
  let '(x, y, z, g) := getTileXY lonLat zoom in
  g = TILEGROUP_NORTH /\ (0 <= x < 2 ^ zoom)%Z /\ (0 <= y <= 2 ^ zoom)%Z /\
  (inject_Z y - (1 # 2)) * sizeLat <= 90 - lat lonLat /\
  90 - lat lonLat < (inject_Z y + (1 # 2)) * sizeLat /\
  (lat lonLat <= MAX_LAT + sizeLat / 2 -> y = (2 ^ zoom)%Z).
Proof.
  intros Hmax Hz Hl1 Hl2 Hx1 Hx2 sizeLat.
  assert (Hg : getTileGroupByLat (lat lonLat) MAX_LAT = TILEGROUP_NORTH).
  { unfold getTileGroupByLat. destruct (Qlt_le_dec MAX_LAT (lat lonLat)); [reflexivity | lra]. }
  unfold getTileXY. rewrite Hg. rewrite shl1_pow2 by assumption.
  pose proof (inject_Z_pow2_pos zoom ltac:(lia)) as Hpz.
  fold sizeLat. set (pz := inject_Z (2 ^ zoom)) in *.
  assert (HsLat : 0 < sizeLat) by (unfold sizeLat; apply Qlt_shift_div_l; lra).
  assert (HsLon : 0 < 360 / pz) by (apply Qlt_shift_div_l; lra).
  assert (HfullLat : pz * sizeLat == 90 - MAX_LAT) by (unfold sizeLat; field; lra).
  assert (HfullLon : pz * (360 / pz) == 360) by (field; lra).
  destruct (floor_cell (180 + lon lonLat) (360 / pz) HsLon) as [Ha1 Ha2].
  set (x := JS.floor ((180 + lon lonLat) / (360 / pz))) in *.
  unfold JS.round.
  pose proof (Qfloor_le ((90 - lat lonLat) / sizeLat + (1 # 2))) as Hr1.
  pose proof (Qlt_floor ((90 - lat lonLat) / sizeLat + (1 # 2))) as Hr2.
  rewrite inject_Z_plus in Hr2. change (inject_Z 1) with 1 in Hr2.
  assert (Hrs : (90 - lat lonLat) / sizeLat * sizeLat == 90 - lat lonLat) by (field; lra).
  set (r := (90 - lat lonLat) / sizeLat) in *.
  set (y := Qfloor (r + (1 # 2))) in *.
  assert (Hr0 : 0 <= r) by (unfold r; apply Qle_shift_div_l; lra).
  assert (Hrp : r < pz) by (unfold r; apply Qlt_shift_div_r; lra).
  assert (Hy : (0 <= y < 2 ^ zoom + 1)%Z).
  { apply Z_between; [change (inject_Z 0) with 0; lra |].
    rewrite inject_Z_plus. change (inject_Z 1) with 1. fold pz. lra. }
  split; [reflexivity |]. split.
  { apply (Z_between _ 0 (2 ^ zoom)); change (inject_Z 0) with 0; fold pz; nra. }
  split; [lia |]. split; [nra |]. split; [nra |].
  intros Hlow.
  assert (Hge : pz - (1 # 2) <= r).
  { assert (H : (pz - (1 # 2)) * sizeLat <= r * sizeLat).
    { assert (E : sizeLat / 2 == sizeLat * (1 # 2)) by reflexivity.
      rewrite E in Hlow. lra. }
    nra. }
  assert (Hyp : inject_Z (2 ^ zoom) - 1 < inject_Z y) by (fold pz; lra).
  assert (Hyq : inject_Z y < inject_Z (2 ^ zoom + 1)).
  { rewrite inject_Z_plus. change (inject_Z 1) with 1. fold pz. lra. }
  destruct (Z_between y (2 ^ zoom) (2 ^ zoom + 1) Hyp Hyq). lia.
Qed.

Lemma shl1_period (z : Z) : JS.shl1 (z + 32) = JS.shl1 z.
Proof.
  unfold JS.shl1. replace (z + 32)%Z with (z + 1 * 32)%Z by lia.
  rewrite Z_mod_plus_full. reflexivity.
Qed.

(** X13.  The zoom is used as a 32-bit shift count ([1 << z]): the tile
    computed at zoom [z + 32] is the tile computed at zoom [z]. *)
Theorem getTileXY_zoom_wraps_at_32 (lonLat : LonLat) (zoom : Z) :
  getTileXY lonLat (zoom + 32)
  = let '(x, y, _, g) := getTileXY lonLat zoom in (x, y, (zoom + 32)%Z, g).
Proof.
  unfold getTileXY. rewrite shl1_period.
  destruct (getTileGroupByLat (lat lonLat) MAX_LAT); reflexivity.
Qed.

Lemma fin_not_signedInf (d : Q) (b : bool) : ~ isFinite (JS.signedInf d b).
Proof.
  unfold JS.signedInf. intros [q Hq].
  destruct (JS.is0 d); [discriminate |]. destruct (Bool.eqb _ _); discriminate.
Qed.

(** Dividing by a cell size that is zero, or not a number, gives no
    finite quotient. *)
Lemma div_zero_size_not_finite (d w n : Q) :
  w == 0 -> ~ isFinite (JS.div (JS.Fin d) (JS.div (JS.Fin w) (JS.Fin n))).
Proof.
  intros Hw. unfold JS.div at 2.
  destruct (JS.is0 n) eqn:Hn.
  - unfold JS.signedInf.
    assert (H0 : JS.is0 w = true) by (apply Qeq_bool_iff; exact Hw).
    rewrite H0. intros [q Hq]. discriminate.
  - unfold JS.div.
    assert (H0 : JS.is0 (w / n) = true).
    { apply Qeq_bool_iff. rewrite Hw. unfold Qdiv. ring. }
    rewrite H0. apply fin_not_signedInf.
Qed.

(** X14.  For a point of a polar cap [getLonLatTileOffset] keeps the empty
    extent and divides by a cell size of zero: with an extent of zero
    width and height neither offset is a finite number, whatever the tile
    and the grid size. *)
Theorem getLonLatTileOffset_polar_not_finite (newExtent : Extent) (lonLat : LonLat)
    (x y z : Z) (gridSize : Q) :
  getWidth newExtent == 0 -> getHeight newExtent == 0 ->
  MAX_LAT < lat lonLat \/ lat lonLat < MIN_LAT ->
  let '(i, j) := getLonLatTileOffset newExtent lonLat x y z gridSize in
  ~ isFinite i /\ ~ isFinite j.
Proof.
  intros Hw Hh Hcap. unfold getLonLatTileOffset.
  assert (Hsel : (if Qlt_le_dec MAX_LAT (lat lonLat) then (lonLat, newExtent)
                  else if Qlt_le_dec (lat lonLat) MIN_LAT then (lonLat, newExtent)
                       else (forward lonLat, getTileExtent x y z))
                 = (lonLat, newExtent)).
  { destruct (Qlt_le_dec MAX_LAT (lat lonLat)); [reflexivity |].
    destruct (Qlt_le_dec (lat lonLat) MIN_LAT) as [Hlt | Hge]; [reflexivity |].
    destruct Hcap; lra. }
  rewrite Hsel. cbn [JS.sub JS.add JS.neg]. split.
  - intros [q Hq].
    pose proof (div_zero_size_not_finite (lat lonLat + - lat (southWest newExtent))
                  (getHeight newExtent) (gridSize + - (1)) Hh) as Hdiv.
    destruct (JS.div (JS.Fin (lat lonLat + - lat (southWest newExtent)))
                (JS.div (JS.Fin (getHeight newExtent)) (JS.Fin (gridSize + - (1)))))
      as [d| | |] eqn:E.
    + apply Hdiv. exists d. reflexivity.
    + discriminate.
    + discriminate.
    + discriminate.
  - intros [q Hq].
    pose proof (div_zero_size_not_finite (lon lonLat + - lon (southWest newExtent))
                  (getWidth newExtent) (gridSize + - (1)) Hw) as Hdiv.
    destruct (JS.div (JS.Fin (lon lonLat + - lon (southWest newExtent)))
                (JS.div (JS.Fin (getWidth newExtent)) (JS.Fin (gridSize + - (1)))))
      as [d| | |] eqn:E.
    + apply Hdiv. exists d. reflexivity.
    + discriminate.
    + discriminate.
    + discriminate.
Qed.

End TileIndexRange.

(** * The wheel zoom and the inertia of the mouse navigation control *)

Section NavigationFacts.

Import MouseNavigation.

Context {Geo : Geometry} {Sc : Scene}.

Lemma castSteps_length (count : nat) (eye0 scaled_n dir a : Vector3) (radius : Q)
    (arr : list (Vector3 * Matrix4)) :
  castSteps count eye0 scaled_n dir a radius = Some arr -> length arr = count.
Proof.
  revert eye0 arr. induction count as [| count IH]; intros eye0 arr H; cbn in H.
  - injection H as <-. reflexivity.
  - destruct (hitSphere (addA eye0 scaled_n) dir radius); [| discriminate].
    destruct (castSteps count (addA eye0 scaled_n) scaled_n dir a radius) as [arr' |] eqn:E;
      [| discriminate].
    injection H as <-. cbn. f_equal. exact (IH _ _ E).
Qed.

Lemma straightSteps_length (count : nat) (eye0 move v u n : Vector3) :
  length (straightSteps count eye0 move v u n) = count.
Proof.
  revert eye0. induction count as [| count IH]; intros eye0; cbn; [reflexivity |].
  f_equal. apply IH.
Qed.

Lemma getMovePoints_length (cam : Camera) (count : Z) (delta : Q) (point : Pixel)
    (forward : bool) (dir : option Vector3) (steps : list Step) :
  getMovePointsFromPixelTerrain cam count delta point forward dir = Some steps ->
  length steps = Z.to_nat count.
Proof.
  unfold getMovePointsFromPixelTerrain. intros H.
  destruct (match dir with
            | Some dir0 => Some dir0
            | None => match getCartesianFromPixelTerrain cam point with
                      | Some a => Some (normalize (sub a (eye cam)))
                      | None => None
                      end
            end) as [dir' |]; [| discriminate].
  destruct (getCartesianFromPixelTerrain cam point) as [a |].
  - destruct (JS.ltb 9000 (height cam) && JS.ltb (6 # 10) (dot (_n cam) (normal (eye cam)))).
    + match type of H with
      | match ?cs with _ => _ end = _ => destruct cs as [arr |] eqn:E
      end.
      * injection H as <-. rewrite length_map. exact (castSteps_length _ _ _ _ _ _ _ E).
      * injection H as <-. apply straightSteps_length.
    + injection H as <-. apply straightSteps_length.
  - injection H as <-. apply straightSteps_length.
Qed.

(** X16.  Given a direction or a point of the terrain under the pixel,
    [getMovePointsFromPixelTerrain] returns one camera pose for each of
    the [stepsCount] steps, whichever of its three branches builds them. *)
Theorem getMovePointsFromPixelTerrain_fills_every_step (cam : Camera) (count : Z)
    (delta : Q) (point : Pixel) (forward : bool) (dir : option Vector3) :
  is_Some dir \/ is_Some (getCartesianFromPixelTerrain cam point) ->
  exists steps,
    getMovePointsFromPixelTerrain cam count delta point forward dir = Some steps /\
    length steps = Z.to_nat count.
Proof.
  intros Hdef.
  destruct (getMovePointsFromPixelTerrain cam count delta point forward dir)
    as [steps |] eqn:E.
  - exists steps. split; [reflexivity |]. exact (getMovePoints_length _ _ _ _ _ _ _ E).
  - exfalso. unfold getMovePointsFromPixelTerrain in E.
    destruct dir as [d |].
    + destruct (getCartesianFromPixelTerrain cam point) as [a |].
      * destruct (JS.ltb 9000 (height cam) && _); [| discriminate].
        match type of E with
        | match ?cs with _ => _ end = _ => destruct cs; discriminate
        end.
      * discriminate.
    + destruct Hdef as [[d Hd] | [a Ha]]; [discriminate |].
      rewrite Ha in E.
      destruct (JS.ltb 9000 (height cam) && _); [| discriminate].
      match type of E with
      | match ?cs with _ => _ end = _ => destruct cs; discriminate
      end.
Qed.

(** One draw while steps are left and no rotation fades. *)
Lemma onDraw_step (b : bool) (c : Control) (sf : Step) :
  active c = true -> scaleRot c == 0 -> stepIndex c <> 0%Z ->
  stepAt (stepsForward c) (stepsCount c - stepIndex c) = Some sf ->
  onDraw b c
  = Some (set_activeCamera (update (set_pose sf (activeCamera c)))
            (set_steps (stepsForward c) (stepIndex c - 1) (set_controlsBag_scaleRot 1 c))).
Proof.
  intros Ha Hs Hi Hsf. unfold onDraw. rewrite Ha.
  destruct (stepIndex c =? 0)%Z eqn:E; [apply Z.eqb_eq in E; contradiction |].
  cbn [negb]. cbv zeta.
  cbn [stepsForward stepsCount stepIndex set_controlsBag_scaleRot set_steps].
  rewrite Hsf.
  cbn [scaleRot set_activeCamera set_steps set_controlsBag_scaleRot].
  assert (H0 : JS.is0 (scaleRot c) = true) by (apply Qeq_bool_iff; exact Hs).
  rewrite H0, Bool.orb_true_r. reflexivity.
Qed.

(** The draws that play the steps: the step index counts down, the poses
    are read in order, and nothing but the camera, the index and the
    scale of the controls bag changes. *)
Lemma stepping (buttons : list bool) (c : Control) :
  active c = true -> scaleRot c == 0 ->
  length (stepsForward c) = Z.to_nat (stepsCount c) ->
  (stepIndex c <= stepsCount c)%Z ->
  (Z.of_nat (length buttons) <= stepIndex c)%Z ->
  exists ck,
    draws buttons c = Some ck /\ active ck = true /\ scaleRot ck = scaleRot c /\
    stepIndex ck = (stepIndex c - Z.of_nat (length buttons))%Z /\
    stepsForward ck = stepsForward c /\ stepsCount ck = stepsCount c /\
    planet ck = planet c /\ _deactivate ck = _deactivate c /\ _keyLock ck = _keyLock c /\
    (buttons <> [] ->
     exists sf cam,
       stepsForward c !! (Z.to_nat (stepsCount c - stepIndex c) + length buttons - 1)%nat
       = Some sf /\
       activeCamera ck = update (set_pose sf cam)).
Proof.
  revert c. induction buttons as [| b buttons IH]; intros c Ha Hs Hlen Hle Hk.
  - exists c. cbn. repeat split; try reflexivity; try lia; try (intros; congruence).
  - cbn [length] in Hk.
    assert (Hidx : (0 <= stepsCount c - stepIndex c)%Z) by lia.
    destruct (lookup_lt_is_Some_2 (stepsForward c) (Z.to_nat (stepsCount c - stepIndex c)))
      as [sf Hsf]; [lia |].
    assert (Hat : stepAt (stepsForward c) (stepsCount c - stepIndex c) = Some sf).
    { unfold stepAt. destruct (Z.ltb_spec (stepsCount c - stepIndex c) 0); [lia | exact Hsf]. }
    cbn [draws]. rewrite (onDraw_step b c sf Ha Hs ltac:(lia) Hat).
    set (c' := set_activeCamera _ _).
    destruct (IH c') as (ck & Hd & Hak & Hsk & Hik & Hfk & Hck & Hpk & Hdk & Hkk & Hcam).
    + exact Ha.
    + exact Hs.
    + exact Hlen.
    + cbn. lia.
    + cbn. lia.
    + exists ck. split; [exact Hd |]. split; [exact Hak |]. split; [exact Hsk |].
      split; [rewrite Hik; cbn; lia |]. split; [exact Hfk |]. split; [exact Hck |].
      split; [exact Hpk |]. split; [exact Hdk |]. split; [exact Hkk |].
      intros _. destruct buttons as [| b' buttons'].
      * cbn in Hd. injection Hd as <-. exists sf, (activeCamera c).
        split; [| reflexivity].
        cbn [length]. rewrite <- Hsf. f_equal. lia.
      * destruct Hcam as (sf' & cam & Hsf' & Hcam); [discriminate |].
        exists sf', cam. split; [| exact Hcam].
        rewrite <- Hsf'. cbn [stepsForward stepsCount stepIndex c' set_activeCamera
                               set_steps set_controlsBag_scaleRot length].
        f_equal. lia.
Qed.

(** The control right after a wheel event taken in the idle state. *)
Lemma onMouseWheel_idle (wheelDelta : Q) (ms : Pixel) (direction : option Vector3)
    (c c1 : Control) :
  stepIndex c = 0%Z -> onMouseWheel wheelDelta ms direction c = Some c1 ->
  exists steps,
    length steps = Z.to_nat (stepsCount c) /\
    c1 = set_steps steps (stepsCount c)
           (set_planet (lockPlanet (_keyLock c)) (set_deactivate true (stopRotation c))).
Proof.
  intros Hi H. unfold onMouseWheel in H. rewrite Hi in H. cbn [Z.eqb negb] in H.
  cbv zeta in H.
  match type of H with
  | match ?g with _ => _ end = _ => destruct g as [steps |] eqn:E
  end; [| discriminate].
  injection H as <-. exists steps. split; [| reflexivity].
  exact (getMovePoints_length _ _ _ _ _ _ _ E).
Qed.


Lemma free_releases (key : nat) (holders : gset nat) : key ∉ free key holders.
Proof.
  unfold free. intros H. apply elem_of_difference in H as [_ H].
  apply H, elem_of_singleton. reflexivity.
Qed.




(** The draw that follows the last step. *)
Lemma onDraw_release (b : bool) (c : Control) :
  active c = true -> scaleRot c == 0 -> stepIndex c = 0%Z -> _deactivate c = true ->
  onDraw b c = Some (set_planet (freePlanet (_keyLock c)) (set_deactivate false c)).
Proof.
  intros Ha Hs Hi Hd. unfold onDraw. rewrite Ha, Hi, Hd. cbn [Z.eqb negb].
  cbn [scaleRot set_planet set_deactivate].
  assert (H0 : JS.is0 (scaleRot c) = true) by (apply Qeq_bool_iff; exact Hs).
  rewrite H0, Bool.orb_true_r. reflexivity.
Qed.

(** X19.  After a wheel event taken by an active control while no steps
    are left and no rotation fades ([stepIndex = 0] and [scaleRot = 0]),
    the draw that follows the [stepsCount] draws of the steps releases the
    three locks of the planet from the key of the control and leaves the
    other holders of the terrain lock as they were before the wheel
    event. *)
Theorem wheel_zoom_releases_locks_after_last_step (wheelDelta : Q) (ms : Pixel)
    (direction : option Vector3) (c c1 : Control) (buttons : list bool) (b : bool) :
  active c = true -> stepIndex c = 0%Z -> scaleRot c == 0 ->
  onMouseWheel wheelDelta ms direction c = Some c1 ->
  Z.of_nat (length buttons) = stepsCount c ->
  exists c',
    draws (buttons ++ [b]) c1 = Some c' /\
    stepIndex c' = 0%Z /\ _deactivate c' = false /\
    (_keyLock c ∉ layerLock (planet c')) /\
    (_keyLock c ∉ terrainLock (terrain (planet c'))) /\
    (_keyLock c ∉ normalMapCreator (planet c')) /\
    (forall key, key <> _keyLock c ->
       key ∈ terrainLock (terrain (planet c')) <-> key ∈ terrainLock (terrain (planet c))).
Proof.
  intros Ha Hi Hs Hw Hk.
  destruct (onMouseWheel_idle _ _ _ _ _ Hi Hw) as (steps & Hlen & ->).
  destruct (stepping buttons
              (set_steps steps (stepsCount c)
                 (set_planet (lockPlanet (_keyLock c))
                    (set_deactivate true (stopRotation c)))))
    as (ck & Hd & Hak & Hsk & Hik & _ & _ & Hpk & Hdk & Hkk & _).
  - exact Ha.
  - exact Hs.
  - exact Hlen.
  - cbn. lia.
  - cbn. lia.
  - assert (Hdraws : forall l1 l2 (x y : Control),
               draws l1 x = Some y -> draws (l1 ++ l2) x = draws l2 y).
    { induction l1 as [| a l1 IH]; intros l2 x y H; cbn in *.
      - injection H as <-. reflexivity.
      - destruct (onDraw a x); [| discriminate]. exact (IH _ _ _ H). }
    rewrite (Hdraws _ _ _ _ Hd). cbn [draws].
    cbn [scaleRot set_steps set_planet set_deactivate stopRotation set_qRot] in Hsk.
    cbn [stepIndex set_steps] in Hik.
    cbn [_deactivate set_steps set_planet set_deactivate] in Hdk.
    cbn [_keyLock set_steps set_planet set_deactivate stopRotation set_qRot] in Hkk.
    rewrite (onDraw_release b ck Hak) by (rewrite ?Hsk; try assumption; lia).
    eexists. split; [reflexivity |].
    cbn [stepIndex _deactivate planet set_planet set_deactivate].
    rewrite Hpk, Hkk. cbn [planet set_steps set_planet set_deactivate stopRotation
                             set_qRot _keyLock].
    unfold freePlanet, lockPlanet.
    cbn [layerLock terrain normalMapCreator terrainLock set_terrainLock].
    split; [lia |]. split; [reflexivity |].
    split; [apply free_releases |]. split; [apply free_releases |].
    split; [apply free_releases |].
    intros key Hkey. unfold free, lock.
    rewrite !elem_of_difference, elem_of_union, elem_of_difference, !elem_of_singleton.
    tauto.
Qed.

(** One draw of the fading rotation, the left button up: the scale of the
    rotation stays at zero or loses at least [inertia], and never gets
    negative. *)
Lemma onDraw_fades (c : Control) :
  active c = true -> stepIndex c = 0%Z -> 0 < inertia c -> 0 <= scaleRot c ->
  exists c',
    onDraw false c = Some c' /\ active c' = true /\ stepIndex c' = 0%Z /\
    inertia c' = inertia c /\ _deactivate c' = false /\
    0 <= scaleRot c' /\
    (scaleRot c' == 0 \/ scaleRot c' == scaleRot c - inertia c).
Proof.
  intros Ha Hi Hin Hs. unfold onDraw. rewrite Ha, Hi. cbn [Z.eqb negb].
  set (c0 := if _deactivate c
             then set_planet (freePlanet (_keyLock c)) (set_deactivate false c) else c).
  assert (Hc0 : (if _deactivate c
                 then Some (set_planet (freePlanet (_keyLock c)) (set_deactivate false c))
                 else Some c) = Some c0) by (unfold c0; destruct (_deactivate c); reflexivity).
  rewrite Hc0.
  assert (E0 : active c0 = active c /\ stepIndex c0 = stepIndex c /\
               inertia c0 = inertia c /\ scaleRot c0 = scaleRot c /\
               _deactivate c0 = false).
  { unfold c0. destruct (_deactivate c) eqn:Ed; cbn; repeat split; try reflexivity.
    exact Ed. }
  destruct E0 as (Ea & Ei & Ein & Es & Ed). rewrite Es, Ein.
  cbn [orb]. destruct (JS.is0 (scaleRot c)) eqn:Ez.
  - exists c0. apply Qeq_bool_iff in Ez. rewrite Ea, Ei, Ein, Es.
    repeat split; try assumption; try reflexivity. left. exact Ez.
  - cbv zeta. cbn [scaleRot set_scaleRot].
    destruct (Qle_bool (scaleRot c - inertia c) 0) eqn:El.
    + cbn [activeCamera set_scaleRot _keyLock].
      match goal with
      | |- exists c', (if ?g then _ else _) = _ /\ _ => destruct g
      end; eexists; (split; [reflexivity |]); cbn; rewrite ?Ea, ?Ei, ?Ein;
        repeat split; try assumption; try reflexivity; try lra; left; reflexivity.
    + assert (Hpos : 0 < scaleRot c - inertia c).
      { destruct (Qlt_le_dec 0 (scaleRot c - inertia c)) as [H | H]; [exact H |].
        apply Qle_bool_iff in H. congruence. }
      destruct (vanishes _) eqn:Ev;
        match goal with
        | |- exists c', (if ?g then _ else _) = _ /\ _ => destruct g
        end; eexists; (split; [reflexivity |]); cbn; rewrite ?Ea, ?Ei, ?Ein;
          repeat split; try assumption; try reflexivity; try lra;
          first [left; reflexivity | right; reflexivity].
Qed.

Lemma fading (k : nat) (c : Control) :
  active c = true -> stepIndex c = 0%Z -> 0 < inertia c -> 0 <= scaleRot c ->
  scaleRot c <= inject_Z (Z.of_nat k) * inertia c ->
  exists c',
    draws (repeat false k) c = Some c' /\ scaleRot c' == 0 /\
    active c' = true /\ stepIndex c' = 0%Z /\ (1 <= k -> _deactivate c' = false)%nat.
Proof.
  revert c. induction k as [| k IH]; intros c Ha Hi Hin Hs Hk.
  - exists c. change (inject_Z (Z.of_nat 0)) with 0 in Hk.
    split; [reflexivity |]. split; [lra |].
    split; [exact Ha |]. split; [exact Hi |]. lia.
  - destruct (onDraw_fades c Ha Hi Hin Hs) as (c1 & Hd & Ha1 & Hi1 & Hin1 & Hd1 & Hs1 & Hstep).
    assert (Hk1 : scaleRot c1 <= inject_Z (Z.of_nat k) * inertia c1).
    { rewrite Hin1.
      assert (E : inject_Z (Z.of_nat (S k)) == inject_Z (Z.of_nat k) + 1).
      { rewrite Nat2Z.inj_succ. unfold Z.succ. rewrite inject_Z_plus. reflexivity. }
      rewrite E in Hk.
      assert (H0 : 0 <= inject_Z (Z.of_nat k)).
      { change 0 with (inject_Z 0). rewrite <- Zle_Qle. lia. }
      destruct Hstep as [H | H]; rewrite H; nra. }
    destruct (IH c1 Ha1 Hi1 ltac:(rewrite Hin1; exact Hin) Hs1 Hk1)
      as (c' & Hd' & Hs' & Ha' & Hi' & Hde').
    exists c'. cbn [repeat draws]. rewrite Hd. split; [exact Hd' |].
    split; [exact Hs' |]. split; [exact Ha' |]. split; [exact Hi' |].
    intros _. destruct k as [| k'].
    + cbn in Hd'. injection Hd' as <-. exact Hd1.
    + apply Hde'. lia.
Qed.

(** X20.  With the left button up and no steps left, the rotation of the
    inertia fades out: a scale of at most [k] times [inertia] is zero
    after [k] draws, and from then on a draw changes nothing, whatever
    the state of the button. *)
Theorem inertia_fades_out (k : nat) (c : Control) :
  active c = true -> stepIndex c = 0%Z -> 0 < inertia c -> 0 <= scaleRot c ->
  scaleRot c <= inject_Z (Z.of_nat k) * inertia c -> (1 <= k)%nat ->
  exists c',
    draws (repeat false k) c = Some c' /\ scaleRot c' == 0 /\
    forall b, onDraw b c' = Some c'.
Proof.
  intros Ha Hi Hin Hs Hk H1.
  destruct (fading k c Ha Hi Hin Hs Hk) as (c' & Hd & Hs' & Ha' & Hi' & Hde).
  exists c'. split; [exact Hd |]. split; [exact Hs' |].
  intros b. unfold onDraw. rewrite Ha', Hi', (Hde H1). cbn [Z.eqb negb].
  assert (H0 : JS.is0 (scaleRot c') = true) by (apply Qeq_bool_iff; exact Hs').
  rewrite H0, Bool.orb_true_r. reflexivity.
Qed.

End NavigationFacts.

(** * Frames of picking on the background *)

Section PickingFrames.

Import RendererEvents.

(** A frame with the pointer on black while fewer than fifteen black
    frames were skipped: only the counter and the temporary colour
    change. *)
Lemma entityPickingEvents_skips (this : Instance) (g : ModuleState) :
  held this = false -> ISBLACK (pointerColor this) = true ->
  (__skipFrames__ g < MAX_SKIP_FRAMES_ON_BLACK)%Z ->
  entityPickingEvents this g
  = (this, mkModuleState (__skipFrames__ g + 1) (_currPickingColor g) (pointerColor this)
             (_prevPickingColor g), []).
Proof.
  intros Hh Hb Hs. unfold entityPickingEvents. unfold held in Hh. rewrite Hh.
  cbn [negb]. unfold pointerColor in *. cbv zeta in *. rewrite Hb.
  destruct (Z.ltb_spec (__skipFrames__ g) MAX_SKIP_FRAMES_ON_BLACK); [| lia].
  reflexivity.
Qed.

Lemma pickingFrames_skip (n : nat) (this : Instance) (g : ModuleState) :
  held this = false -> ISBLACK (pointerColor this) = true ->
  (__skipFrames__ g + Z.of_nat n <= MAX_SKIP_FRAMES_ON_BLACK)%Z ->
  exists g',
    pickingFrames n this g = (this, g', []) /\
    __skipFrames__ g' = (__skipFrames__ g + Z.of_nat n)%Z /\
    _currPickingColor g' = _currPickingColor g /\
    _prevPickingColor g' = _prevPickingColor g.
Proof.
  revert g. induction n as [| n IH]; intros g Hh Hb Hs.
  - exists g. cbn. repeat split; lia.
  - cbn [pickingFrames]. rewrite entityPickingEvents_skips by (try assumption; lia).
    destruct (IH (mkModuleState (__skipFrames__ g + 1) (_currPickingColor g)
                    (pointerColor this) (_prevPickingColor g)) Hh Hb)
      as (g' & Hf & Hk & Hc & Hp).
    + cbn [__skipFrames__]. lia.
    + exists g'. rewrite Hf. cbn in Hk, Hc, Hp. repeat split; try assumption. lia.
Qed.

Lemma black_differs (c p : Z * Z * Z) :
  ISBLACK c = true -> NOTBLACK p = true -> sameColor c p = false.
Proof.
  destruct c as [[c0 c1] c2], p as [[p0 p1] p2]. unfold NOTBLACK, ISBLACK, sameColor.
  intros Hc Hp. apply Bool.negb_true_iff in Hp.
  apply andb_prop in Hc as [Hc Hc2]. apply andb_prop in Hc as [Hc0 Hc1].
  apply Z.eqb_eq in Hc0, Hc1, Hc2. subst.
  destruct (Z.eqb_spec 0 p0), (Z.eqb_spec 0 p1), (Z.eqb_spec 0 p2); try reflexivity.
  subst. cbn in Hp. discriminate.
Qed.

(** X21.  An object is left only after sixteen frames of background: with
    the pointer of an instance on black and no button held, the first
    fifteen calls of [entityPickingEvents] dispatch nothing and keep the
    current colour, and the sixteenth dispatches the leave events of the
    object of the current colour and makes black the current colour. *)
Theorem object_left_after_sixteen_black_frames (this : Instance) (g : ModuleState)
    (po : PickingObject) :
  held this = false -> ISBLACK (pointerColor this) = true ->
  __skipFrames__ g = 0%Z -> NOTBLACK (_currPickingColor g) = true ->
  getPickingObjectArr (renderer this) (_currPickingColor g) = Some po ->
  (forall n, (n <= 15)%nat ->
     exists g', pickingFrames n this g = (this, g', []) /\
                _currPickingColor g' = _currPickingColor g) /\
  exists this' g',
    pickingFrames 16 this g = (this', g', leave po) /\
    _currPickingColor g' = pointerColor this /\
    _prevPickingColor g' = _currPickingColor g /\
    __skipFrames__ g' = 0%Z /\
    pickingObject (mouseState this') = Some po.
Proof.
  intros Hh Hb Hs Hn Hpo. split.
  - intros n Hle.
    destruct (pickingFrames_skip n this g Hh Hb) as (g' & Hf & _ & Hc & _).
    + rewrite Hs. unfold MAX_SKIP_FRAMES_ON_BLACK. lia.
    + exists g'. split; assumption.
  - destruct (pickingFrames_skip 15 this g Hh Hb) as (g15 & Hf & Hk & Hc & Hp).
    { rewrite Hs. unfold MAX_SKIP_FRAMES_ON_BLACK. lia. }
    assert (Hsplit : forall n m this0 g0,
               pickingFrames (n + m) this0 g0
               = let '(this1, g1, out) := pickingFrames n this0 g0 in
                 let '(this2, g2, out') := pickingFrames m this1 g1 in
                 (this2, g2, out ++ out')).
    { induction n as [| n IH]; intros m this0 g0.
      - cbn. destruct (pickingFrames m this0 g0) as [[t2 g2] o2]. reflexivity.
      - cbn [Nat.add pickingFrames].
        destruct (entityPickingEvents this0 g0) as [[t1 g1] o1].
        rewrite IH. destruct (pickingFrames n t1 g1) as [[t2 g2] o2].
        destruct (pickingFrames m t2 g2) as [[t3 g3] o3].
        rewrite app_assoc. reflexivity. }
    change 16%nat with (15 + 1)%nat. rewrite Hsplit, Hf. cbn [pickingFrames app].
    unfold entityPickingEvents. unfold held in Hh. rewrite Hh. cbn [negb].
    unfold pointerColor in *. cbv zeta in *. rewrite Hb, Hk, Hs.
    change ((0 + Z.of_nat 15 <? MAX_SKIP_FRAMES_ON_BLACK)%Z) with false.
    cbn [andb]. rewrite Hc, (black_differs _ _ Hb Hn). cbn [negb].
    cbn [renderer set_picked]. rewrite Hpo.
    eexists _, _. rewrite app_nil_r. split; [reflexivity |].
    cbn. repeat split; reflexivity.
Qed.

(** X22.  A pointer that passes over the background for at most fifteen
    frames and comes back to the colour it was on dispatches nothing: no
    leave and no enter event, and the current colour is kept. *)
Theorem short_black_pass_dispatches_nothing (this that : Instance) (g : ModuleState)
    (n : nat) :
  held this = false -> ISBLACK (pointerColor this) = true ->
  __skipFrames__ g = 0%Z -> (n <= 15)%nat ->
  held that = false -> pointerColor that = _currPickingColor g ->
  NOTBLACK (_currPickingColor g) = true ->
  let '(_, g1, out1) := pickingFrames n this g in
  let '(_, g2, out2) := entityPickingEvents that g1 in
  out1 ++ out2 = [] /\ _currPickingColor g2 = _currPickingColor g /\
  __skipFrames__ g2 = 0%Z.
Proof.
  intros Hh Hb Hs Hn Hh' Hc' Hnb.
  destruct (pickingFrames_skip n this g Hh Hb) as (g1 & Hf & Hk & Hc & Hp).
  { rewrite Hs. unfold MAX_SKIP_FRAMES_ON_BLACK. lia. }
  rewrite Hf. unfold entityPickingEvents. unfold held in Hh'. rewrite Hh'.
  cbn [negb]. unfold pointerColor in *. cbv zeta in *. rewrite Hc', Hc.
  unfold NOTBLACK in Hnb. apply Bool.negb_true_iff in Hnb. rewrite Hnb. cbn [andb].
  assert (Hsame : sameColor (_currPickingColor g) (_currPickingColor g) = true).
  { destruct (_currPickingColor g) as [[c0 c1] c2]. cbn. rewrite !Z.eqb_refl. reflexivity. }
  rewrite Hsame. cbn. repeat split; reflexivity.
Qed.

End PickingFrames.

(** * The pointer handlers *)

Section PointerFacts.

Import Pointer.

Ltac split_bools :=
  repeat match goal with
  | H : _ && _ = true |- _ => apply andb_prop in H; destruct H
  | H : negb _ = true |- _ => apply Bool.negb_true_iff in H
  | H : _ || _ = false |- _ => apply Bool.orb_false_iff in H; destruct H
  end.

Lemma within_radius (r a : Q) : 0 < r -> Qle_bool r (Qabs (a - a)) = false.
Proof.
  intros Hr. destruct (Qle_bool r (Qabs (a - a))) eqn:E; [| reflexivity].
  apply Qle_bool_iff in E.
  assert (H0 : Qabs (a - a) == 0).
  { assert (Ha : a - a == 0) by ring. rewrite Ha. reflexivity. }
  rewrite H0 in E. lra.
Qed.

Lemma click_frame (b : MouseButton) (ex ey pressed t now : Q) (e : Events) :
  quietMouse (mouseState e) = true -> 0 < clickRadius e ->
  t - pressed <= clickDelay (mouseState e) ->
  let po := pickingObject (mouseBase (mouseState e)) in
  let began := _dblClkBegins (timing b e) in
  let double := RendererEvents.truthy began
                && Qle_bool (now - began) (doubleClickDelay (mouseState e)) in
  exists e',
    handleMouseEvents (click b ex ey (pressed, t, now) e)
    = (e', fire (clickName b) po ++ fire (upName b) po
           ++ (if double then fire (dblclickName b) po else [])) /\
    quietMouse (mouseState e') = true /\ clickRadius e' = clickRadius e /\
    clickDelay (mouseState e') = clickDelay (mouseState e) /\
    doubleClickDelay (mouseState e') = doubleClickDelay (mouseState e) /\
    pickingObject (mouseBase (mouseState e')) = po /\
    _dblClkBegins (timing b e') = (if RendererEvents.truthy began then 0 else now).
Proof.
  intros Hq Hr Ht po began double.
  destruct e as [r fb h a cr [base L R M js dd cd wd] ts coords one tb thread TL TR TM].
  destruct L as [lu ld lh ldc lc], R as [ru rd rh rdc rc], M as [mu md mh mdc mc].
  destruct base as [cx cy px py pnx pny ppx ppy pko mv].
  unfold quietMouse, quietButton in Hq. cbn in Hq, Hr, Ht. split_bools. subst.
  subst po began double.
  assert (Hc : Qle_bool (t - pressed) cd = true) by (apply Qle_bool_iff; exact Ht).
  unfold click, onMouseDown, onMouseUp.
  destruct b;
    cbn -[Qle_bool Qabs Qminus RendererEvents.truthy handleMouseEvents];
    rewrite !within_radius by assumption; cbn [negb andb]; rewrite Hc;
    match goal with
    | |- context [RendererEvents.truthy (_dblClkBegins ?T)] =>
        destruct (RendererEvents.truthy (_dblClkBegins T)) eqn:Etr;
        [destruct (Qle_bool (now - _dblClkBegins T) dd) eqn:Edd |]
    end;
    cbn -[Qle_bool Qabs Qminus RendererEvents.truthy handleMouseEvents];
    unfold handleMouseEvents, steps, andThen, handleClick, handleDown, handleUp,
      handleDoubleClick, handleWheel, handleMove, handleStop;
    cbn -[Qle_bool Qabs Qminus RendererEvents.truthy]; rewrite H1;
    cbn -[Qle_bool Qabs Qminus RendererEvents.truthy];
    (eexists; split; [rewrite ?app_nil_r; reflexivity |]);
    unfold quietMouse, quietButton; cbn -[RendererEvents.truthy]; rewrite ?H1;
    repeat split; reflexivity.
Qed.


Lemma doubles_odd (k n : nat) : doubles (Nat.odd k) n = map Nat.odd (seq k n).
Proof.
  revert k. induction n as [| n IH]; intros k; cbn; [reflexivity |].
  f_equal. rewrite <- IH. f_equal. rewrite Nat.odd_succ, <- Nat.negb_odd. reflexivity.
Qed.

Lemma clickFrames_doubles (b : MouseButton) (ex ey : Q) (l : list (Q * Q * Q))
    (e : Events) (pend : bool) (prev : option Q) :
  quietMouse (mouseState e) = true -> 0 < clickRadius e ->
  (if pend
   then exists q, prev = Some q /\ _dblClkBegins (timing b e) = q /\ ~ q == 0
   else _dblClkBegins (timing b e) == 0) ->
  quickClicks (clickDelay (mouseState e)) (doubleClickDelay (mouseState e)) prev l ->
  let po := pickingObject (mouseBase (mouseState e)) in
  snd (clickFrames b ex ey l e)
  = map (fun d : bool => fire (clickName b) po ++ fire (upName b) po
                         ++ (if d then fire (dblclickName b) po else []))
      (doubles pend (length l)).
Proof.
  revert e pend prev. induction l as [| [[pressed t] now] l IH];
    intros e pend prev Hq Hr Hpend Hl po; [reflexivity |].
  cbn [quickClicks] in Hl. destruct Hl as (Ht & Hnow & Hprev & Hl).
  destruct (click_frame b ex ey pressed t now e Hq Hr Ht)
    as (e' & Hf & Hq' & Hr' & Hcd & Hdd & Hpo & Hbegan).
  cbn [clickFrames length doubles map]. rewrite Hf.
  specialize (IH e' (negb pend) (Some now)).
  destruct (clickFrames b ex ey l e') as [e'' outs] eqn:Ecf. cbn [snd] in *.
  assert (Htr : RendererEvents.truthy (_dblClkBegins (timing b e)) = pend).
  { unfold RendererEvents.truthy. destruct pend.
    - destruct Hpend as (q & _ & -> & Hq0).
      destruct (Qeq_bool q 0) eqn:E; [| reflexivity].
      apply Qeq_bool_iff in E. contradiction.
    - apply Qeq_bool_iff in Hpend. rewrite Hpend. reflexivity. }
  rewrite Htr in Hbegan. f_equal.
  - fold po. f_equal. f_equal. rewrite Htr. destruct pend; [| reflexivity].
    destruct Hpend as (q & -> & -> & _). cbn [andb].
    assert (Hd : Qle_bool (now - q) (doubleClickDelay (mouseState e)) = true)
      by (apply Qle_bool_iff; exact Hprev).
    rewrite Hd. reflexivity.
  - rewrite IH; [rewrite Hpo; reflexivity | exact Hq' | rewrite Hr'; exact Hr | |].
    + destruct pend; cbn [negb].
      * rewrite Hbegan. reflexivity.
      * exists now. split; [reflexivity |]. split; [exact Hbegan | exact Hnow].
    + rewrite Hcd, Hdd. exact Hl.
Qed.

(** X23.  In a run of quick clicks of one button at one place, each a
    press and a release between two frames, every frame dispatches the
    click and then the release of the button, and every second frame the
    double click as well: a double click ends the pair, and the click
    after it starts a new one. *)
Theorem quick_clicks_double_click_every_second (b : MouseButton) (ex ey : Q)
    (l : list (Q * Q * Q)) (e : Events) :
  quietMouse (mouseState e) = true -> 0 < clickRadius e ->
  _dblClkBegins (timing b e) == 0 ->
  quickClicks (clickDelay (mouseState e)) (doubleClickDelay (mouseState e)) None l ->
  let po := pickingObject (mouseBase (mouseState e)) in
  snd (clickFrames b ex ey l e)
  = map (fun i : nat => fire (clickName b) po ++ fire (upName b) po
                        ++ (if Nat.odd i then fire (dblclickName b) po else []))
      (seq 0 (length l)).
Proof.
  intros Hq Hr Hb Hl po.
  rewrite (clickFrames_doubles b ex ey l e false None Hq Hr Hb Hl).
  change false with (Nat.odd 0). rewrite doubles_odd, map_map. reflexivity.
Qed.


(** The state after a tap on a quiet touch state. *)
Lemma tap_state (tx ty offsetLeft offsetTop now now' : Q)
    (r : RendererEvents.Renderer) (fb : JS.num -> JS.num -> Z * Z * Z) (h : Handler)
    (a : bool) (cr : Q) (ms : MouseState) (cx cy px py : Q) (pnx pny : JS.num)
    (ppx ppy : Q) (pko : option RendererEvents.PickingObject) (dtd dtr : Q)
    (coords : Q * Q) (one : bool) (tb : Q) (thread : bool) (TL TR TM : ClickTiming) :
  let px' := (tx - offsetLeft) * pixelRatio h in
  let py' := (ty - offsetTop) * pixelRatio h in
  tap tx ty offsetLeft offsetTop (now, now')
    (mkEvents r fb h a cr ms
       (mkTouchState (mkBaseInputState cx cy px py pnx pny ppx ppy pko false)
          false false false false dtd dtr)
       coords one tb thread TL TR TM)
  = mkEvents r fb h a cr ms
      (mkTouchState
         (mkBaseInputState (tx - offsetLeft) (ty - offsetTop) px' py'
            (JS.Fin px' / JS.Fin (width h))%js (JS.Fin py' / JS.Fin (height h))%js
            px' py' pko false)
         true true false
         (RendererEvents.truthy tb && Qle_bool (now - tb) dtd) dtd dtr)
      (px', py') false now' thread TL TR TM.
Proof.
  intros px' py'. subst px' py'.
  unfold tap, onTouchStart, onTouchEnd, touchPosition.
  cbn -[Qle_bool Qminus Qmult RendererEvents.truthy JS.div].
  destruct (RendererEvents.truthy tb); [destruct (Qle_bool (now - tb) dtd) |];
    reflexivity.
Qed.

(** The frame after a tap. *)
Lemma handleTouchEvents_tapped (r : RendererEvents.Renderer)
    (fb : JS.num -> JS.num -> Z * Z * Z) (h : Handler)
    (a : bool) (cr : Q) (ms : MouseState) (cx cy px py : Q) (pnx pny : JS.num)
    (ppx ppy : Q) (pko : option RendererEvents.PickingObject) (d : bool) (dtd dtr : Q)
    (coords : Q * Q) (one : bool) (tb : Q) (thread : bool) (TL TR TM : ClickTiming)
    (g : RendererEvents.ModuleState) :
  let c := fb pnx (JS.Fin 1 - pny)%js in
  let co := RendererEvents.getPickingObjectArr r c in
  handleTouchEvents
    (mkEvents r fb h a cr ms
       (mkTouchState (mkBaseInputState cx cy px py pnx pny ppx ppy pko false)
          true true false d dtd dtr)
       coords one tb thread TL TR TM) g
  = (mkEvents r fb h a cr ms
       (mkTouchState (mkBaseInputState cx cy 0 0 pnx pny ppx ppy co false)
          false false false false dtd dtr)
       coords one tb thread TL TR TM,
     RendererEvents.mkModuleState (RendererEvents.__skipFrames__ g) c
       (RendererEvents._tempCurrPickingColor g) (RendererEvents._prevPickingColor g),
     fire touchstart co ++ (if d then fire doubletouch co else []) ++ fire touchend co).
Proof.
  intros c co. subst c co. unfold handleTouchEvents.
  destruct d; cbn -[JS.sub fire]; rewrite <- ?List.app_assoc; reflexivity.
Qed.


Lemma tap_frame (tx ty offsetLeft offsetTop now now' : Q) (e : Events)
    (g : RendererEvents.ModuleState) :
  quietTouch (touchState e) = true ->
  let ts := touchPosition tx ty offsetLeft offsetTop (handler e) (touchBase (touchState e)) in
  let c := pickingFramebuffer e (nx ts) (JS.Fin 1 - ny ts)%js in
  let co := RendererEvents.getPickingObjectArr (renderer e) c in
  let began := _dblTchBegins e in
  let double := RendererEvents.truthy began
                && Qle_bool (now - began) (doubleTouchDelay (touchState e)) in
  exists e' g',
    handleTouchEvents (tap tx ty offsetLeft offsetTop (now, now') e) g
    = (e', g', fire touchstart co ++ (if double then fire doubletouch co else [])
               ++ fire touchend co) /\
    quietTouch (touchState e') = true /\ handler e' = handler e /\
    renderer e' = renderer e /\ pickingFramebuffer e' = pickingFramebuffer e /\
    doubleTouchDelay (touchState e') = doubleTouchDelay (touchState e) /\
    _dblTchBegins e' = now' /\
    RendererEvents._currPickingColor g' = c.
Proof.
  intros Hq ts0 c co began double.
  destruct e as [r fb h a cr ms [base te tst tc dt dtd dtr] coords one tb thread TL TR TM].
  destruct base as [cx cy px py pnx pny ppx ppy pko mv].
  unfold quietTouch in Hq. cbn in Hq. split_bools. subst.
  subst ts0 c co began double.
  rewrite tap_state. cbv zeta. rewrite handleTouchEvents_tapped. cbv zeta.
  eexists _, _. split; [reflexivity |]. repeat split.
Qed.

Lemma tapFrames_doubles (tx ty offsetLeft offsetTop : Q) (l : list (Q * Q)) (e : Events)
    (g : RendererEvents.ModuleState) (k : nat) (prev : option Q) :
  quietTouch (touchState e) = true ->
  (match k with
   | O => _dblTchBegins e == 0
   | S _ => exists q, prev = Some q /\ _dblTchBegins e = q /\ ~ q == 0
   end) ->
  quickTaps (doubleTouchDelay (touchState e)) prev l ->
  let ts := touchPosition tx ty offsetLeft offsetTop (handler e) (touchBase (touchState e)) in
  let co := RendererEvents.getPickingObjectArr (renderer e)
              (pickingFramebuffer e (nx ts) (JS.Fin 1 - ny ts)%js) in
  snd (tapFrames tx ty offsetLeft offsetTop l e g)
  = map (fun i : nat => fire touchstart co
                        ++ (if (0 <? i)%nat then fire doubletouch co else [])
                        ++ fire touchend co)
      (seq k (length l)).
Proof.
  revert e g k prev. induction l as [| [now now'] l IH];
    intros e g k prev Hq Hk Hl ts co; [reflexivity |].
  cbn [quickTaps] in Hl. destruct Hl as (Hnow & Hprev & Hl).
  destruct (tap_frame tx ty offsetLeft offsetTop now now' e g Hq)
    as (e' & g' & Hf & Hq' & Hh & Hr & Hfb & Hdd & Hb & _).
  cbn [tapFrames length seq map]. rewrite Hf.
  specialize (IH e' g' (S k) (Some now')).
  destruct (tapFrames tx ty offsetLeft offsetTop l e' g') as [[e'' g''] outs] eqn:Etf.
  cbn [snd] in *.
  assert (Hd : RendererEvents.truthy (_dblTchBegins e)
               && Qle_bool (now - _dblTchBegins e) (doubleTouchDelay (touchState e))
               = (0 <? k)%nat).
  { unfold RendererEvents.truthy. destruct k as [| k'].
    - apply Qeq_bool_iff in Hk. rewrite Hk. reflexivity.
    - destruct Hk as (q & -> & -> & Hq0).
      destruct (Qeq_bool q 0) eqn:E; [apply Qeq_bool_iff in E; contradiction |].
      cbn [negb andb].
      assert (Hle : Qle_bool (now - q) (doubleTouchDelay (touchState e)) = true)
        by (apply Qle_bool_iff; exact Hprev).
      rewrite Hle. reflexivity. }
  f_equal.
  - rewrite Hd. reflexivity.
  - rewrite IH.
    + subst ts co. rewrite Hh, Hr, Hfb.
      assert (Hpos : forall b1 b2 : BaseInputState,
                 nx (touchPosition tx ty offsetLeft offsetTop (handler e) b1)
                 = nx (touchPosition tx ty offsetLeft offsetTop (handler e) b2) /\
                 ny (touchPosition tx ty offsetLeft offsetTop (handler e) b1)
                 = ny (touchPosition tx ty offsetLeft offsetTop (handler e) b2))
        by (intros b1 b2; split; reflexivity).
      destruct (Hpos (touchBase (touchState e')) (touchBase (touchState e))) as [-> ->].
      reflexivity.
    + exact Hq'.
    + exists now'. split; [reflexivity |]. split; [exact Hb | exact Hnow].
    + rewrite Hdd. exact Hl.
Qed.

(** X24.  In a run of quick taps of one finger at one place, each a touch
    and its end between two frames, every frame dispatches the touch
    start and the touch end to the object under the touch and to the
    instance, and every frame but the first the double touch as well: a
    double touch does not end the pair, the tap after it is a double touch
    again. *)
Theorem quick_taps_double_touch_after_first (tx ty offsetLeft offsetTop : Q)
    (l : list (Q * Q)) (e : Events) (g : RendererEvents.ModuleState) :
  quietTouch (touchState e) = true -> _dblTchBegins e == 0 ->
  quickTaps (doubleTouchDelay (touchState e)) None l ->
  let ts := touchPosition tx ty offsetLeft offsetTop (handler e) (touchBase (touchState e)) in
  let co := RendererEvents.getPickingObjectArr (renderer e)
              (pickingFramebuffer e (nx ts) (JS.Fin 1 - ny ts)%js) in
  snd (tapFrames tx ty offsetLeft offsetTop l e g)
  = map (fun i : nat => fire touchstart co
                        ++ (if (0 <? i)%nat then fire doubletouch co else [])
                        ++ fire touchend co)
      (seq 0 (length l)).
Proof.
  intros Hq Hb Hl.
  exact (tapFrames_doubles tx ty offsetLeft offsetTop l e g 0 None Hq Hb Hl).
Qed.



(** A frame of the touches with nothing to dispatch. *)
Lemma handleTouchEvents_quiet (e : Events) (g : RendererEvents.ModuleState) :
  quietTouch (touchState e) = true -> handleTouchEvents e g = (e, g, []).
Proof.
  intros Hq.
  destruct e as [r fb h a cr ms [base te tst tc dt dtd dtr] coords one tb thread TL TR TM].
  destruct base as [cx cy px py pnx pny ppx ppy pko mv].
  unfold quietTouch in Hq. cbn in Hq. split_bools. subst.
  reflexivity.
Qed.

Lemma handleEvents_pressed (b : MouseButton) (hold : bool) (r : RendererEvents.Renderer)
    (fb : JS.num -> JS.num -> Z * Z * Z) (h : Handler) (cr : Q) (base : BaseInputState)
    (dd cd wd : Q) (ts : TouchState) (coords : Q * Q) (one : bool) (tb : Q)
    (thread : bool) (TL TR TM : ClickTiming) (g : RendererEvents.ModuleState) :
  moving base = false -> RendererEvents.truthy wd = false -> quietTouch ts = true ->
  handleEvents (pressedState b hold r fb h cr base dd cd wd ts coords one tb thread TL TR TM) g
  = Some (pressedState b true r fb h cr base dd cd wd ts coords one tb thread TL TR TM, g,
          fire (if hold then holdName b else downName b) (pickingObject base)).
Proof.
  intros Hm Hw Hq. unfold handleEvents, pressedState. cbn [_active].
  destruct base as [cx cy px py pnx pny ppx ppy pko mv]. cbn in Hm. subst mv.
  assert (Hmouse : handleMouseEvents
            (mkEvents r fb h true cr
               (set_button b (fun _ => mkButtonFlags false true hold false false)
                  (mkMouseState
                     (mkBaseInputState cx cy px py pnx pny ppx ppy pko false)
                     newButtonFlags newButtonFlags newButtonFlags false dd cd wd))
               ts coords one tb thread TL TR TM)
          = (mkEvents r fb h true cr
               (set_button b (fun _ => mkButtonFlags false true true false false)
                  (mkMouseState
                     (mkBaseInputState cx cy px py pnx pny ppx ppy pko false)
                     newButtonFlags newButtonFlags newButtonFlags false dd cd wd))
               ts coords one tb thread TL TR TM,
             fire (if hold then holdName b else downName b) pko)).
  { unfold handleMouseEvents, steps, andThen, handleClick, handleDown, handleUp,
      handleDoubleClick, handleWheel, handleMove, handleStop.
    destruct b, hold; cbn -[RendererEvents.truthy fire]; rewrite Hw;
      cbn -[RendererEvents.truthy fire]; rewrite ?app_nil_r; reflexivity. }
  rewrite Hmouse. rewrite handleTouchEvents_quiet by exact Hq.
  unfold entityPickingEvents. cbn [pickingObject].
  destruct b; cbn; rewrite ?app_nil_r; reflexivity.
Qed.

Lemma frames_pressed (n : nat) (b : MouseButton) (r : RendererEvents.Renderer)
    (fb : JS.num -> JS.num -> Z * Z * Z) (h : Handler) (cr : Q) (base : BaseInputState)
    (dd cd wd : Q) (ts : TouchState) (coords : Q * Q) (one : bool) (tb : Q)
    (thread : bool) (TL TR TM : ClickTiming) (g : RendererEvents.ModuleState) :
  moving base = false -> RendererEvents.truthy wd = false -> quietTouch ts = true ->
  frames n (pressedState b true r fb h cr base dd cd wd ts coords one tb thread TL TR TM) g
  = Some (pressedState b true r fb h cr base dd cd wd ts coords one tb thread TL TR TM, g,
          repeat (fire (holdName b) (pickingObject base)) n).
Proof.
  intros Hm Hw Hq. induction n as [| n IH]; [reflexivity |].
  cbn [frames repeat]. rewrite handleEvents_pressed by assumption.
  rewrite IH. reflexivity.
Qed.

(** X25.  A pressed button freezes picking: in the frames that follow a
    press, as long as the button is not released, [handleEvents]
    dispatches the button-down event once and then the hold event in
    every frame, reads no picking colour, and leaves the module colours
    and the picking object of the mouse as they were. *)
Theorem pressed_button_freezes_picking (b : MouseButton) (ex ey now : Q) (e : Events)
    (g : RendererEvents.ModuleState) (n : nat) :
  _active e = true -> quietMouse (mouseState e) = true ->
  quietTouch (touchState e) = true ->
  let po := pickingObject (mouseBase (mouseState e)) in
  exists e',
    frames (S n) (onMouseDown (Some b) ex ey now e) g
    = Some (e', g, fire (downName b) po :: repeat (fire (holdName b) po) n) /\
    pickingObject (mouseBase (mouseState e')) = po /\
    buttonHold (button b (mouseState e')) = true.
Proof.
  intros Ha Hq Hqt po.
  destruct e as [r fb h a cr [base L R M js dd cd wd] ts coords one tb thread TL TR TM].
  destruct L as [lu ld lh ldc lc], R as [ru rd rh rdc rc], M as [mu md mh mdc mc].
  unfold quietMouse, quietButton in Hq. cbn in Hq, Ha, Hqt, po. split_bools. subst.
  assert (Hdown : exists TL' TR' TM',
             onMouseDown (Some b) ex ey now
               (mkEvents r fb h true cr
                  (mkMouseState base (mkButtonFlags false false false false false)
                     (mkButtonFlags false false false false false)
                     (mkButtonFlags false false false false false) false dd cd wd)
                  ts coords one tb thread TL TR TM)
             = pressedState b false r fb h cr base dd cd wd ts coords one tb thread
                 TL' TR' TM').
  { destruct b; eexists _, _, _; reflexivity. }
  destruct Hdown as (TL' & TR' & TM' & ->).
  cbn [frames]. rewrite handleEvents_pressed by assumption.
  rewrite frames_pressed by assumption.
  eexists. split; [reflexivity |]. split; [destruct b; reflexivity |].
  destruct b; reflexivity.
Qed.





End PointerFacts.

(** * Mouse moves and dragged touches *)

Section PointerMoves.

Import Pointer.

Lemma mouseState_forgetClick (ex ey : Q) (b : MouseButton) (e : Events) :
  mouseState (forgetClick ex ey b e) = mouseState e.
Proof.
  unfold forgetClick. destruct (_ && _); [| reflexivity]. destruct b; reflexivity.
Qed.

Lemma mouseState_onMouseMove (ex ey : Q) (buttons : Z) (e : Events) (b : MouseButton) :
  button b (mouseState (onMouseMove ex ey buttons e))
  = button b (updateButtonsStates buttons (mouseState e)).
Proof.
  unfold onMouseMove. cbv zeta.
  match goal with
  | |- context [if ?c then _ else _] => destruct c
  end.
  - rewrite !mouseState_forgetClick. reflexivity.
  - cbn [mouseState set_mousestopThread set_mouseState].
    rewrite !mouseState_forgetClick. destruct b; reflexivity.
Qed.

Lemma button_updateButtonState (buttons : Z) (b b' : MouseButton) (ms : MouseState) :
  button b (updateButtonState buttons b' ms)
  = if decide (b = b') then
      if negb (Z.land buttons (mask b) =? 0)%Z && buttonDown (button b ms)
      then set_buttonDown true (button b ms)
      else set_buttonDown false (set_buttonHold false (button b ms))
    else button b ms.
Proof.
  unfold updateButtonState.
  destruct b, b'; cbn [decide decide_rel MouseButton_eq_dec];
    try (destruct (_ && _); reflexivity).
Qed.

Lemma timing_forgetClick (ex ey : Q) (b b' : MouseButton) (e : Events) :
  timing b (forgetClick ex ey b' e)
  = if decide (b = b') then
      if Qle_bool (clickRadius e) (Qabs (_clickX (timing b e) - ex))
         && Qle_bool (clickRadius e) (Qabs (_clickY (timing b e) - ey))
      then set_ClkBegins 0 (set_dblClkBegins 0 (timing b e))
      else timing b e
    else timing b e.
Proof.
  unfold forgetClick.
  destruct b, b'; cbn [decide decide_rel MouseButton_eq_dec];
    try (destruct (_ && _); reflexivity).
Qed.

Lemma clickRadius_forgetClick (ex ey : Q) (b : MouseButton) (e : Events) :
  clickRadius (forgetClick ex ey b e) = clickRadius e.
Proof.
  unfold forgetClick. destruct (_ && _); [| reflexivity]. destruct b; reflexivity.
Qed.

Lemma clickDelay_updateButtonsStates (buttons : Z) (ms : MouseState) :
  clickDelay (updateButtonsStates buttons ms) = clickDelay ms.
Proof.
  unfold updateButtonsStates, updateButtonState.
  repeat match goal with
         | |- context [if ?c then _ else _] => destruct c
         end; reflexivity.
Qed.

(** What a mouse move keeps, and what it does to the click of a button. *)
Lemma mouse_move_flags (ex ey : Q) (buttons : Z) (e : Events) (b : MouseButton) :
  buttonClick (button b (mouseState (onMouseMove ex ey buttons e)))
  = buttonClick (button b (mouseState e)) /\
  clickRadius (onMouseMove ex ey buttons e) = clickRadius e /\
  clickDelay (mouseState (onMouseMove ex ey buttons e)) = clickDelay (mouseState e) /\
  timing b (onMouseMove ex ey buttons e)
  = if Qle_bool (clickRadius e) (Qabs (_clickX (timing b e) - ex))
       && Qle_bool (clickRadius e) (Qabs (_clickY (timing b e) - ey))
    then set_ClkBegins 0 (set_dblClkBegins 0 (timing b e))
    else timing b e.
Proof.
  split.
  { rewrite mouseState_onMouseMove. unfold updateButtonsStates.
    rewrite !button_updateButtonState.
    destruct (button b (mouseState e)) as [u d h dc c].
    destruct (negb (Z.land buttons (mask b) =? 0)%Z); destruct b, d; reflexivity. }
  unfold onMouseMove. cbv zeta.
  set (e0 := set_mouseState (updateButtonsStates buttons) e).
  assert (H0 : clickRadius e0 = clickRadius e /\ timing b e0 = timing b e /\
               clickDelay (mouseState e0) = clickDelay (mouseState e)).
  { subst e0. repeat split; try (destruct b; reflexivity).
    cbn [mouseState set_mouseState]. apply clickDelay_updateButtonsStates. }
  destruct H0 as (Hr0 & Ht0 & Hd0).
  set (e3 := forgetClick ex ey MB_MIDDLE (forgetClick ex ey MB_RIGHT
               (forgetClick ex ey MB_LEFT e0))).
  assert (H3 : clickRadius e3 = clickRadius e /\
               clickDelay (mouseState e3) = clickDelay (mouseState e) /\
               timing b e3
               = if Qle_bool (clickRadius e) (Qabs (_clickX (timing b e) - ex))
                    && Qle_bool (clickRadius e) (Qabs (_clickY (timing b e) - ey))
                 then set_ClkBegins 0 (set_dblClkBegins 0 (timing b e))
                 else timing b e).
  { subst e3. rewrite !clickRadius_forgetClick, !mouseState_forgetClick.
    split; [exact Hr0 |]. split; [exact Hd0 |].
    rewrite !timing_forgetClick, !clickRadius_forgetClick.
    destruct b; cbn [decide decide_rel MouseButton_eq_dec];
      rewrite ?timing_forgetClick; cbn [decide decide_rel MouseButton_eq_dec];
      rewrite ?clickRadius_forgetClick, ?Hr0, ?Ht0; reflexivity. }
  destruct H3 as (Hr3 & Hd3 & Ht3).
  match goal with
  | |- context [if ?c then e3 else _] => destruct c
  end.
  - split; [exact Hr3 |]. split; [exact Hd3 | exact Ht3].
  - cbn [clickRadius mouseState clickDelay set_mousestopThread set_mouseState
         set_mouseBase].
    split; [exact Hr3 |]. split; [exact Hd3 |].
    rewrite <- Ht3. destruct b; reflexivity.
Qed.

(** X28.  A mouse move never presses a button and never reports a release:
    for each button, the down flag survives the move only if the system
    reports the button as pressed, the hold flag only if the button stays
    down, and the up, click and double click flags are left as they
    were.  A button whose release was missed is so put back to rest
    without any button-up event. *)
Theorem mouse_move_only_releases_buttons (ex ey : Q) (buttons : Z) (e : Events)
    (b : MouseButton) :
  let pressed := negb (Z.land buttons (mask b) =? 0)%Z in
  let f := button b (mouseState e) in
  let f' := button b (mouseState (onMouseMove ex ey buttons e)) in
  buttonDown f' = pressed && buttonDown f /\
  buttonHold f' = pressed && buttonDown f && buttonHold f /\
  buttonUp f' = buttonUp f /\ buttonClick f' = buttonClick f /\
  buttonDoubleClick f' = buttonDoubleClick f.
Proof.
  cbv zeta. rewrite mouseState_onMouseMove. unfold updateButtonsStates.
  rewrite !button_updateButtonState.
  destruct (button b (mouseState e)) as [u d h dc c].
  destruct (negb (Z.land buttons (mask b) =? 0)%Z);
    destruct b, d, h; cbn; repeat split.
Qed.


Lemma ltb_lt (a b : Q) : a < b -> JS.ltb a b = true.
Proof.
  intros H. unfold JS.ltb. destruct (Qle_bool b a) eqn:E; [| reflexivity].
  apply Qle_bool_iff in E. lra.
Qed.

Lemma onTouchMove_tap_tracking (tx ty offsetLeft offsetTop : Q) (e : Events) :
  doubleTouch (touchState (onTouchMove tx ty offsetLeft offsetTop e))
  = doubleTouch (touchState e) /\
  (_dblTchBegins e = 0 -> _oneTouchStart e = false ->
   _dblTchBegins (onTouchMove tx ty offsetLeft offsetTop e) = 0 /\
   _oneTouchStart (onTouchMove tx ty offsetLeft offsetTop e) = false).
Proof.
  unfold onTouchMove. cbv zeta.
  destruct (JS.ltb 9 _ || JS.ltb 9 _).
  - split; [reflexivity |]. intros _ _. split; reflexivity.
  - split; [reflexivity |]. intros Hb Ho. split; assumption.
Qed.

Lemma handleTouchEvents_tap_tracking (e : Events) (g : RendererEvents.ModuleState) :
  doubleTouch (touchState (fst (fst (handleTouchEvents e g)))) = false /\
  _dblTchBegins (fst (fst (handleTouchEvents e g))) = _dblTchBegins e /\
  _oneTouchStart (fst (fst (handleTouchEvents e g))) = _oneTouchStart e.
Proof.
  destruct e as [rd fb h a cr ms [base te tst tc dt dtd dtr] coords one tb thread TL TR TM].
  destruct base as [cx cy px py pnx pny ppx ppy pko mv].
  unfold handleTouchEvents.
  destruct tc, tst, dt, te, mv; cbn; repeat split.
Qed.

Lemma touchSteps_tap_tracking (l : list TouchStep) (eg : Events * RendererEvents.ModuleState)
    (e0 : Events) :
  _dblTchBegins (fst eg) = 0 -> _oneTouchStart (fst eg) = false ->
  (doubleTouch (touchState (fst eg)) = true -> doubleTouch (touchState e0) = true) ->
  _dblTchBegins (fst (touchSteps l eg)) = 0 /\
  _oneTouchStart (fst (touchSteps l eg)) = false /\
  (doubleTouch (touchState (fst (touchSteps l eg))) = true ->
   doubleTouch (touchState e0) = true).
Proof.
  revert eg. induction l as [| s l IH]; intros eg Hb Ho Hd.
  - repeat split; assumption.
  - cbn [touchSteps fold_left]. apply IH.
    + destruct s as [tx ty ol ot |]; cbn [touchStep fst].
      * apply (onTouchMove_tap_tracking tx ty ol ot (fst eg)); assumption.
      * destruct (handleTouchEvents_tap_tracking (fst eg) (snd eg)) as (_ & -> & _).
        exact Hb.
    + destruct s as [tx ty ol ot |]; cbn [touchStep fst].
      * apply (onTouchMove_tap_tracking tx ty ol ot (fst eg)); assumption.
      * destruct (handleTouchEvents_tap_tracking (fst eg) (snd eg)) as (_ & _ & ->).
        exact Ho.
    + destruct s as [tx ty ol ot |]; cbn [touchStep fst].
      * destruct (onTouchMove_tap_tracking tx ty ol ot (fst eg)) as (-> & _). exact Hd.
      * destruct (handleTouchEvents_tap_tracking (fst eg) (snd eg)) as (-> & _).
        discriminate.
Qed.

(** X29.  A move event that takes a touch more than nine device pixels
    along an axis away from [(prev_x, prev_y)], the position of the touch
    at its start or at the last frame that saw it move, cancels the tap:
    whatever move events and frames of [handleTouchEvents] follow, the end
    of the touch raises no double touch and leaves no first tap to pair
    with ([_dblTchBegins = 0], [_oneTouchStart = false]).  The distance is
    taken from [(prev_x, prev_y)], not from the place of the touch start:
    the theorem says nothing of a drag whose move events each stay
    within nine pixels of the position at the frame before. *)
Theorem far_touch_move_cancels_tap (tx ty offsetLeft offsetTop now now' : Q)
    (touches : nat) (rest : list TouchStep) (e : Events) (g : RendererEvents.ModuleState) :
  let r := pixelRatio (handler e) in
  let ts := touchBase (touchState e) in
  9 < Qabs ((tx - offsetLeft) * r - prev_x ts)
  \/ 9 < Qabs ((ty - offsetTop) * r - prev_y ts) ->
  let e1 := onTouchMove tx ty offsetLeft offsetTop e in
  let e2 := fst (touchSteps rest (e1, g)) in
  let e3 := onTouchEnd touches now now' e2 in
  _dblTchBegins e3 = 0 /\ _oneTouchStart e3 = false /\
  (doubleTouch (touchState e3) = true -> doubleTouch (touchState e) = true).
Proof.
  intros r ts Hfar e1 e2 e3.
  assert (Hcond : JS.ltb 9 (Qabs ((tx - offsetLeft) * r - prev_x ts))
                  || JS.ltb 9 (Qabs ((ty - offsetTop) * r - prev_y ts)) = true).
  { destruct Hfar as [H | H]; rewrite (ltb_lt _ _ H); [reflexivity |].
    apply Bool.orb_true_r. }
  assert (H1 : _dblTchBegins e1 = 0 /\ _oneTouchStart e1 = false /\
               doubleTouch (touchState e1) = doubleTouch (touchState e)).
  { subst e1 r ts.
    destruct e as [rd fb h a cr ms [base te tst tc dt dtd dtr] coords one tb thread TL TR TM].
    destruct base as [cx cy px py pnx pny ppx ppy pko mv].
    cbn [handler touchState touchBase prev_x prev_y] in Hcond.
    unfold onTouchMove, touchPosition.
    cbn -[Qminus Qmult Qabs JS.ltb JS.div].
    rewrite Hcond. repeat split. }
  destruct H1 as (Hb1 & Ho1 & Hd1).
  destruct (touchSteps_tap_tracking rest (e1, g) e Hb1 Ho1) as (Hb2 & Ho2 & Hd2).
  { cbn [fst]. rewrite Hd1. exact (fun H => H). }
  fold e2 in Hb2, Ho2, Hd2.
  subst e3. unfold onTouchEnd. cbv zeta.
  destruct (touches =? 0)%nat.
  - replace (_oneTouchStart _) with false by (symmetry; exact Ho2).
    repeat split; [exact Hb2 | exact Ho2 | exact Hd2].
  - repeat split; [exact Hb2 | exact Ho2 | exact Hd2].
Qed.

(** X30.  A mouse move between a press and a release does not cancel the
    click by itself.  After a press of a button whose click flag is down
    and whose [clickRadius] is positive, a move to [(mx, my)] and a
    release at the place of the press at most [clickDelay] after the
    press, the click flag is raised whenever one of the two distances of
    the move from the press stayed below the radius; a move that reaches
    the radius along both axes only sets the time of the press to [0],
    so that the click is then raised exactly when the clock reading [t]
    of the release is itself at most [clickDelay]. *)
Theorem mouse_move_far_on_both_axes_resets_click_timer (b : MouseButton)
    (ex ey mx my pressed t now : Q) (buttons : Z) (e : Events) :
  0 < clickRadius e -> t - pressed <= clickDelay (mouseState e) ->
  buttonClick (button b (mouseState e)) = false ->
  let e1 := onMouseDown (Some b) ex ey pressed e in
  let e2 := onMouseMove mx my buttons e1 in
  let e3 := onMouseUp (Some b) ex ey t now e2 in
  buttonClick (button b (mouseState e3))
  = if Qle_bool (clickRadius e) (Qabs (ex - mx))
       && Qle_bool (clickRadius e) (Qabs (ey - my))
    then Qle_bool (t - 0) (clickDelay (mouseState e))
    else true.
Proof.
  intros Hr Ht Hc e1 e2 e3.
  assert (Hin : Qle_bool (t - pressed) (clickDelay (mouseState e)) = true)
    by (apply Qle_bool_iff; exact Ht).
  (* the press *)
  assert (H1 : clickRadius e1 = clickRadius e /\
               clickDelay (mouseState e1) = clickDelay (mouseState e) /\
               buttonClick (button b (mouseState e1)) = false /\
               timing b e1 = mkClickTiming (_dblClkBegins (timing b e)) pressed ex ey).
  { subst e1. unfold onMouseDown. destruct b; cbn; repeat split; exact Hc. }
  destruct H1 as (Hr1 & Hd1 & Hc1 & Ht1).
  (* the move *)
  assert (H2 : clickRadius e2 = clickRadius e /\
               clickDelay (mouseState e2) = clickDelay (mouseState e) /\
               buttonClick (button b (mouseState e2)) = false /\
               _clickX (timing b e2) = ex /\ _clickY (timing b e2) = ey /\
               _ClkBegins (timing b e2)
               = if Qle_bool (clickRadius e) (Qabs (ex - mx))
                    && Qle_bool (clickRadius e) (Qabs (ey - my))
                 then 0 else pressed).
  { pose proof (mouse_move_flags mx my buttons e1 b) as Hflags.
    destruct Hflags as (Hfc & Hfr & Hfd & Hft).
    subst e2. rewrite Hfr, Hfd, Hfc, Hft, Hc1, Hr1, Hd1, Ht1.
    cbn [_clickX _clickY _ClkBegins _dblClkBegins].
    destruct (Qle_bool (clickRadius e) (Qabs (ex - mx))
              && Qle_bool (clickRadius e) (Qabs (ey - my)));
      repeat split. }
  destruct H2 as (Hr2 & Hd2 & Hc2 & Hx2 & Hy2 & Hb2).
  (* the release *)
  subst e3. unfold onMouseUp.
  assert (Hkeep : forall (f : ButtonFlags -> ButtonFlags) (x : Events),
             clickRadius (set_mouseState (set_button b f) x) = clickRadius x /\
             timing b (set_mouseState (set_button b f) x) = timing b x /\
             clickDelay (mouseState (set_mouseState (set_button b f) x))
             = clickDelay (mouseState x)).
  { intros f x. destruct b; repeat split. }
  cbv zeta.
  destruct (Hkeep (fun f => set_buttonUp true (set_buttonDown false f)) e2)
    as (-> & -> & ->).
  rewrite Hr2, Hd2, Hx2, Hy2, Hb2, !within_radius by exact Hr. cbn [negb andb].
  destruct (Qle_bool (clickRadius e) (Qabs (ex - mx))
            && Qle_bool (clickRadius e) (Qabs (ey - my))).
  - destruct (Qle_bool (t - 0) (clickDelay (mouseState e))).
    + destruct (RendererEvents.truthy _); [destruct (Qle_bool _ _) |];
        destruct b; reflexivity.
    + destruct b; cbn; exact Hc2.
  - rewrite Hin.
    destruct (RendererEvents.truthy _); [destruct (Qle_bool _ _) |];
      destruct b; reflexivity.
Qed.

End PointerMoves.

(** * The properties on the sample values *)

Section SampleRuns.

#[local] Existing Instance EarthSample.mercator.
#[local] Existing Instance EarthSample.geoid.


Lemma ground_query_on_sentinel_gets_NaN_witness :
  getHeightAsync GND EarthSample.query 3 100 Samples.sentinelWorld
  = invoke 3 JS.NaN Samples.sentinelWorld.
Proof.
  apply (ground_query_on_sentinel_gets_NaN Samples.sentinelWorld EarthSample.query 100 3
           (mkTileData [] (getTileExtent 8510 5520 14))).
  - vm_compute. reflexivity.
  - reflexivity.
Defined.

Lemma elevation_cache_never_evicts_witness :
  fetchesTo EarthSample.tile
    (run [GetHeightAsync GND EarthSample.query 3 100; LoadTerrain 0 false]
       Samples.sentinelWorld)
  = fetchesTo EarthSample.tile Samples.sentinelWorld.
Proof.
  apply (elevation_cache_never_evicts EarthSample.tile
           [GetHeightAsync GND EarthSample.query 3 100; LoadTerrain 0 false]
           Samples.sentinelWorld).
  vm_compute. eexists. reflexivity.
Defined.

Lemma cached_ground_query_is_idempotent_witness :
  _elevationCache
    (run (repeat (GetHeightAsync GND EarthSample.query 3 100) 2) EarthSample.flatWorld)
  = _elevationCache EarthSample.flatWorld.
Proof.
  rewrite (cached_ground_query_is_idempotent EarthSample.flatWorld EarthSample.query 100 3
             (mkTileData (repeat 0 1024) (getTileExtent 8510 5520 14)) 2).
  - reflexivity.
  - vm_compute. reflexivity.
Defined.

Lemma bulk_load_feeds_point_queries_witness :
  _elevationCache (resolveLoad 0 (mkResponse ready [1; 2; 3; 4]) EarthSample.queuedWorld)
    !! EarthSample.tile
  = Some Samples.smallGrid.
Proof.
  assert (Hq : loadQueue EarthSample.queuedWorld !! 0%nat
               = Some (mkLoadReq EarthSample.tile 0 false))
    by (vm_compute; reflexivity).
  assert (Hs : segments EarthSample.queuedWorld !! 0%nat
               = Some (set_loading false true EarthSample.segment))
    by (vm_compute; reflexivity).
  destruct (bulk_load_feeds_point_queries EarthSample.queuedWorld 0
              (mkLoadReq EarthSample.tile 0 false)
              (set_loading false true EarthSample.segment)
              (mkResponse ready [1; 2; 3; 4]) Hq Hs eq_refl) as [Hc _].
  exact Hc.
Defined.

Lemma loadTerrain_applies_cached_tile_witness :
  loadQueue (loadTerrain 0 false EarthSample.flatWorld) = [].
Proof.
  assert (Hs : segments EarthSample.flatWorld !! 0%nat = Some EarthSample.segment)
    by (vm_compute; reflexivity).
  assert (Hc : _elevationCache EarthSample.flatWorld !! tileIndex EarthSample.segment
               = Some (mkTileData (repeat 0 1024) (getTileExtent 8510 5520 14)))
    by (vm_compute; reflexivity).
  destruct (loadTerrain_applies_cached_tile EarthSample.flatWorld 0 false
              EarthSample.segment
              (mkTileData (repeat 0 1024) (getTileExtent 8510 5520 14))
              Hs eq_refl eq_refl Hc) as (_ & Hq & _).
  exact Hq.
Defined.

Lemma polar_segments_are_never_loaded_witness :
  loadQueue (run [LoadTerrain 0 false; LoadTerrain 0 true]
               (newWorld 14 1 Samples.polarSegments)) = [].
Proof.
  destruct (polar_segments_are_never_loaded 14 1 Samples.polarSegments
              [LoadTerrain 0 false; LoadTerrain 0 true]) as [Hq _].
  - intros seg s Hs. unfold Samples.polarSegments in Hs.
    apply lookup_singleton_Some in Hs. destruct Hs as [_ <-]. discriminate.
  - exact Hq.
Defined.

Lemma bulk_load_error_is_not_cached_witness :
  _elevationCache (resolveLoad 0 (mkResponse error []) EarthSample.queuedWorld)
  = _elevationCache EarthSample.queuedWorld.
Proof.
  assert (Hq : loadQueue EarthSample.queuedWorld !! 0%nat
               = Some (mkLoadReq EarthSample.tile 0 false))
    by (vm_compute; reflexivity).
  assert (Hs : segments EarthSample.queuedWorld !! 0%nat
               = Some (set_loading false true EarthSample.segment))
    by (vm_compute; reflexivity).
  destruct (bulk_load_error_is_not_cached EarthSample.queuedWorld 0
              (mkLoadReq EarthSample.tile 0 false)
              (set_loading false true EarthSample.segment)
              (mkResponse error []) Hq Hs eq_refl) as [Hc _].
  exact Hc.
Defined.

Lemma url_rewrite_applies_to_bulk_loads_only_witness :
  loadQueue (loadTerrain 0 false
               (setUrlRewriteCallback (Some Samples.toRoot) EarthSample.world))
  = [mkLoadReq (0, 0, 0)%Z 0 false].
Proof.
  assert (Hs : segments EarthSample.world !! 0%nat = Some EarthSample.segment)
    by (vm_compute; reflexivity).
  destruct (url_rewrite_applies_to_bulk_loads_only Samples.toRoot EarthSample.world
              EarthSample.query 100 3 0 EarthSample.segment false) as [_ Hq].
  - vm_compute. reflexivity.
  - vm_compute. reflexivity.
  - exact Hs.
  - reflexivity.
  - reflexivity.
  - vm_compute. reflexivity.
  - exact Hq.
Defined.

Ltac sample_arith :=
  vm_compute; first [reflexivity | intros H'; discriminate H'].

Lemma getTileXY_common_index_range_witness :
  let '(x, y, _, _) := getTileXY EarthSample.query 14 in
  (0 <= x < 2 ^ 14)%Z /\ (0 <= y < 2 ^ 14)%Z.
Proof.
  pose proof (getTileXY_common_index_range EarthSample.query 14) as H.
  destruct (getTileXY EarthSample.query 14) as [[[x y] z] g].
  destruct H as (Hx & Hy & _).
  - sample_arith.
  - sample_arith.
  - lia.
  - reflexivity.
  - sample_arith.
  - sample_arith.
  - sample_arith.
  - sample_arith.
  - split; [exact Hx | exact Hy].
Defined.

Lemma getTileXY_north_row_is_nearest_line_witness :
  let '(_, y, _, g) := getTileXY Samples.northPoint 1 in
  g = TILEGROUP_NORTH /\ (0 <= y <= 2 ^ 1)%Z.
Proof.
  pose proof (getTileXY_north_row_is_nearest_line Samples.northPoint 1) as H.
  cbv zeta in H.
  destruct (getTileXY Samples.northPoint 1) as [[[x y] z] g].
  destruct H as (Hg & _ & Hy & _).
  - sample_arith.
  - lia.
  - sample_arith.
  - sample_arith.
  - sample_arith.
  - sample_arith.
  - split; [exact Hg | exact Hy].
Defined.

Lemma getLonLatTileOffset_polar_not_finite_witness :
  let '(i, j) := getLonLatTileOffset Samples.emptyExtent Samples.northPoint 0 0 0 32 in
  ~ isFinite i /\ ~ isFinite j.
Proof.
  apply (getLonLatTileOffset_polar_not_finite Samples.emptyExtent Samples.northPoint
           0 0 0 32).
  - sample_arith.
  - sample_arith.
  - left. sample_arith.
Defined.

End SampleRuns.

Section NavigationRuns.

Import MouseNavigation.

#[local] Existing Instance EarthSample.mercator.
#[local] Existing Instance EarthSample.geoid.
#[local] Existing Instance Samples.lineGeometry.
#[local] Existing Instance Samples.lineScene.

Lemma getMovePointsFromPixelTerrain_fills_every_step_witness :
  exists steps,
    getMovePointsFromPixelTerrain Samples.camera 5 (33 # 100) (40 : @Pixel Samples.lineGeometry) true None
    = Some steps /\
    length steps = 5%nat.
Proof.
  apply (getMovePointsFromPixelTerrain_fills_every_step Samples.camera 5 (33 # 100)
           (40 : @Pixel Samples.lineGeometry) true None).
  right. eexists. reflexivity.
Defined.



Lemma wheel_zoom_releases_locks_after_last_step_witness :
  exists c',
    draws ([false; false; false; false; false] ++ [false]) Samples.wheeledControl = Some c' /\
    (7%nat ∉ terrainLock (terrain (planet c'))).
Proof.
  destruct (wheel_zoom_releases_locks_after_last_step 120 (40 : @Pixel Samples.lineGeometry) None Samples.control
              Samples.wheeledControl [false; false; false; false; false] false)
    as (c' & Hd & _ & _ & _ & Hl & _).
  - reflexivity.
  - reflexivity.
  - reflexivity.
  - vm_compute. reflexivity.
  - reflexivity.
  - exists c'. split; [exact Hd | exact Hl].
Defined.

Lemma inertia_fades_out_witness :
  exists c',
    draws (repeat false 2) Samples.fadingControl = Some c' /\ scaleRot c' == 0.
Proof.
  destruct (inertia_fades_out 2 Samples.fadingControl) as (c' & Hd & Hs & _).
  - reflexivity.
  - reflexivity.
  - vm_compute. reflexivity.
  - vm_compute. intros H'. discriminate H'.
  - vm_compute. intros H'. discriminate H'.
  - lia.
  - exists c'. split; [exact Hd | exact Hs].
Defined.

End NavigationRuns.

Section PointerRuns.

Lemma object_left_after_sixteen_black_frames_witness :
  exists this' g',
    pickingFrames 16 Samples.offGlobeA Samples.onObjectA
    = (this', g', RendererEvents.leave (RendererEvents.mkPickingObject 1 true)).
Proof.
  destruct (object_left_after_sixteen_black_frames Samples.offGlobeA Samples.onObjectA
              (RendererEvents.mkPickingObject 1 true))
    as (_ & this' & g' & Hf & _).
  - reflexivity.
  - reflexivity.
  - reflexivity.
  - reflexivity.
  - reflexivity.
  - exists this', g'. exact Hf.
Defined.

Lemma short_black_pass_dispatches_nothing_witness :
  let '(_, g1, out1) := pickingFrames 3 Samples.offGlobeA Samples.onObjectA in
  let '(_, g2, out2) := RendererEvents.entityPickingEvents RendererEvents.globeA g1 in
  out1 ++ out2 = [] /\
  RendererEvents._currPickingColor g2 = RendererEvents._currPickingColor Samples.onObjectA /\
  RendererEvents.__skipFrames__ g2 = 0%Z.
Proof.
  apply (short_black_pass_dispatches_nothing Samples.offGlobeA RendererEvents.globeA
           Samples.onObjectA 3).
  - reflexivity.
  - reflexivity.
  - reflexivity.
  - lia.
  - reflexivity.
  - reflexivity.
  - reflexivity.
Defined.

Lemma quick_clicks_double_click_every_second_witness :
  length (snd (Pointer.clickFrames Pointer.MB_LEFT 5 5 Samples.threeClicks Samples.events))
  = 3%nat.
Proof.
  rewrite (quick_clicks_double_click_every_second Pointer.MB_LEFT 5 5 Samples.threeClicks
             Samples.events).
  - reflexivity.
  - reflexivity.
  - vm_compute. reflexivity.
  - vm_compute. reflexivity.
  - vm_compute. repeat split; intros H'; discriminate H'.
Defined.

Lemma quick_taps_double_touch_after_first_witness :
  length (snd (Pointer.tapFrames 50 50 0 0 Samples.threeTaps Samples.events
                 RendererEvents.initialModuleState))
  = 3%nat.
Proof.
  rewrite (quick_taps_double_touch_after_first 50 50 0 0 Samples.threeTaps Samples.events
             RendererEvents.initialModuleState).
  - reflexivity.
  - reflexivity.
  - vm_compute. reflexivity.
  - vm_compute. repeat split; intros H'; discriminate H'.
Defined.

Lemma pressed_button_freezes_picking_witness :
  exists e',
    Pointer.frames 3 (Pointer.onMouseDown (Some Pointer.MB_LEFT) 5 5 10 Samples.events)
      RendererEvents.initialModuleState
    = Some (e', RendererEvents.initialModuleState,
            [[(Pointer.ldown, None)]; [(Pointer.lhold, None)]; [(Pointer.lhold, None)]]).
Proof.
  destruct (pressed_button_freezes_picking Pointer.MB_LEFT 5 5 10 Samples.events
              RendererEvents.initialModuleState 2) as (e' & Hf & _).
  - reflexivity.
  - reflexivity.
  - reflexivity.
  - exists e'. exact Hf.
Defined.


Lemma far_touch_move_cancels_tap_witness :
  Pointer._dblTchBegins
    (Pointer.onTouchEnd 0 300 301
       (fst (Pointer.touchSteps
               [Pointer.TouchFrame; Pointer.TouchMoved 75 50 0 0; Pointer.TouchFrame]
               (Pointer.onTouchMove 70 50 0 0
                  (Pointer.onTouchStart 50 50 0 0 1
                     (Pointer.tap 50 50 0 0 (100, 101) Samples.events)),
                RendererEvents.initialModuleState))))
  = 0.
Proof.
  destruct (far_touch_move_cancels_tap 70 50 0 0 300 301 0
              [Pointer.TouchFrame; Pointer.TouchMoved 75 50 0 0; Pointer.TouchFrame]
              (Pointer.onTouchStart 50 50 0 0 1
                 (Pointer.tap 50 50 0 0 (100, 101) Samples.events))
              RendererEvents.initialModuleState)
    as (Hb & _ & _).
  - left. vm_compute. reflexivity.
  - exact Hb.
Defined.

Lemma mouse_move_far_on_both_axes_resets_click_timer_witness :
  Pointer.buttonClick
    (Pointer.button Pointer.MB_LEFT
       (Pointer.mouseState
          (Pointer.onMouseUp (Some Pointer.MB_LEFT) 5 5 1100 1100
             (Pointer.onMouseMove 50 50 1
                (Pointer.onMouseDown (Some Pointer.MB_LEFT) 5 5 1000 Samples.events)))))
  = false /\
  Pointer.buttonClick
    (Pointer.button Pointer.MB_LEFT
       (Pointer.mouseState
          (Pointer.onMouseUp (Some Pointer.MB_LEFT) 5 5 100 100
             (Pointer.onMouseMove 50 50 1
                (Pointer.onMouseDown (Some Pointer.MB_LEFT) 5 5 90 Samples.events)))))
  = true.
Proof.
  split.
  - rewrite (mouse_move_far_on_both_axes_resets_click_timer Pointer.MB_LEFT 5 5 50 50
               1000 1100 1100 1 Samples.events).
    + vm_compute. reflexivity.
    + vm_compute. reflexivity.
    + vm_compute. intros H'. discriminate H'.
    + reflexivity.
  - rewrite (mouse_move_far_on_both_axes_resets_click_timer Pointer.MB_LEFT 5 5 50 50
               90 100 100 1 Samples.events).
    + vm_compute. reflexivity.
    + vm_compute. reflexivity.
    + vm_compute. intros H'. discriminate H'.
    + reflexivity.
Defined.

End PointerRuns.
